(** * A shallow embedding of [data_retrieving.py] (class [YachtPartsParser])

    The crawler walks categories, listing pages and product pages of one
    web shop, appends the extracted rows to a CSV file and keeps a text
    ledger of the links that are already done.

    Strings are [String.string]: a Python [str] is represented by its UTF-8
    bytes.  Every pattern the program searches for is either ASCII or a
    whole UTF-8 sequence, so searching bytes and searching code points
    agree on well-formed text. *)

From Stdlib Require Import String Ascii List ZArith Lia Bool Arith PeanoNat.
From Stdlib Require Import DecimalString Decimal DecimalNat.
Import ListNotations.
Open Scope string_scope.
Set Warnings "-register-all".

(** ** Python values the program relies on *)

Module Py.

(** The exceptions that can leave the modelled functions. *)
Inductive exn : Type :=
| ProductLinksNotFound (link : string)
| AttributeError
| TypeError
| IndexError
| ValueError
| OverflowError.

Inductive res (A : Type) : Type :=
| Ok (a : A)
| Raise (e : exn).
Arguments Ok {A} a.
Arguments Raise {A} e.

(** [x in xs] for a tuple, list or set of strings. *)
Definition str_in (x : string) (xs : list string) : bool :=
  existsb (String.eqb x) xs.

(** [None in xs] / [s in xs] where the element may be [None]: a set of
    strings never holds [None]. *)
Definition opt_in (x : option string) (xs : list string) : bool :=
  match x with
  | Some s => str_in s xs
  | None => false
  end.

(** [sep.join(parts)]. *)
Fixpoint join (sep : string) (parts : list string) : string :=
  match parts with
  | [] => ""
  | [p] => p
  | p :: ps => p ++ sep ++ join sep ps
  end.

(** [s.replace(old, new)]: occurrences are found left to right and do
    not overlap.  [skip] counts the characters of a match that are still
    to be dropped. *)
Fixpoint replace_from (old new : string) (skip : nat) (s : string) : string :=
  match s with
  | EmptyString => EmptyString
  | String c s' =>
      match skip with
      | S k => replace_from old new k s'
      | O =>
          if prefix old s
          then new ++ replace_from old new (String.length old - 1) s'
          else String c (replace_from old new 0 s')
      end
  end.

(** With an empty [old] Python puts [new] around every character. *)
Fixpoint intersperse_all (new s : string) : string :=
  match s with
  | EmptyString => new
  | String c s' => new ++ String c (intersperse_all new s')
  end.

Definition replace (old new s : string) : string :=
  match old with
  | EmptyString => intersperse_all new s
  | _ => replace_from old new 0 s
  end.

(** [str.isspace] on the UTF-8 bytes of a character.  The white space
    of Unicode is U+0009..U+000D, U+001C..U+0020, U+0085, U+00A0, U+1680,
    U+2000..U+200A, U+2028, U+2029, U+202F, U+205F and U+3000: [is_space]
    tests a character of one byte, [is_space2] one of two bytes (C2 85,
    C2 A0) and [is_space3] one of three (E1 9A 80, E2 80 80..8A,
    E2 80 A8, E2 80 A9, E2 80 AF, E2 81 9F, E3 80 80). *)
Definition is_space (c : ascii) : bool :=
  let n := nat_of_ascii c in
  ((9 <=? n)%nat && (n <=? 13)%nat) || ((28 <=? n)%nat && (n <=? 32)%nat).

Definition is_space2 (c1 c2 : ascii) : bool :=
  let n2 := nat_of_ascii c2 in
  (nat_of_ascii c1 =? 194)%nat && ((n2 =? 133)%nat || (n2 =? 160)%nat).

Definition is_space3 (c1 c2 c3 : ascii) : bool :=
  let n1 := nat_of_ascii c1 in
  let n2 := nat_of_ascii c2 in
  let n3 := nat_of_ascii c3 in
  ((n1 =? 225)%nat && (n2 =? 154)%nat && (n3 =? 128)%nat)
  || ((n1 =? 226)%nat && (n2 =? 128)%nat
      && (((128 <=? n3)%nat && (n3 <=? 138)%nat)
          || (n3 =? 168)%nat || (n3 =? 169)%nat || (n3 =? 175)%nat))
  || ((n1 =? 226)%nat && (n2 =? 129)%nat && (n3 =? 159)%nat)
  || ((n1 =? 227)%nat && (n2 =? 128)%nat && (n3 =? 128)%nat).

(** [s.lstrip()]: the white-space characters in front are dropped. *)
Fixpoint lstrip (s : string) : string :=
  match s with
  | EmptyString => EmptyString
  | String c1 s1 =>
      if is_space c1 then lstrip s1
      else
        match s1 with
        | EmptyString => s
        | String c2 s2 =>
            if is_space2 c1 c2 then lstrip s2
            else
              match s2 with
              | EmptyString => s
              | String c3 s3 =>
                  if is_space3 c1 c2 c3 then lstrip s3 else s
              end
        end
  end.

(** The string consists of white-space characters only. *)
Fixpoint all_space (s : string) : bool :=
  match s with
  | EmptyString => true
  | String c1 s1 =>
      if is_space c1 then all_space s1
      else
        match s1 with
        | EmptyString => false
        | String c2 s2 =>
            if is_space2 c1 c2 then all_space s2
            else
              match s2 with
              | EmptyString => false
              | String c3 s3 =>
                  if is_space3 c1 c2 c3 then all_space s3 else false
              end
        end
  end.

(** [s.rstrip()]: the string is cut where nothing but white space
    follows. *)
Fixpoint rstrip (s : string) : string :=
  match s with
  | EmptyString => EmptyString
  | String c s' => if all_space s then EmptyString else String c (rstrip s')
  end.

Definition strip (s : string) : string := rstrip (lstrip s).

Definition lf : ascii := ascii_of_nat 10.
Definition cr : ascii := ascii_of_nat 13.

(** The lines [for line in f] gives for a text file opened with the
    default [newline=None]: a line ends after [\n], [\r\n] or [\r], each
    of them read as [\n]; the last line may lack its end. *)
Fixpoint read_lines (content : string) : list string :=
  match content with
  | EmptyString => []
  | String c rest =>
      if Ascii.eqb c lf then String lf "" :: read_lines rest
      else if Ascii.eqb c cr then
        match rest with
        | EmptyString => [String lf ""]
        | String c' rest' =>
            if Ascii.eqb c' lf then String lf "" :: read_lines rest'
            else String lf "" :: read_lines rest
        end
      else
        match read_lines rest with
        | [] => [String c ""]
        | line :: lines => String c line :: lines
        end
  end.

(** [str(n)] for a natural number. *)
Definition str_of_nat (n : nat) : string :=
  NilZero.string_of_uint (Nat.to_uint n).

(** A [dict] with string keys keeps the order of first insertion; an
    assignment to a key that is present replaces the value in place. *)
Definition dict (V : Type) : Type := list (string * V).

Fixpoint dict_set {V} (k : string) (v : V) (d : dict V) : dict V :=
  match d with
  | [] => [(k, v)]
  | (k', v') :: d' =>
      if String.eqb k k' then (k, v) :: d' else (k', v') :: dict_set k v d'
  end.

Fixpoint dict_get {V} (k : string) (d : dict V) : option V :=
  match d with
  | [] => None
  | (k', v') :: d' => if String.eqb k k' then Some v' else dict_get k d'
  end.

Definition dict_keys {V} (d : dict V) : list string := map fst d.

(** [dict(a, **b)]: a copy of [a] updated with the items of [b]. *)
Definition dict_update {V} (a b : dict V) : dict V :=
  fold_left (fun acc kv => dict_set (fst kv) (snd kv) acc) b a.

End Py.
Import Py.

(** ** The document tree handed out by BeautifulSoup *)

Module Soup.

(** A node is a piece of text or a tag.  The [class] attribute is
    multi-valued in BeautifulSoup and is kept as the list of its values;
    [None] means the tag has no [class] attribute. *)
Inductive node : Type :=
| Text (s : string)
| Tag (name : string) (cls : option (list string))
      (attrs : list (string * string)) (children : list node).

Definition classes (n : node) : option (list string) :=
  match n with
  | Text _ => None
  | Tag _ c _ _ => c
  end.

(** [tag.attrs.get(key)] for a single-valued attribute. *)
Definition attr_get (key : string) (n : node) : option string :=
  match n with
  | Text _ => None
  | Tag _ _ attrs _ =>
      match List.find (fun kv => String.eqb key (fst kv)) attrs with
      | Some kv => Some (snd kv)
      | None => None
      end
  end.

(** All nodes below [n], in document order. *)
Fixpoint descendants (n : node) : list node :=
  match n with
  | Text _ => []
  | Tag _ _ _ cs =>
      (fix walk (l : list node) : list node :=
         match l with
         | [] => []
         | c :: l' => c :: descendants c ++ walk l'
         end) cs
  end.

Definition is_tag_named (nm : string) (n : node) : bool :=
  match n with
  | Text _ => false
  | Tag nm' _ _ _ => String.eqb nm nm'
  end.

(** A search for [{'class': c}] succeeds when [c] is one of the values
    of the attribute, or is the whole attribute as one string. *)
Definition has_class (c : string) (n : node) : bool :=
  match classes n with
  | Some l => str_in c l || String.eqb (join " " l) c
  | None => false
  end.

(** [tag.find_all(name, {'class': c})]. *)
Definition find_all (nm c : string) (n : node) : list node :=
  filter (fun d => is_tag_named nm d && has_class c d) (descendants n).

(** [tag.find(name, {'class': c})]. *)
Definition find (nm c : string) (n : node) : option node :=
  hd_error (find_all nm c n).

(** [tag.find_all(name)] and [tag.find(name)]. *)
Definition find_all_tags (nm : string) (n : node) : list node :=
  filter (is_tag_named nm) (descendants n).

Definition find_tag (nm : string) (n : node) : option node :=
  hd_error (find_all_tags nm n).

(** The strings below a node, in document order. *)
Definition strings (n : node) : list string :=
  match n with
  | Text s => [s]
  | Tag _ _ _ _ =>
      flat_map (fun d => match d with Text s => [s] | Tag _ _ _ _ => [] end)
               (descendants n)
  end.

(** [tag.get_text(strip=True)]: every string is stripped, the empty
    ones are dropped, the rest is concatenated. *)
Definition get_text_strip (n : node) : string :=
  join "" (filter (fun s => negb (String.eqb s ""))
                  (map strip (strings n))).

End Soup.
Import Soup.

(** ** Links *)

Definition base_link : string := "https://yacht-parts.ru/".

(** The last character of a string, [s[-1]]. *)
Fixpoint last_char (s : string) : option ascii :=
  match s with
  | EmptyString => None
  | String c EmptyString => Some c
  | String _ s' => last_char s'
  end.

Definition slash : ascii := "/"%char.

(** [get_absolute_link]: [relevant_link[0]] fails on [None] and on the
    empty string; a leading slash is dropped when the base ends in one. *)
Definition get_absolute_link_from (base : string) (relevant_link : option string)
  : res string :=
  match last_char base with
  | None => Raise IndexError
  | Some b =>
      if Ascii.eqb b slash then
        match relevant_link with
        | None => Raise TypeError
        | Some EmptyString => Raise IndexError
        | Some (String c rest) =>
            if Ascii.eqb c slash then Ok (base ++ rest)
            else Ok (base ++ String c rest)
        end
      else
        match relevant_link with
        | None => Raise TypeError
        | Some l => Ok (base ++ l)
        end
  end.

Definition get_absolute_link : option string -> res string :=
  get_absolute_link_from base_link.

(** [get_pagination_page_link]. *)
Definition get_pagination_page_link (link : string) (page_num : nat) : string :=
  link ++ "?PAGEN_1=" ++ str_of_nat page_num.

(** ** The category discoverer: [get_categories] *)

Definition categories_to_extract : list string :=
  ["/catalog/other_brands/"; "/catalog/osculati_catalogue/"].

(** The link of a main category as the sorting loop reads it; the two
    look-ups raise [AttributeError] on [None]. *)
Definition main_category_link (category : node) : res (option string) :=
  match find "li" "name" category with
  | None => Raise AttributeError
  | Some li =>
      match find_tag "a" li with
      | None => Raise AttributeError
      | Some a => Ok (attr_get "href" a)
      end
  end.

(** The sorting loop: a category goes to [ordered] or to [extracted]; one
    whose link cannot be read is logged and left out. *)
Fixpoint sort_main_categories (main_categories ordered extracted : list node)
  : list node * list node :=
  match main_categories with
  | [] => (ordered, extracted)
  | category :: rest =>
      match main_category_link category with
      | Ok link =>
          if negb (opt_in link categories_to_extract)
          then sort_main_categories rest (ordered ++ [category]) extracted
          else sort_main_categories rest ordered (extracted ++ [category])
      | Raise _ => sort_main_categories rest ordered extracted
      end
  end.

Definition main_name_of (category : node) : string :=
  match find "li" "name" category with
  | Some li => get_text_strip li
  | None => ""
  end.

(** The body of the loop over sub-categories. *)
Definition add_sub_category (main_name : string)
           (categories_dict : dict (option string)) (sub_category : node)
  : dict (option string) :=
  match find_tag "a" sub_category with
  | None => categories_dict
  | Some category_data =>
      dict_set (join "; " [main_name; get_text_strip category_data])
               (attr_get "href" category_data) categories_dict
  end.

(** The second loop; a main category without sub-categories makes the
    whole function return the empty dictionary. *)
Fixpoint collect_categories (ordered_main_categories : list node)
         (categories_dict : dict (option string)) : dict (option string) :=
  match ordered_main_categories with
  | [] => categories_dict
  | category :: rest =>
      match find_all "li" "sect" category with
      | [] => []
      | sub_categories =>
          collect_categories rest
            (fold_left (add_sub_category (main_name_of category))
                       sub_categories categories_dict)
      end
  end.

(** [get_categories], applied to the document of the catalog page. *)
Definition get_categories (soup : node) : dict (option string) :=
  match find "div" "catalog_section_list" soup with
  | None => []
  | Some catalog_section =>
      match find_all "div" "section_item" catalog_section with
      | [] => []
      | main_categories =>
          let '(ordered, extracted) :=
            sort_main_categories main_categories [] [] in
          collect_categories (ordered ++ extracted) []
      end
  end.

(** ** The listing paginator: [get_product_links] *)

(** The loop over the product titles: a title without an [a] tag is
    logged and skipped; an [a] tag without [href] contributes [None]. *)
Definition product_links_of (product_titles : list node) : list (option string) :=
  flat_map (fun title =>
              match find_tag "a" title with
              | Some link_tag => [attr_get "href" link_tag]
              | None => []
              end) product_titles.

Definition first_found (a b : option node) : option node :=
  match a with
  | Some _ => a
  | None => b
  end.

Definition first_nonempty (a b : list node) : list node :=
  match a with
  | [] => b
  | _ => a
  end.

Definition get_product_links (link : string) (soup : node)
  : res (list (option string) * bool) :=
  match first_found (find "div" "display_list" soup)
                    (find "table" "module_products_list" soup) with
  | None => Raise (ProductLinksNotFound link)
  | Some product_list =>
      match first_nonempty (find_all "div" "item-title" product_list)
                           (find_all "td" "item-name-cell" product_list) with
      | [] => Raise (ProductLinksNotFound link)
      | product_titles =>
          let product_links := product_links_of product_titles in
          match find "div" "module-pagination" soup with
          | None => Ok (product_links, true)
          | Some paginator =>
              match find "li" "flex-nav-next" paginator with
              | None => Raise AttributeError
              | Some next_btn =>
                  match classes next_btn with
                  | None => Raise TypeError
                  | Some cl => Ok (product_links, str_in "disabled" cl)
                  end
              end
          end
      end
  end.

(** ** The product record builder: [get_specific_data] *)

Definition record : Type := dict (option string).

(** The three replacements applied to the text of the price tag. *)
Definition normalise_price (price : string) : string :=
  replace "руб" "" (replace "." "" (replace " " "" price)).

Definition price_of (middle_info : node) : option string :=
  match find "div" "price" middle_info with
  | Some price_tag => Some (normalise_price (get_text_strip price_tag))
  | None => None
  end.

Definition article_of (top_info : node) : option string :=
  match find "div" "article iblock" top_info with
  | None => None
  | Some t =>
      match find "span" "value" t with
      | None => None
      | Some article_tag => Some (get_text_strip article_tag)
      end
  end.

(** The gallery loop; a thumbnail without a link, or with an empty one,
    is skipped, so [get_absolute_link] cannot fail here. *)
Definition image_links_of (main_info : node) : list string :=
  match find "div" "img_wrapper" main_info with
  | None => []
  | Some img_wrapper =>
      match find "div" "slides" img_wrapper with
      | None => []
      | Some wrapp_thumbs =>
          flat_map (fun image =>
                      match attr_get "href" image with
                      | None | Some EmptyString => []
                      | Some rel_link =>
                          match get_absolute_link (Some rel_link) with
                          | Ok l => [l]
                          | Raise _ => []
                          end
                      end) (find_all_tags "a" wrapp_thumbs)
      end
  end.

Definition get_specific_data (soup : node) : res record :=
  match find "div" "item_main_info" soup with
  | None => Raise AttributeError
  | Some main_info =>
      match find "div" "top_info" main_info with
      | None => Raise AttributeError
      | Some top_info =>
          let article := article_of top_info in
          match find "div" "middle_info wrap_md" main_info with
          | None => Raise AttributeError
          | Some middle_info =>
              let price := price_of middle_info in
              let image_links := join "," (image_links_of main_info) in
              Ok [("article", article); ("price", price);
                  ("image_links", Some image_links)]
          end
      end
  end.

(** ** The option enumerator: [iterate_options]

    The enumerator drives the live page through Selenium.  The driver is
    abstract: a page state, element handles, the three calls the
    generator makes and the document read by [get_current_soup]. *)

Inductive click_outcome : Type :=
| Clicked
| NoSuchElement          (* NoSuchElementException, logged *)
| ClickIntercepted.      (* ElementClickInterceptedException, logged *)

Section Enumerator.

Variable page : Type.
Variable elem : Type.
(** [element.find_elements(By.TAG_NAME, 'li')] *)
Variable find_li : elem -> page -> list elem.
(** [element.get_attribute(name)] *)
Variable get_attribute : string -> elem -> page -> option string.
(** moving to the button and clicking it *)
Variable click : elem -> page -> click_outcome * page.
(** [BeautifulSoup(driver.page_source)] *)
Variable page_source : page -> node.

Definition opt_str_eqb (a b : option string) : bool :=
  match a, b with
  | Some x, Some y => String.eqb x y
  | None, None => true
  | _, _ => false
  end.

(** The state of a running generator: the live page, the values
    yielded so far, each with the page as it was when the consumer
    received it, and the clicks made so far with their level. *)
Record gen_state : Type := mk_gen {
  cur : page;
  yielded : list (list (option string) * page);
  clicks : list (nat * elem)
}.

Definition gen_start (p : page) : gen_state :=
  {| cur := p; yielded := []; clicks := [] |}.

(** The buttons of a group that the loop visits. *)
Definition options_btns (group : elem) (p : page) : list elem :=
  filter (fun btn =>
            negb (opt_str_eqb (get_attribute "style" btn p)
                              (Some "display: none;")))
         (find_li group p).

(** The titles of the active buttons of all groups. *)
Definition selected_options (options_groups : list elem) (p : page)
  : list (option string) :=
  let buttons := flat_map (fun group => find_li group p) options_groups in
  map (fun item => get_attribute "title" item p)
      (filter (fun item =>
                 opt_str_eqb (get_attribute "class" item p) (Some "active"))
              buttons).

(** A [for] loop whose body may raise. *)
Fixpoint for_each {A S : Type} (body : S -> A -> res S) (xs : list A) (s : S)
  : res S :=
  match xs with
  | [] => Ok s
  | x :: xs' =>
      match body s x with
      | Ok s' => for_each body xs' s'
      | Raise e => Raise e
      end
  end.

Definition do_click (level : nat) (btn : elem) (s : gen_state) : gen_state :=
  {| cur := snd (click btn (cur s));
     yielded := yielded s;
     clicks := clicks s ++ [(level, btn)] |}.

(** [remaining] is [len(options_groups) - level]; it is zero exactly
    when [options_groups[level]] raises [IndexError].  In the branch
    that is not a leaf the values of the inner generator are consumed
    by a loop whose body is [pass]: only the page and the clicks of the
    inner run survive. *)
Fixpoint iterate_options_rec (remaining : nat) (options_groups : list elem)
         (level : nat) (s : gen_state) : res gen_state :=
  match remaining with
  | O => Raise IndexError
  | S remaining' =>
      match nth_error options_groups level with
      | None => Raise IndexError
      | Some group =>
          for_each
            (fun s btn =>
               let s1 := do_click level btn s in
               if Nat.eqb level (List.length options_groups - 1) then
                 Ok {| cur := cur s1;
                       yielded := yielded s1 ++
                                  [(selected_options options_groups (cur s1),
                                    cur s1)];
                       clicks := clicks s1 |}
               else
                 match iterate_options_rec remaining' options_groups
                                           (level + 1) s1 with
                 | Ok s2 => Ok {| cur := cur s2;
                                  yielded := yielded s1;
                                  clicks := clicks s2 |}
                 | Raise e => Raise e
                 end)
            (options_btns group (cur s)) s
      end
  end.

Definition iterate_options (options_groups : list elem) (level : nat)
           (s : gen_state) : res gen_state :=
  iterate_options_rec (List.length options_groups - level)
                      options_groups level s.

(** *** [get_product_page_data] *)

(** [driver.find_element(...)...find_elements(...)]: the option groups
    of the page, [None] when a look-up raises [NoSuchElementException]. *)
Variable find_options_groups : page -> option (list elem).
(** [get_general_data]; the empty dictionary when the page has no
    product. *)
Variable get_general_data : page -> record.

(** [','.join(selected_options)] raises [TypeError] on a [None]. *)
Fixpoint all_some (l : list (option string)) : option (list string) :=
  match l with
  | [] => Some []
  | Some x :: l' =>
      match all_some l' with
      | Some xs => Some (x :: xs)
      | None => None
      end
  | None :: _ => None
  end.

Definition variant_record (general_data : record) (p : page)
           (options : res (option string)) : res record :=
  match get_specific_data (page_source p) with
  | Raise e => Raise e
  | Ok specific_data =>
      match options with
      | Raise e => Raise e
      | Ok o => Ok (dict_set "options" o
                             (dict_update general_data specific_data))
      end
  end.

Definition joined_options (selected : list (option string))
  : res (option string) :=
  match all_some selected with
  | Some l => Ok (Some (join "," l))
  | None => Raise TypeError
  end.

Fixpoint variant_records (general_data : record)
         (ys : list (list (option string) * page)) : res (list record) :=
  match ys with
  | [] => Ok []
  | (selected, p) :: ys' =>
      match variant_record general_data p (joined_options selected) with
      | Raise e => Raise e
      | Ok data =>
          match variant_records general_data ys' with
          | Raise e => Raise e
          | Ok page_data => Ok (data :: page_data)
          end
      end
  end.

(** [get_product_page_data] on the page that [load_page] has opened. *)
Definition get_product_page_data (p : page) : res (list record) :=
  let options_groups := find_options_groups p in
  match get_general_data p with
  | [] => Ok [[]]
  | general_data =>
      match options_groups with
      | Some (g :: gs) =>
          match iterate_options (g :: gs) 0 (gen_start p) with
          | Raise e => Raise e
          | Ok s => variant_records general_data (yielded s)
          end
      | _ =>
          match variant_record general_data p (Ok None) with
          | Raise e => Raise e
          | Ok data => Ok [data]
          end
      end
  end.

End Enumerator.

Arguments cur {page elem}.
Arguments yielded {page elem}.
Arguments clicks {page elem}.

(** ** [set_max_csv_size]

    [csv.field_size_limit] stores the limit in a C [long] and raises
    [OverflowError] when the argument does not fit.  [size / 10] is true
    division of integers: the quotient correctly rounded (ties to even) to
    a binary64 float, [OverflowError] when that float would be 2^1024 or
    more; [int] then truncates.  All of it is integer arithmetic. *)

Module Csv.
Open Scope Z_scope.

(** How a loop that may not terminate ends within its fuel. *)
Inductive run (A : Type) : Type :=
| Done (a : A)
| Threw (e : exn)
| OutOfFuel.
Arguments Done {A} a.
Arguments Threw {A} e.
Arguments OutOfFuel {A}.

(** The integer nearest to [n / d], ties to even ([0 <= n], [0 < d]). *)
Definition round_half_even (n d : Z) : Z :=
  let q := n / d in
  let r := n mod d in
  if 2 * r <? d then q
  else if d <? 2 * r then q + 1
  else if Z.even q then q else q + 1.

(** [floor (log2 (n / d))] for positive [n] and [d]. *)
Definition ratio_log2 (n d : Z) : Z :=
  let l := Z.log2 n - Z.log2 d in
  if 0 <=? l
  then (if d * 2 ^ l <=? n then l else l - 1)
  else (if d <=? n * 2 ^ (- l) then l else l - 1).

(** The binary64 float nearest to [n / d], as mantissa and exponent:
    its value is [m * 2 ^ e].  [None] is the overflow. *)
Definition float_of_ratio (n d : Z) : option (Z * Z) :=
  let e := Z.max (ratio_log2 n d - 52) (-1074) in
  let m := if 0 <=? e then round_half_even n (d * 2 ^ e)
           else round_half_even (n * 2 ^ (- e)) d in
  if (0 <=? e) && (2 ^ 1024 <=? m * 2 ^ e) then None else Some (m, e).

(** [int(x)] for a non-negative float [m * 2 ^ e]. *)
Definition int_of_float (f : Z * Z) : Z :=
  let '(m, e) := f in
  if 0 <=? e then m * 2 ^ e else m / 2 ^ (- e).

(** [int(size / 10)]. *)
Definition int_div10 (size : Z) : res Z :=
  if size =? 0 then Ok 0
  else
    match float_of_ratio (Z.abs size) 10 with
    | None => Raise OverflowError
    | Some f => Ok (Z.sgn size * int_of_float f)
    end.

(** [csv.field_size_limit(size)] on a platform whose [long] has
    [long_bits] bits. *)
Definition field_size_limit (long_bits : Z) (size : Z) : res unit :=
  if (- 2 ^ (long_bits - 1) <=? size) && (size <=? 2 ^ (long_bits - 1) - 1)
  then Ok tt else Raise OverflowError.

(** The loop of [set_max_csv_size]; the result is the size that was
    set.  The division stands in the [except] clause, so its own
    [OverflowError] leaves the function. *)
Fixpoint set_max_csv_size (fuel : nat) (long_bits : Z) (size : Z) : run Z :=
  match fuel with
  | O => OutOfFuel
  | S fuel' =>
      match field_size_limit long_bits size with
      | Ok _ => Done size
      | Raise OverflowError =>
          match int_div10 size with
          | Ok size' => set_max_csv_size fuel' long_bits size'
          | Raise e => Threw e
          end
      | Raise e => Threw e
      end
  end.

Definition sys_maxsize : Z := 2 ^ 63 - 1.

End Csv.

(** ** The crawl orchestrator: [get_all_data]

    The two files and the in-memory set are the state.  [log] lists, in
    the order they happen, the page loads and the operations on the two
    files; it is what the ordering properties are stated on.
    [EvLoadListing category_link page_num] is the load of the page
    [get_pagination_page_link category_link page_num];
    [EvLoadProduct rel_link link] is the load of the product page [link]
    for the link [rel_link] of the listing page. *)

Inductive unit_kind : Type := UProduct | UPage | UCategory.

Inductive event : Type :=
| EvLoadCatalog (link : string)
| EvLoadListing (category_link : string) (page_num : nat)
| EvLoadProduct (rel_link : option string) (link : string)
| EvSinkOpen
| EvSinkHeader
| EvSinkRows (rows : list (list string))
| EvSinkClose
| EvLedger (kind : unit_kind) (link : string).

Inductive csv_line : Type :=
| Header (cells : list string)
| Row (cells : list string).

Record state : Type := mk_state {
  collected_links : list string;       (* the set of handled links *)
  ledger_file : string;                (* the text of collected_links.txt *)
  sink_file : option (list csv_line);  (* [None]: the CSV file does not exist *)
  log : list event
}.

Inductive outcome : Type :=
| Finished
| Failed (e : exn)
| Exhausted.                           (* the fuel of the page loop ran out *)

Definition emit (evs : list event) (st : state) : state :=
  {| collected_links := collected_links st;
     ledger_file := ledger_file st;
     sink_file := sink_file st;
     log := log st ++ evs |}.

(** [add_collected_link]: [link + '\n'] is appended to the text of the
    file (the line separator of the platform being [\n]), then the link
    is added to the set. *)
Definition add_collected_link (kind : unit_kind) (link : string) (st : state)
  : state :=
  {| collected_links := collected_links st ++ [link];
     ledger_file := (ledger_file st ++ link ++ String lf "")%string;
     sink_file := sink_file st;
     log := log st ++ [EvLedger kind link] |}.

(** The set read from the ledger at start: [line.rstrip()] of each line
    of the file. *)
Definition load_collected_links (content : string) : list string :=
  map rstrip (read_lines content).

(** The state at the start: [ledger] is the text of the ledger file, the
    empty text when the file is not there yet. *)
Definition initial_state (ledger : string) (sink : option (list csv_line))
  : state :=
  {| collected_links := load_collected_links ledger;
     ledger_file := ledger;
     sink_file := sink;
     log := [] |}.

Definition default_fields_order : list string :=
  ["article"; "name"; "brand"; "options"; "price"; "category";
   "preview_description"; "main_description"; "image_links"; "product_link"].

Section Orchestrator.

(** The column order given to the constructor. *)
Variable fields_order : list string.
(** The document [get_page_soup] obtains for a link. *)
Variable page_soup : string -> node.
(** What [get_product_page_data] returns for a product link, after
    [load_page] has opened it.  The site answers a link in the same way
    throughout a run. *)
Variable product_page_data : string -> res (list record).

(** [DictWriter._dict_to_list]: a key outside the field names raises
    [ValueError]; a missing key and [None] are written as the empty
    string. *)
Definition dict_to_list (rowdict : record) : res (list string) :=
  if forallb (fun k => str_in k fields_order) (dict_keys rowdict)
  then Ok (map (fun key => match dict_get key rowdict with
                           | Some (Some v) => v
                           | _ => ""
                           end) fields_order)
  else Raise ValueError.

(** [writerows]: the rows before the first bad dictionary are written. *)
Fixpoint rows_written (page_data : list record)
  : list (list string) * option exn :=
  match page_data with
  | [] => ([], None)
  | d :: ds =>
      match dict_to_list d with
      | Raise e => ([], Some e)
      | Ok r => let '(rs, err) := rows_written ds in (r :: rs, err)
      end
  end.

(** The [with] block that appends the rows of one product: the header
    goes in only when the file did not exist before the block. *)
Definition save_page_data (page_data : list record) (st : state)
  : outcome * state :=
  let saving_file_exists :=
    match sink_file st with Some _ => true | None => false end in
  let old := match sink_file st with Some ls => ls | None => [] end in
  let '(rows, err) := rows_written page_data in
  let st' :=
    {| collected_links := collected_links st;
       ledger_file := ledger_file st;
       sink_file :=
         Some (old ++ (if saving_file_exists then []
                       else [Header fields_order]) ++ map Row rows)%list;
       log := log st ++ [EvSinkOpen]
                ++ (if saving_file_exists then [] else [EvSinkHeader])
                ++ [EvSinkRows rows; EvSinkClose] |} in
  (match err with None => Finished | Some e => Failed e end, st').

Definition is_empty_dict (d : record) : bool :=
  match d with [] => true | _ => false end.

Definition set_category (category_name : string) (page_data : list record)
  : list record :=
  map (dict_set "category" (Some category_name)) page_data.

(** The body of the loop over the products of a page. *)
Definition process_product (category_name : string)
           (rel_product_link : option string) (st : state) : outcome * state :=
  if opt_in rel_product_link (collected_links st) then (Finished, st)
  else
    match get_absolute_link rel_product_link with
    | Raise e => (Failed e, st)
    | Ok product_link =>
        let st1 := emit [EvLoadProduct rel_product_link product_link] st in
        match product_page_data product_link with
        | Raise e => (Failed e, st1)
        | Ok page_data =>
            if forallb is_empty_dict page_data then (Finished, st1)
            else
              match save_page_data (set_category category_name page_data)
                                   st1 with
              | (Finished, st2) =>
                  (* [link + '\n'] raises [TypeError] on [None] *)
                  match rel_product_link with
                  | Some l => (Finished, add_collected_link UProduct l st2)
                  | None => (Failed TypeError, st2)
                  end
              | (o, st2) => (o, st2)
              end
        end
    end.

Fixpoint products_loop (category_name : string)
         (product_links : list (option string)) (st : state)
  : outcome * state :=
  match product_links with
  | [] => (Finished, st)
  | rel_product_link :: rest =>
      match process_product category_name rel_product_link st with
      | (Finished, st') => products_loop category_name rest st'
      | (o, st') => (o, st')
      end
  end.

(** The loop over [count(start=1)]; every iteration uses one unit of
    fuel. *)
Fixpoint pages_loop (fuel : nat) (category_name category_link : string)
         (page_num : nat) (st : state) : outcome * state :=
  match fuel with
  | O => (Exhausted, st)
  | S fuel' =>
      let page_link := get_pagination_page_link category_link page_num in
      if str_in page_link (collected_links st)
      then pages_loop fuel' category_name category_link (S page_num) st
      else
        let st1 := emit [EvLoadListing category_link page_num] st in
        match get_product_links page_link (page_soup page_link) with
        | Raise e => (Failed e, st1)
        | Ok (product_links, is_last_page) =>
            match products_loop category_name product_links st1 with
            | (Finished, st2) =>
                let st3 := add_collected_link UPage page_link st2 in
                if is_last_page then (Finished, st3)
                else pages_loop fuel' category_name category_link
                                (S page_num) st3
            | (o, st2) => (o, st2)
            end
        end
  end.

(** The body of the loop over the categories. *)
Definition process_category (fuel : nat)
           (category : string * option string) (st : state)
  : outcome * state :=
  let '(category_name, rel_category_link) := category in
  match get_absolute_link rel_category_link with
  | Raise e => (Failed e, st)
  | Ok category_link =>
      if str_in category_link (collected_links st) then (Finished, st)
      else
        match pages_loop fuel category_name category_link 1 st with
        | (Finished, st') =>
            (Finished, add_collected_link UCategory category_link st')
        | (o, st') => (o, st')
        end
  end.

Fixpoint categories_loop (fuel : nat)
         (categories : list (string * option string)) (st : state)
  : outcome * state :=
  match categories with
  | [] => (Finished, st)
  | category :: rest =>
      match process_category fuel category st with
      | (Finished, st') => categories_loop fuel rest st'
      | (o, st') => (o, st')
      end
  end.

(** [get_all_data], started with the given contents of the two files.
    [set_max_csv_size(sys.maxsize)] only changes the field limit of the
    [csv] readers and is not part of the state. *)
Definition get_all_data (fuel : nat) (ledger : string)
           (sink : option (list csv_line)) : outcome * state :=
  let st0 := initial_state ledger sink in
  match get_absolute_link (Some "catalog/") with
  | Raise e => (Failed e, st0)
  | Ok catalog_link =>
      let st1 := emit [EvLoadCatalog catalog_link] st0 in
      categories_loop fuel (get_categories (page_soup catalog_link)) st1
  end.

End Orchestrator.

(** An absolute link names its scheme. *)
Definition is_absolute_url (s : string) : bool :=
  prefix "http://" s || prefix "https://" s.

(** ** Concrete pages used to run the model *)

(** A product page whose option groups behave like independent radio
    groups: a click makes the button the only active one of its group and
    changes nothing else. *)
Module RadioPage.

Record button : Type := mk_button {
  title : string;
  style : option string;
  active : bool
}.

Definition page : Type := list (list button).

Inductive elem : Type :=
| Group (g : nat)
| Button (g b : nat).

Definition button_at (p : page) (g b : nat) : option button :=
  match nth_error p g with
  | Some grp => nth_error grp b
  | None => None
  end.

Definition find_li (e : elem) (p : page) : list elem :=
  match e with
  | Group g =>
      match nth_error p g with
      | Some grp => map (Button g) (seq 0 (List.length grp))
      | None => []
      end
  | Button _ _ => []
  end.

Definition get_attribute (name : string) (e : elem) (p : page)
  : option string :=
  match e with
  | Group _ => None
  | Button g b =>
      match button_at p g b with
      | None => None
      | Some btn =>
          if String.eqb name "style" then style btn
          else if String.eqb name "title" then Some (title btn)
          else if String.eqb name "class"
               then Some (if active btn then "active" else "")
               else None
      end
  end.

(** The group after a click on the button at position [b]; [i] is the
    position of the head of [grp]. *)
Fixpoint select_at (i b : nat) (grp : list button) : list button :=
  match grp with
  | [] => []
  | btn :: rest =>
      {| title := title btn; style := style btn; active := Nat.eqb i b |}
      :: select_at (S i) b rest
  end.

Fixpoint update_group (g : nat) (f : list button -> list button) (p : page)
  : page :=
  match p, g with
  | [], _ => []
  | grp :: rest, O => f grp :: rest
  | grp :: rest, S g' => grp :: update_group g' f rest
  end.

Definition click (e : elem) (p : page) : click_outcome * page :=
  match e with
  | Group _ => (NoSuchElement, p)
  | Button g b =>
      match button_at p g b with
      | Some _ => (Clicked, update_group g (select_at 0 b) p)
      | None => (NoSuchElement, p)
      end
  end.

Definition plain (t : string) : button :=
  {| title := t; style := None; active := false |}.

(** Two independent groups of sizes 2 and 3, nothing hidden. *)
Definition page23 : page :=
  [[plain "Size: S"; plain "Size: M"];
   [plain "Colour: red"; plain "Colour: green"; plain "Colour: blue"]].

Definition groups23 : list elem := [Group 0; Group 1].

(** One group of four buttons, three of them hidden in different
    ways; only the second carries the exact style string. *)
Definition page_hidden : page :=
  [[plain "Size: S";
    {| title := "Size: M"; style := Some "display: none;"; active := false |};
    {| title := "Size: L"; style := Some "display:none;"; active := false |};
    {| title := "Size: XL"; style := Some "visibility: hidden;";
       active := false |}]].

End RadioPage.

(** A small shop. *)
Module Shop.

Definition div (c : string) (children : list node) : node :=
  Tag "div" (Some [c]) [] children.
Definition li (c : list string) (children : list node) : node :=
  Tag "li" (Some c) [] children.
Definition a (href text : string) : node :=
  Tag "a" None [("href", href)] [Text text].

Definition section_item (href name : string) (subs : list (string * string))
  : node :=
  div "section_item"
      (li ["name"] [a href name]
       :: map (fun s => li ["sect"] [a (fst s) (snd s)]) subs).

Definition catalog (items : list node) : node :=
  Tag "html" None [] [div "catalog_section_list" items].

Definition listing (products : list string) (pagination : list node) : node :=
  Tag "html" None []
      (div "display_list"
           (map (fun p => div "item-title" [a p "product"]) products)
       :: pagination).

Definition pagination (next_classes : list string) : node :=
  div "module-pagination" [li next_classes [a "?PAGEN_1=2" "next"]].

Definition empty_page : node := Tag "html" None [] [].

Definition a_record : record :=
  [("brand", Some "Acme"); ("name", Some "Anchor");
   ("main_description", None); ("preview_description", None);
   ("product_link", Some "https://yacht-parts.ru/catalog/a/a1/p1/");
   ("article", Some "A-1"); ("price", Some "100");
   ("image_links", Some ""); ("options", None)].

Definition product_page_data (link : string) : res (list record) :=
  if String.eqb link "https://yacht-parts.ru/catalog/a/a1/p1/"
  then Ok [a_record]
  else Ok [[]].

(** One category with one listing page and one product. *)
Definition one_category (link : string) : node :=
  if String.eqb link "https://yacht-parts.ru/catalog/"
  then catalog [section_item "/catalog/a/" "A" [("/catalog/a/a1/", "a1")]]
  else if String.eqb link "https://yacht-parts.ru/catalog/a/a1/?PAGEN_1=1"
  then listing ["/catalog/a/a1/p1/"] []
  else empty_page.


(** Two categories; the listing page of the first one has no product
    list, the second one is in order. *)
Definition broken_first (link : string) : node :=
  if String.eqb link "https://yacht-parts.ru/catalog/"
  then catalog [section_item "/catalog/b/" "B" [("/catalog/b/b1/", "b1")];
                section_item "/catalog/a/" "A" [("/catalog/a/a1/", "a1")]]
  else if String.eqb link "https://yacht-parts.ru/catalog/a/a1/?PAGEN_1=1"
  then listing ["/catalog/a/a1/p1/"] []
  else empty_page.

(** A catalog in which a normal category and a deferred one carry the
    same name and a sub-category of the same name. *)
Definition same_names : node :=
  catalog
    [section_item "/catalog/other_brands/" "A" [("/catalog/other_brands/x/", "x")];
     section_item "/catalog/a/" "A"
                  [("/catalog/a/x/", "x"); ("/catalog/a/y/", "y")];
     section_item "/catalog/osculati_catalogue/" "O"
                  [("/catalog/osculati_catalogue/z/", "z")]].

(** The same catalog with distinct names. *)
Definition distinct_names : node :=
  catalog
    [section_item "/catalog/other_brands/" "Brands"
                  [("/catalog/other_brands/x/", "x")];
     section_item "/catalog/a/" "A"
                  [("/catalog/a/x/", "x"); ("/catalog/a/y/", "y")];
     section_item "/catalog/osculati_catalogue/" "O"
                  [("/catalog/osculati_catalogue/z/", "z")];
     section_item "/catalog/b/" "B" [("/catalog/b/w/", "w")]].

(** A product page with a price. *)
Definition priced (price_text : string) : node :=
  Tag "html" None []
      [div "item_main_info"
           [div "top_info"
                [Tag "div" (Some ["article"; "iblock"]) []
                     [Tag "span" (Some ["value"]) [] [Text " A-1 "]]];
            Tag "div" (Some ["middle_info"; "wrap_md"]) []
                [div "price" [Text price_text]]]].

Definition unpriced : node :=
  Tag "html" None []
      [div "item_main_info"
           [div "top_info" [];
            Tag "div" (Some ["middle_info"; "wrap_md"]) [] []]].

End Shop.

(** A shop whose only product has the two option groups of
    [RadioPage.page23]: [get_product_page_data] runs the enumerator on
    that page. *)
Module OptionShop.

Definition general_data : record :=
  [("brand", Some "Acme"); ("name", Some "Anchor");
   ("main_description", None); ("preview_description", None);
   ("product_link", Some "https://yacht-parts.ru/catalog/a/a1/p1/")].

Definition product_page_data (link : string) : res (list record) :=
  get_product_page_data
    RadioPage.page RadioPage.elem RadioPage.find_li RadioPage.get_attribute
    RadioPage.click
    (fun _ => Shop.priced "100 руб")
    (fun _ => Some RadioPage.groups23)
    (fun _ => general_data)
    RadioPage.page23.

End OptionShop.

(** ** Vocabulary of the statements *)

Open Scope list_scope.

(** The page has no pagination control. *)
Definition no_pagination (soup : node) : Prop :=
  find "div" "module-pagination" soup = None.


(** The pagination control is there and has its "next" element. *)
Definition has_next (soup : node) : Prop :=
  exists paginator next_btn,
    find "div" "module-pagination" soup = Some paginator /\
    find "li" "flex-nav-next" paginator = Some next_btn.

(** The main categories found on the catalog page, in source order. *)
Definition main_categories_of (soup : node) : list node :=
  match find "div" "catalog_section_list" soup with
  | None => []
  | Some catalog_section => find_all "div" "section_item" catalog_section
  end.

(** A main category is deferred when its link is one of the two brand
    paths, normal when its link is read and is another one. *)
Definition is_deferred (category : node) : bool :=
  match main_category_link category with
  | Ok link => opt_in link categories_to_extract
  | Raise _ => false
  end.

Definition is_normal (category : node) : bool :=
  match main_category_link category with
  | Ok link => negb (opt_in link categories_to_extract)
  | Raise _ => false
  end.

Definition has_sub_categories (category : node) : bool :=
  match find_all "li" "sect" category with
  | [] => false
  | _ => true
  end.

(** The entries a main category assigns to the dictionary, in order. *)
Definition category_writes (category : node) : list (string * option string) :=
  flat_map (fun sub_category =>
              match find_tag "a" sub_category with
              | None => []
              | Some category_data =>
                  [(join "; " [main_name_of category;
                               get_text_strip category_data],
                    attr_get "href" category_data)]
              end) (find_all "li" "sect" category).

(** Every entry of a deferred category comes, in the iteration order of
    the mapping, after every entry of a normal category. *)
Definition deferred_entries_last (soup : node) : Prop :=
  forall cd cn ed en i j,
    In cd (main_categories_of soup) -> is_deferred cd = true ->
    In cn (main_categories_of soup) -> is_normal cn = true ->
    In ed (category_writes cd) -> In en (category_writes cn) ->
    nth_error (get_categories soup) i = Some ed ->
    nth_error (get_categories soup) j = Some en ->
    j < i.

(** The clicks made at a given level of the enumeration. *)
Definition at_level (elem : Type) (level : nat) (c : nat * elem) : bool :=
  Nat.eqb (fst c) level.

(** *** The log *)

(** The links appended to the ledger, in order. *)
Definition ledger_links (tr : list event) : list string :=
  flat_map (fun ev => match ev with EvLedger _ l => [l] | _ => [] end) tr.

(** The text these links make in the ledger file: each link is followed
    by a newline. *)
Fixpoint ledger_text (links : list string) : string :=
  match links with
  | [] => ""
  | l :: links' => (l ++ String lf "" ++ ledger_text links')%string
  end.

(** The rows appended to the CSV file, in order. *)
Definition rows_of_log (tr : list event) : list (list string) :=
  flat_map (fun ev => match ev with EvSinkRows rows => rows | _ => [] end) tr.

Definition is_open (ev : event) : bool :=
  match ev with EvSinkOpen => true | _ => false end.

Definition is_header (ev : event) : bool :=
  match ev with EvSinkHeader => true | _ => false end.

Definition is_ledger (ev : event) : bool :=
  match ev with EvLedger _ _ => true | _ => false end.

(** Whether the CSV file was opened. *)
Definition opened (tr : list event) : bool := existsb is_open tr.

(** How many headers were written. *)
Definition headers (tr : list event) : nat := List.length (filter is_header tr).

(** Whether the handle of the CSV file is closed at the end of the log. *)
Definition sink_closed (tr : list event) : bool :=
  fold_left (fun closed ev =>
               match ev with
               | EvSinkOpen => false
               | EvSinkClose => true
               | _ => closed
               end) tr true.

Section Ordering.

Variable fields_order : list string.
Variable page_soup : string -> node.
Variable product_page_data : string -> res (list record).
(** The set of links at the start of the run. *)
Variable collected0 : list string.

(** What [get_product_links] gives for page [n] of a category. *)
Definition listing_result (category_link : string) (n : nat)
  : res (list (option string) * bool) :=
  get_product_links (get_pagination_page_link category_link n)
                    (page_soup (get_pagination_page_link category_link n)).

(** The set of links after the events [pre]. *)
Definition collected_after (pre : list event) : list string :=
  collected0 ++ ledger_links pre.

(** A product entry comes right after the block that opened the CSV file,
    wrote all rows of that product and closed the file. *)
Definition product_entry_ok (pre : list event) (l : string) : Prop :=
  exists pre' hdr category_name product_link page_data rows,
    pre = pre' ++ [EvSinkOpen] ++ hdr ++ [EvSinkRows rows; EvSinkClose] /\
    (hdr = [] \/ hdr = [EvSinkHeader]) /\
    get_absolute_link (Some l) = Ok product_link /\
    product_page_data product_link = Ok page_data /\
    rows_written fields_order (set_category category_name page_data)
    = (rows, None).

(** A product link of a page is dealt with: it is in the set of handled
    links, or its page gave no data, so that there is nothing to write. *)
Definition product_handled (pre : list event) (rel : option string) : Prop :=
  exists l,
    rel = Some l /\
    (str_in l (collected_after pre) = true \/
     exists product_link page_data,
       get_absolute_link (Some l) = Ok product_link /\
       product_page_data product_link = Ok page_data /\
       forallb is_empty_dict page_data = true).

(** A page entry [l] for page [n] of a category comes when the CSV file
    is closed and every product link of the page is dealt with. *)
Definition page_entry_ok (pre : list event) (l : string) : Prop :=
  sink_closed pre = true /\
  exists category_link n product_links is_last_page,
    l = get_pagination_page_link category_link n /\
    listing_result category_link n = Ok (product_links, is_last_page) /\
    Forall (product_handled pre) product_links.

(** A category entry comes when the CSV file is closed and the pages
    1..n of the category are in the set of handled links, page [n] being
    one that this run recorded and that was reported as the last. *)
Definition category_entry_ok (pre : list event) (l : string) : Prop :=
  sink_closed pre = true /\
  exists n product_links,
    1 <= n /\
    (forall k, 1 <= k <= n ->
               str_in (get_pagination_page_link l k) (collected_after pre)
               = true) /\
    In (EvLedger UPage (get_pagination_page_link l n)) pre /\
    listing_result l n = Ok (product_links, true).

Definition entry_ok (pre : list event) (kind : unit_kind) (l : string) : Prop :=
  match kind with
  | UProduct => product_entry_ok pre l
  | UPage => page_entry_ok pre l
  | UCategory => category_entry_ok pre l
  end.

(** Every ledger entry of the log is preceded by what it stands for. *)
Definition ledger_after_sink (tr : list event) : Prop :=
  forall pre kind l post,
    tr = pre ++ EvLedger kind l :: post -> entry_ok pre kind l.

(** The form of a ledger entry: a category or page entry starts with the
    base link; a product entry is a link of a listing page as
    [get_product_links] returned it. *)
Definition entry_shape (kind : unit_kind) (l : string) : Prop :=
  match kind with
  | UProduct =>
      exists category_link n product_links is_last_page,
        listing_result category_link n = Ok (product_links, is_last_page) /\
        In (Some l) product_links
  | UPage | UCategory => prefix base_link l = true
  end.

(** The events of the loop over the products of a page. *)
Definition product_level (ev : event) : bool :=
  match ev with
  | EvLoadProduct _ _ | EvSinkOpen | EvSinkHeader | EvSinkRows _ | EvSinkClose
  | EvLedger UProduct _ => true
  | _ => false
  end.

(** The events of the loop over the pages of a category. *)
Definition page_level (ev : event) : bool :=
  match ev with
  | EvLoadListing _ _ | EvLedger UPage _ => true
  | _ => product_level ev
  end.

Definition is_load (ev : event) : bool :=
  match ev with
  | EvLoadCatalog _ | EvLoadListing _ _ | EvLoadProduct _ _ => true
  | _ => false
  end.

(** Every listing page loaded so far gave its product links. *)
Definition listings_ok (tr : list event) : Prop :=
  forall category_link n,
    In (EvLoadListing category_link n) tr ->
    exists r, listing_result category_link n = Ok r.

(** How a run stands when it ends with outcome [o] and log [tr]: every
    listing page it loaded gave its product links, unless the run failed
    on the load of a listing page, which is then its last event; that
    page and its category have no entry. *)
Definition stop_point (o : outcome) (tr : list event) : Prop :=
  listings_ok tr \/
  exists e tr0 category_link n,
    o = Failed e /\
    tr = tr0 ++ [EvLoadListing category_link n] /\
    listings_ok tr0 /\
    listing_result category_link n = Raise e /\
    ~ In (EvLedger UCategory category_link) tr0 /\
    ~ In (EvLedger UPage (get_pagination_page_link category_link n)) tr0.

(** The contents of the two files at the start of the run. *)
Variable ledger0 : string.
Variable sink0 : option (list csv_line).

(** The CSV file as the log determines it: the old contents are kept,
    and a header stands in front only when the file did not exist. *)
Definition sink_view (tr : list event) : option (list csv_line) :=
  match sink0 with
  | Some old => Some (old ++ map Row (rows_of_log tr))
  | None =>
      if opened tr
      then Some (Header fields_order :: map Row (rows_of_log tr))
      else None
  end.

Definition header_count (tr : list event) : nat :=
  match sink0 with
  | Some _ => 0
  | None => if opened tr then 1 else 0
  end.

(** What holds of the state at every point of a run. *)
Record invariant (st : state) : Prop := mk_invariant {
  inv_collected : collected_links st = collected0 ++ ledger_links (log st);
  inv_ledger :
    ledger_file st = (ledger0 ++ ledger_text (ledger_links (log st)))%string;
  inv_order : ledger_after_sink (log st);
  inv_closed : sink_closed (log st) = true;
  inv_shape : forall k l, In (EvLedger k l) (log st) -> entry_shape k l;
  inv_sink : sink_file st = sink_view (log st);
  inv_headers : headers (log st) = header_count (log st);
  inv_rows : opened (log st) = false -> rows_of_log (log st) = []
}.

End Ordering.

(** ** The product record builder: [get_general_data] *)

(** [tag.contents], the direct children [for tag in ...] runs over. *)
Definition contents (n : node) : list node :=
  match n with
  | Text _ => []
  | Tag _ _ _ cs => cs
  end.

(** [tag.text]: the strings below the node, concatenated as they are. *)
Definition get_text (n : node) : string := join "" (strings n).

(** [tag.find(name, {key: value})] for a single-valued attribute. *)
Definition find_by_attr (nm key value : string) (n : node) : option node :=
  hd_error
    (filter (fun d => is_tag_named nm d
                      && opt_str_eqb (attr_get key d) (Some value))
            (descendants n)).

(** [s.split(sep)] for a separator of one character. *)
Fixpoint split_on (sep : ascii) (s : string) : list string :=
  match s with
  | EmptyString => [""]
  | String c s' =>
      if Ascii.eqb c sep then "" :: split_on sep s'
      else
        match split_on sep s' with
        | p :: ps => String c p :: ps
        | [] => [String c ""]
        end
  end.

(** [l.index(x)]; [None] stands for [ValueError]. *)
Fixpoint index_of (x : string) (l : list string) : option nat :=
  match l with
  | [] => None
  | y :: l' =>
      if String.eqb x y then Some 0
      else match index_of x l' with
           | Some i => Some (S i)
           | None => None
           end
  end.

(** The brand read from the address: the part after [other_brands].
    [ValueError] (no such part) is caught and gives [None]; the
    [IndexError] of [link_parts[... + 1]] is not caught. *)
Definition brand_from_url (current_url : string) : res (option string) :=
  let link_parts := split_on slash current_url in
  match index_of "other_brands" link_parts with
  | None => Ok None
  | Some i =>
      match nth_error link_parts (i + 1) with
      | Some brand => Ok (Some brand)
      | None => Raise IndexError
      end
  end.

Definition newline : string := String (ascii_of_nat 10) "".

Section GeneralData.

(** [pd.read_html(StringIO(str(tag)))[0].to_string(index=False)];
    [None] when the [ValueError] or [IndexError] of an unsupported table
    is caught. *)
Variable format_table : node -> option string.

(** The loop over the parts of the description. *)
Definition description_parts (main_description_tag : node) : list string :=
  flat_map (fun tag =>
              if is_tag_named "table" tag
              then match format_table tag with
                   | Some t => [t]
                   | None => []
                   end
              else [get_text tag])
           (contents main_description_tag).

Definition main_description_of (main_description_tag : node) : string :=
  join newline
       (filter (fun s => negb (String.eqb s "") && negb (String.eqb s newline))
               (description_parts main_description_tag)).

Definition brand_of (current_url : string) (top_info : node)
  : res (option string) :=
  match find_tag "img" top_info with
  | Some brand_img => Ok (attr_get "title" brand_img)
  | None => brand_from_url current_url
  end.

(** [get_general_data] on the current document and address.  Only the
    look-ups inside [item_main_info] stand in the [try] block. *)
Definition get_general_data (current_url : string) (soup : node) : res record :=
  match find "div" "item_main_info" soup with
  | None => Ok []
  | Some main_info =>
      let middle_info := find "div" "middle_info wrap_md" main_info in
      match find "div" "top_info" main_info with
      | None => Raise AttributeError
      | Some top_info =>
          match brand_of current_url top_info with
          | Raise e => Raise e
          | Ok brand =>
              let name :=
                match find_by_attr "h1" "id" "pagetitle" soup with
                | Some name_tag => Some (get_text_strip name_tag)
                | None => None
                end in
              match middle_info with
              | None => Raise AttributeError
              | Some middle_info =>
                  let preview_description :=
                    match find "div" "preview_text" middle_info with
                    | Some t => Some (get_text_strip t)
                    | None => None
                    end in
                  let main_description :=
                    match find "div" "detail_text" soup with
                    | Some t => Some (main_description_of t)
                    | None => None
                    end in
                  Ok [("brand", brand); ("name", name);
                      ("main_description", main_description);
                      ("preview_description", preview_description);
                      ("product_link", Some current_url)]
              end
          end
      end
  end.

End GeneralData.

(** A product page with a gallery of four thumbnails, two of them
    without a usable link. *)
Definition product_with_gallery : node :=
  Tag "html" None []
      [Shop.div "item_main_info"
         [Shop.div "top_info" [];
          Tag "div" (Some ["middle_info"; "wrap_md"]) [] [];
          Shop.div "img_wrapper"
            [Shop.div "slides"
               [Shop.a "/upload/1.jpg" "";
                Shop.a "" "";
                Tag "a" None [] [];
                Shop.a "upload/2.jpg" ""]]]].

(** A product page with a title, a brand image and a description that
    holds a table. *)
Definition product_with_description : node :=
  Tag "html" None []
      [Tag "h1" None [("id", "pagetitle")] [Text " Anchor "];
       Shop.div "item_main_info"
         [Shop.div "top_info" [Tag "img" None [("title", "Acme")] []];
          Tag "div" (Some ["middle_info"; "wrap_md"]) []
              [Shop.div "preview_text" [Text " short "]]];
       Shop.div "detail_text"
         [Text "first"; Text newline; Tag "table" None [] [Text "cells"];
          Tag "p" None [] [Text "last"]]].

(** A product page that has the main block but not its top block. *)
Definition product_without_top : node :=
  Tag "html" None []
      [Shop.div "item_main_info"
         [Tag "div" (Some ["middle_info"; "wrap_md"]) [] []]].

(** A product with one option group of two buttons. *)
Module OneGroup.

Definition page1 : RadioPage.page :=
  [[RadioPage.plain "Colour: red"; RadioPage.plain "Colour: green"]].

Definition product_page_data : res (list record) :=
  get_product_page_data
    RadioPage.page RadioPage.elem RadioPage.find_li RadioPage.get_attribute
    RadioPage.click
    (fun _ => Shop.priced "100 руб")
    (fun _ => Some [RadioPage.Group 0])
    (fun _ => OptionShop.general_data)
    page1.

End OneGroup.

(** A driver on which every click fails and leaves the page as it is. *)
Definition stuck_click (e : RadioPage.elem) (p : RadioPage.page)
  : click_outcome * RadioPage.page :=
  (ClickIntercepted, p).

(** Every key of the record is a field name. *)
Definition known_keys (fields_order : list string) (d : record) : bool :=
  forallb (fun k => str_in k fields_order) (dict_keys d).

(** ** Loads and entries against the set of handled links *)

(** What the event says about the set [seen] of handled links at the
    moment it happens: a listing page and a product are loaded, and a
    product is recorded, only when their link is not in the set. *)
Definition fresh_event (seen : list string) (ev : event) : Prop :=
  match ev with
  | EvLoadListing category_link page_num =>
      str_in (get_pagination_page_link category_link page_num) seen = false
  | EvLoadProduct rel_link product_link =>
      exists l,
        rel_link = Some l /\
        str_in l seen = false /\
        get_absolute_link (Some l) = Ok product_link
  | EvLedger UProduct l => str_in l seen = false
  | _ => True
  end.

(** The same for a sequence of events started with the set [seen]; a
    ledger entry adds its link to the set. *)
Fixpoint fresh_from (seen : list string) (tr : list event) : Prop :=
  match tr with
  | [] => True
  | ev :: tr' =>
      fresh_event seen ev /\
      fresh_from (seen ++ ledger_links [ev]) tr'
  end.

(** [st'] is reached from [st]: the log, the set and the ledger file
    have grown by the same entries, every load and product entry in
    between was allowed, and every event in between satisfies [P]. *)
Definition extends (P : event -> Prop) (st st' : state) : Prop :=
  exists d,
    log st' = log st ++ d /\
    collected_links st' = collected_links st ++ ledger_links d /\
    ledger_file st' = (ledger_file st ++ ledger_text (ledger_links d))%string /\
    fresh_from (collected_links st) d /\
    forall ev, In ev d -> P ev.

(** The events of the loop over the product links [links] of a page: a
    product is loaded for one of these links. *)
Definition product_event (links : list (option string)) (ev : event) : Prop :=
  product_level ev = true /\
  forall rel_link product_link,
    ev = EvLoadProduct rel_link product_link -> In rel_link links.

(** A product is loaded for a link that [get_product_links] returned
    for a listing page. *)
Definition from_listing (page_soup : string -> node) (ev : event) : Prop :=
  forall rel_link product_link,
    ev = EvLoadProduct rel_link product_link ->
    exists category_link page_num links is_last_page,
      listing_result page_soup category_link page_num
      = Ok (links, is_last_page) /\
      In rel_link links.

(** The events of the loop over the pages of the category [cl]. *)
Definition page_event (page_soup : string -> node) (cl : string) (ev : event)
  : Prop :=
  from_listing page_soup ev /\
  (product_level ev = true \/
   exists n, ev = EvLoadListing cl n
             \/ ev = EvLedger UPage (get_pagination_page_link cl n)).

(** A listing page is loaded only for a category that is not in the
    given set of handled links. *)
Definition new_category (seen : list string) (ev : event) : Prop :=
  forall category_link page_num,
    ev = EvLoadListing category_link page_num ->
    str_in category_link seen = false.

(** The events of a run started with the set [seen]. *)
Definition crawl_event (page_soup : string -> node) (seen : list string)
           (ev : event) : Prop :=
  new_category seen ev /\ from_listing page_soup ev.

(** *** The ledger file read back *)

(** The link holds no line break. *)
Definition no_line_break (link : string) : Prop :=
  forall c, In c (list_ascii_of_string link) -> c <> lf /\ c <> cr.

(** The text is empty or ends with a newline. *)
Definition terminated (content : string) : Prop :=
  content = ""%string \/
  exists t, content = (t ++ String lf "")%string.

(** A listing page whose second product title has a link without
    [href]. *)
Definition listing_without_href : node :=
  Tag "html" None []
      [Shop.div "display_list"
                [Shop.div "item-title" [Shop.a "/catalog/a/a1/p1/" "product"];
                 Shop.div "item-title" [Tag "a" None [] [Text "product"]]]].

(** A shop whose catalog has a category without sub-categories. *)
Definition catalog_without_subs (link : string) : node :=
  if String.eqb link "https://yacht-parts.ru/catalog/"
  then Shop.catalog
         [Shop.section_item "/catalog/a/" "A" [("/catalog/a/a1/", "a1")];
          Shop.section_item "/catalog/b/" "B" []]
  else Shop.listing ["/catalog/a/a1/p1/"] [].

(** The product of [product_with_description] with one option group. *)
Module Described.

Definition current_url : string := "https://yacht-parts.ru/catalog/a/a1/p1/".

Definition general_data : record :=
  match get_general_data (fun _ => None) current_url
                         product_with_description with
  | Ok data => data
  | Raise _ => []
  end.

Definition product_page_data : res (list record) :=
  get_product_page_data
    RadioPage.page RadioPage.elem RadioPage.find_li RadioPage.get_attribute
    RadioPage.click
    (fun _ => product_with_description)
    (fun _ => Some [RadioPage.Group 0])
    (fun _ => general_data)
    OneGroup.page1.

End Described.

(** * Properties *)

(** ** Price extraction *)

Lemma prefix_single (c a : ascii) (s : string) :
  prefix (String c "") (String a s) = Ascii.eqb c a.
Proof.
  simpl. destruct (ascii_dec c a) as [->|Hne].
  - rewrite Ascii.eqb_refl. now destruct s.
  - symmetry. now apply Ascii.eqb_neq.
Qed.

(** Replacing a one-character pattern by the empty string leaves no
    occurrence of the character. *)
Lemma replace_char_removes (c : ascii) (s : string) :
  ~ In c (list_ascii_of_string (replace (String c "") "" s)).
Proof.
  unfold replace. induction s as [|a s IH].
  - simpl. tauto.
  - cbn [replace_from]. rewrite prefix_single.
    destruct (Ascii.eqb c a) eqn:E.
    + simpl. exact IH.
    + simpl. intros [H|H]; [subst; now rewrite Ascii.eqb_refl in E | contradiction].
Qed.

Lemma normalise_price_example : normalise_price "1 234.56 руб" = "123456".
Proof. reflexivity. Qed.

(** C8. In [get_specific_data] the price is the stripped text of the price
    tag with every space removed, then every dot, then every ["руб"]; the
    text ["1 234.56 руб"] gives ["123456"]; without a price tag the price
    is [None]. *)
Theorem price_extraction (soup main_info top_info middle_info : node) :
  find "div" "item_main_info" soup = Some main_info ->
  find "div" "top_info" main_info = Some top_info ->
  find "div" "middle_info wrap_md" main_info = Some middle_info ->
  exists data,
    get_specific_data soup = Ok data /\
    (forall price_tag,
        find "div" "price" middle_info = Some price_tag ->
        dict_get "price" data =
          Some (Some (replace "руб" ""
                        (replace "." ""
                           (replace " " "" (get_text_strip price_tag)))))
        /\ (get_text_strip price_tag = "1 234.56 руб" ->
            dict_get "price" data = Some (Some "123456"))) /\
    (find "div" "price" middle_info = None ->
     dict_get "price" data = Some None).
Proof.
  intros Hmain Htop Hmid.
  unfold get_specific_data. rewrite Hmain, Htop, Hmid.
  eexists. split; [reflexivity|].
  unfold price_of. split.
  - intros price_tag Hp. rewrite Hp.
    split; [reflexivity|].
    intros Ht. unfold normalise_price. rewrite Ht. reflexivity.
  - intros Hp. rewrite Hp. reflexivity.
Qed.

Lemma price_extraction_witness :
  find "div" "item_main_info" (Shop.priced " 1 234.56 руб ")
  = Some (Tag "div" (Some ["item_main_info"]) []
              [Shop.div "top_info"
                 [Tag "div" (Some ["article"; "iblock"]) []
                      [Tag "span" (Some ["value"]) [] [Text " A-1 "]]];
               Tag "div" (Some ["middle_info"; "wrap_md"]) []
                   [Shop.div "price" [Text " 1 234.56 руб "]]])
  /\ exists data,
      get_specific_data (Shop.priced " 1 234.56 руб ") = Ok data /\
      dict_get "price" data = Some (Some "123456").
Proof.
  split; [reflexivity|].
  destruct (price_extraction (Shop.priced " 1 234.56 руб ") _ _ _
              eq_refl eq_refl eq_refl) as [data [Hd [Hp _]]].
  exists data. split; [exact Hd|].
  exact (proj2 (Hp _ eq_refl) eq_refl).
Defined.

(** ** Last-page detection *)

(** An element found by its class has a [class] attribute. *)
Lemma find_has_classes (nm c : string) (n t : node) :
  find nm c n = Some t -> exists cl, classes t = Some cl.
Proof.
  unfold find, find_all. intros H.
  assert (Hin : In t (filter (fun d => is_tag_named nm d && has_class c d)
                             (descendants n))).
  { destruct (filter _ _); [discriminate|]. inversion H; subst. now left. }
  apply filter_In in Hin. destruct Hin as [_ Hb].
  apply andb_true_iff in Hb. destruct Hb as [_ Hc].
  unfold has_class in Hc. destruct (classes t); [eauto|discriminate].
Qed.

(** When the product list and its titles are found, the call returns
    unless the pagination control lacks its "next" element. *)
Lemma get_product_links_returns (link : string) (soup product_list : node) :
  first_found (find "div" "display_list" soup)
              (find "table" "module_products_list" soup) = Some product_list ->
  first_nonempty (find_all "div" "item-title" product_list)
                 (find_all "td" "item-name-cell" product_list) <> [] ->
  (no_pagination soup \/ has_next soup) ->
  exists links b, get_product_links link soup = Ok (links, b).
Proof.
  intros Hl Ht Hp. unfold get_product_links. rewrite Hl.
  destruct (first_nonempty _ _) as [|t ts]; [contradiction|].
  destruct Hp as [Hp | (pg & nb & Hpg & Hnb)].
  - unfold no_pagination in Hp. rewrite Hp. eauto.
  - rewrite Hpg, Hnb.
    destruct (find_has_classes _ _ _ _ Hnb) as [cl Hcl].
    rewrite Hcl. eauto.
Qed.

(** With a pagination control that has no "next" element the look-up
    of its attributes fails. *)
Lemma get_product_links_no_next (link : string) (soup paginator : node)
      (links : list (option string)) (b : bool) :
  find "div" "module-pagination" soup = Some paginator ->
  find "li" "flex-nav-next" paginator = None ->
  get_product_links link soup <> Ok (links, b).
Proof.
  intros Hpg Hnb. unfold get_product_links.
  destruct (first_found _ _); [|discriminate].
  destruct (first_nonempty _ _); [discriminate|].
  rewrite Hpg, Hnb. discriminate.
Qed.




(** The three kinds of page, run. *)
Example last_page_without_pagination :
  get_product_links "l" (Shop.listing ["/p1"] []) = Ok ([Some "/p1"], true).
Proof. reflexivity. Qed.

Example last_page_next_disabled :
  get_product_links "l" (Shop.listing ["/p1"]
                           [Shop.pagination ["flex-nav-next"; "disabled"]])
  = Ok ([Some "/p1"], true).
Proof. reflexivity. Qed.

Example not_last_page_next_enabled :
  get_product_links "l" (Shop.listing ["/p1"]
                           [Shop.pagination ["flex-nav-next"]])
  = Ok ([Some "/p1"], false).
Proof. reflexivity. Qed.

(** ** Category ordering *)

Lemma sort_main_categories_filter (mains ordered extracted : list node) :
  sort_main_categories mains ordered extracted
  = (ordered ++ filter is_normal mains, extracted ++ filter is_deferred mains).
Proof.
  revert ordered extracted.
  induction mains as [|c mains IH]; intros ordered extracted; simpl.
  - now rewrite !app_nil_r.
  - unfold is_normal, is_deferred.
    destruct (main_category_link c) as [link|e].
    + destruct (opt_in link categories_to_extract); simpl; rewrite IH.
      * now rewrite <- app_assoc.
      * now rewrite <- app_assoc.
    + apply IH.
Qed.

Lemma dict_set_fresh {V} (k : string) (v : V) (d : dict V) :
  ~ In k (map fst d) -> dict_set k v d = d ++ [(k, v)].
Proof.
  induction d as [|[k' v'] d IH]; simpl; intros Hn; [reflexivity|].
  destruct (String.eqb_spec k k') as [->|Hne].
  - exfalso. apply Hn. now left.
  - f_equal. apply IH. tauto.
Qed.

Lemma NoDup_app_fresh (ks : list string) (k : string) (rest : list string) :
  NoDup (ks ++ k :: rest) -> ~ In k ks /\ NoDup ((ks ++ [k]) ++ rest).
Proof.
  intros H. split.
  - apply NoDup_remove_2 in H. intros Hin. apply H. apply in_or_app. now left.
  - now rewrite <- app_assoc.
Qed.

Section CategoryWrites.

Variable main_name : string.

Let writes_of (subs : list node) : list (string * option string) :=
  flat_map (fun sub_category =>
              match find_tag "a" sub_category with
              | None => []
              | Some category_data =>
                  [(join "; " [main_name; get_text_strip category_data],
                    attr_get "href" category_data)]
              end) subs.

Lemma fold_add_sub_category (subs : list node) (d : dict (option string)) :
  NoDup (map fst (d ++ writes_of subs)) ->
  fold_left (add_sub_category main_name) subs d = d ++ writes_of subs.
Proof.
  revert d. induction subs as [|s subs IH]; intros d Hnd; simpl.
  - now rewrite app_nil_r.
  - unfold add_sub_category at 2. simpl in Hnd.
    destruct (find_tag "a" s) as [a|].
    + simpl in Hnd. rewrite map_app in Hnd. simpl in Hnd.
      apply NoDup_app_fresh in Hnd. destruct Hnd as [Hfresh Hnd].
      rewrite dict_set_fresh by exact Hfresh.
      rewrite IH.
      * now rewrite <- app_assoc.
      * rewrite !map_app. simpl. exact Hnd.
    + simpl in Hnd. apply IH. exact Hnd.
Qed.

End CategoryWrites.

Lemma collect_categories_distinct (cats : list node) (d : dict (option string)) :
  NoDup (map fst (d ++ flat_map category_writes cats)) ->
  collect_categories cats d
  = if forallb has_sub_categories cats
    then d ++ flat_map category_writes cats else [].
Proof.
  revert d. induction cats as [|c cats IH]; intros d Hnd;
    cbn [collect_categories forallb flat_map].
  - now rewrite app_nil_r.
  - unfold has_sub_categories at 1.
    destruct (find_all "li" "sect" c) as [|s subs] eqn:Hsubs; [reflexivity|].
    cbn [andb]. cbn [flat_map] in Hnd. rewrite app_assoc in Hnd.
    assert (Hc : fold_left (add_sub_category (main_name_of c)) (s :: subs) d
                 = d ++ category_writes c).
    { unfold category_writes. rewrite Hsubs.
      apply fold_add_sub_category.
      rewrite map_app in Hnd. apply NoDup_app_remove_r in Hnd.
      unfold category_writes in Hnd. rewrite Hsubs in Hnd. exact Hnd. }
    rewrite Hc, IH by exact Hnd.
    now rewrite <- app_assoc.
Qed.

(** The mapping when all keys are distinct: the entries of the normal
    categories in source order, then those of the deferred ones; empty
    when some category has no sub-category. *)
Lemma get_categories_distinct (soup : node) :
  NoDup (map fst (flat_map category_writes
                    (filter is_normal (main_categories_of soup)
                     ++ filter is_deferred (main_categories_of soup)))) ->
  get_categories soup
  = if forallb has_sub_categories
         (filter is_normal (main_categories_of soup)
          ++ filter is_deferred (main_categories_of soup))
    then flat_map category_writes (filter is_normal (main_categories_of soup))
         ++ flat_map category_writes
              (filter is_deferred (main_categories_of soup))
    else [].
Proof.
  unfold get_categories, main_categories_of.
  destruct (find "div" "catalog_section_list" soup) as [section|];
    [|reflexivity].
  destruct (find_all "div" "section_item" section) as [|m ms] eqn:Hm;
    [reflexivity|].
  intros Hnd. rewrite sort_main_categories_filter. cbn [app].
  rewrite collect_categories_distinct by exact Hnd.
  cbn [app]. now rewrite flat_map_app.
Qed.

Lemma in_flat_map_writes (cats : list node) (c : node)
      (e : string * option string) :
  In c cats -> In e (category_writes c) -> In e (flat_map category_writes cats).
Proof. intros Hc He. apply in_flat_map. eauto. Qed.

Lemma NoDup_keys_disjoint (l1 l2 : list (string * option string))
      (e : string * option string) :
  NoDup (map fst (l1 ++ l2)) -> In e l1 -> In e l2 -> False.
Proof.
  rewrite map_app. revert l2. induction l1 as [|x l1 IH]; intros l2 Hnd H1 H2.
  - contradiction.
  - simpl in Hnd. inversion Hnd as [|? ? Hx Hnd']; subst.
    destruct H1 as [->|H1].
    + apply Hx. apply in_or_app. right. now apply in_map.
    + eapply IH; eauto.
Qed.

(** C6, amended. When the composite keys written for the categories are
    pairwise distinct, the mapping lists the entries of the normal
    categories in source order and then those of the two deferred
    categories in source order, so every deferred entry comes after every
    normal one. *)
Theorem get_categories_order (soup : node) :
  NoDup (map fst (flat_map category_writes
                    (filter is_normal (main_categories_of soup)
                     ++ filter is_deferred (main_categories_of soup)))) ->
  get_categories soup
  = (if forallb has_sub_categories
         (filter is_normal (main_categories_of soup)
          ++ filter is_deferred (main_categories_of soup))
     then flat_map category_writes (filter is_normal (main_categories_of soup))
          ++ flat_map category_writes
               (filter is_deferred (main_categories_of soup))
     else [])
  /\ deferred_entries_last soup.
Proof.
  intros Hnd. pose proof (get_categories_distinct soup Hnd) as Heq.
  split; [exact Heq|].
  intros cd cn ed en i j Hcd Hd Hcn Hn Hed Hen Hi Hj.
  rewrite Heq in Hi, Hj.
  destruct (forallb has_sub_categories _);
    [|destruct i; discriminate].
  rewrite flat_map_app in Hnd.
  set (WN := flat_map category_writes
               (filter is_normal (main_categories_of soup))) in *.
  set (WD := flat_map category_writes
               (filter is_deferred (main_categories_of soup))) in *.
  assert (HedD : In ed WD).
  { apply in_flat_map_writes with cd; [|exact Hed]. apply filter_In. split; assumption. }
  assert (HenN : In en WN).
  { apply in_flat_map_writes with cn; [|exact Hen]. apply filter_In. split; assumption. }
  assert (Hi' : List.length WN <= i).
  { destruct (le_lt_dec (List.length WN) i) as [H|H]; [exact H|].
    rewrite nth_error_app1 in Hi by exact H.
    apply nth_error_In in Hi. exfalso.
    exact (NoDup_keys_disjoint WN WD ed Hnd Hi HedD). }
  assert (Hj' : j < List.length WN).
  { destruct (le_lt_dec (List.length WN) j) as [H|H]; [|exact H].
    rewrite nth_error_app2 in Hj by exact H.
    apply nth_error_In in Hj. exfalso.
    exact (NoDup_keys_disjoint WN WD en Hnd HenN Hj). }
  lia.
Qed.

Ltac distinct_strings :=
  repeat (constructor; [simpl; intuition discriminate|]); constructor.

Lemma get_categories_order_witness :
  NoDup (map fst (flat_map category_writes
                    (filter is_normal (main_categories_of Shop.distinct_names)
                     ++ filter is_deferred
                          (main_categories_of Shop.distinct_names))))
  /\ get_categories Shop.distinct_names
     = [("A; x", Some "/catalog/a/x/"); ("A; y", Some "/catalog/a/y/");
        ("B; w", Some "/catalog/b/w/");
        ("Brands; x", Some "/catalog/other_brands/x/");
        ("O; z", Some "/catalog/osculati_catalogue/z/")]
  /\ deferred_entries_last Shop.distinct_names.
Proof.
  assert (H : NoDup (map fst (flat_map category_writes
                    (filter is_normal (main_categories_of Shop.distinct_names)
                     ++ filter is_deferred
                          (main_categories_of Shop.distinct_names))))).
  { vm_compute. distinct_strings. }
  split; [exact H|].
  split; [reflexivity|].
  exact (proj2 (get_categories_order Shop.distinct_names H)).
Defined.

(** C6 as stated fails: a normal category and the deferred
    [/catalog/other_brands/] share the key ["A; x"]; the entry keeps the
    place of its first assignment and takes the deferred category's link,
    so an entry of a deferred category precedes the entry ["A; y"] of a
    normal one. *)
Lemma deferred_entries_last_counterexample :
  (exists c1 c2,
      In c1 (main_categories_of Shop.same_names) /\
      In c2 (main_categories_of Shop.same_names) /\
      main_category_link c1 = Ok (Some "/catalog/other_brands/") /\
      main_category_link c2 = Ok (Some "/catalog/osculati_catalogue/")) /\
  get_categories Shop.same_names
  = [("A; x", Some "/catalog/other_brands/x/");
     ("A; y", Some "/catalog/a/y/");
     ("O; z", Some "/catalog/osculati_catalogue/z/")] /\
  ~ deferred_entries_last Shop.same_names.
Proof.
  split; [|split].
  - exists (Shop.section_item "/catalog/other_brands/" "A"
                              [("/catalog/other_brands/x/", "x")]),
           (Shop.section_item "/catalog/osculati_catalogue/" "O"
                              [("/catalog/osculati_catalogue/z/", "z")]).
    repeat split; vm_compute; auto.
  - reflexivity.
  - intros H.
    specialize (H (Shop.section_item "/catalog/other_brands/" "A"
                                     [("/catalog/other_brands/x/", "x")])
                  (Shop.section_item "/catalog/a/" "A"
                                     [("/catalog/a/x/", "x");
                                      ("/catalog/a/y/", "y")])
                  ("A; x", Some "/catalog/other_brands/x/")
                  ("A; y", Some "/catalog/a/y/") 0 1).
    assert (Hlt : 1 < 0); [|lia].
    apply H; vm_compute; auto.
Qed.

(** ** The option enumerator *)

Section EnumeratorFacts.

Variable page : Type.
Variable elem : Type.
Variable find_li : elem -> page -> list elem.
Variable get_attribute : string -> elem -> page -> option string.
Variable click : elem -> page -> click_outcome * page.

Local Abbreviation iterate_rec :=
  (iterate_options_rec page elem find_li get_attribute click).
Local Abbreviation iterate :=
  (iterate_options page elem find_li get_attribute click).
Local Abbreviation btns_of := (options_btns page elem find_li get_attribute).
Local Abbreviation gstate := (gen_state page elem).

Lemma opt_str_eqb_some (a : option string) (x : string) :
  opt_str_eqb a (Some x) = true <-> a = Some x.
Proof.
  destruct a as [y|]; simpl.
  - rewrite String.eqb_eq. split; [now intros ->|now inversion 1].
  - split; discriminate.
Qed.

(** The buttons the loop visits are those of the group whose [style] is
    not exactly ["display: none;"]. *)
Lemma options_btns_spec (group btn : elem) (p : page) :
  In btn (btns_of group p) <->
  In btn (find_li group p) /\
  get_attribute "style" btn p <> Some "display: none;".
Proof.
  unfold options_btns. rewrite filter_In, negb_true_iff.
  split; intros [Hin Hs]; split; try exact Hin.
  - intros Heq. apply opt_str_eqb_some in Heq. congruence.
  - destruct (opt_str_eqb _ _) eqn:E; [|reflexivity].
    apply opt_str_eqb_some in E. contradiction.
Qed.

Lemma filter_deeper (level : nat) (delta : list (nat * elem)) :
  Forall (fun c => level + 1 <= fst c) delta ->
  filter (at_level elem level) delta = [].
Proof.
  induction 1 as [|c delta Hc _ IH]; simpl; [reflexivity|].
  unfold at_level at 1.
  destruct (Nat.eqb_spec (fst c) level); [lia|exact IH].
Qed.

(** What a call at [level] does when [remaining] is the number of groups
    from [level] on: it returns; its clicks are at [level] or deeper; the
    clicks at [level] itself are the visited buttons, in order; at the
    last level it yields once per visited button, above it yields
    nothing. *)
Lemma iterate_options_rec_spec (remaining : nat) :
  forall (groups : list elem) (level : nat) (s : gstate),
    level + remaining = List.length groups -> 0 < remaining ->
    exists s' group delta,
      nth_error groups level = Some group /\
      iterate_rec remaining groups level s = Ok s' /\
      clicks s' = clicks s ++ delta /\
      Forall (fun c => level <= fst c) delta /\
      filter (at_level elem level) delta
      = map (pair level) (btns_of group (cur s)) /\
      (level <> List.length groups - 1 -> yielded s' = yielded s) /\
      (level = List.length groups - 1 ->
       List.length (yielded s')
       = List.length (yielded s) + List.length (btns_of group (cur s))).
Proof.
  induction remaining as [|r IH]; intros groups level s Hlen Hpos; [lia|].
  destruct (nth_error groups level) as [group|] eqn:Hg.
  2:{ apply nth_error_None in Hg. lia. }
  cbn [iterate_options_rec]. rewrite Hg.
  match goal with |- context [for_each ?f _ _] => set (body := f) end.
  assert (Hloop : forall btns s0, exists s' delta,
          for_each body btns s0 = Ok s' /\
          clicks s' = clicks s0 ++ delta /\
          Forall (fun c => level <= fst c) delta /\
          filter (at_level elem level) delta = map (pair level) btns /\
          (level <> List.length groups - 1 -> yielded s' = yielded s0) /\
          (level = List.length groups - 1 ->
           List.length (yielded s')
           = List.length (yielded s0) + List.length btns)).
  2:{ destruct (Hloop (btns_of group (cur s)) s) as (s' & delta & H).
      exists s', group, delta. tauto. }
  clear s. intros btns.
  induction btns as [|btn btns IHb]; intros s; subst body.
  - exists s, []. cbn [for_each]. rewrite app_nil_r.
    repeat split; auto; simpl; lia.
  - cbn [for_each]. cbv zeta.
    destruct (Nat.eqb_spec level (List.length groups - 1)) as [Hleaf|Hinner].
    + match goal with
      | |- context [for_each ?f btns ?s1] =>
          destruct (IHb s1) as (s' & delta & Hrun & Hc & Hall & Hf & Hy1 & Hy2)
      end.
      exists s', ((level, btn) :: delta). rewrite Hrun.
      split; [reflexivity|]. cbn [clicks do_click] in Hc.
      split; [rewrite Hc, <- app_assoc; reflexivity|].
      split; [constructor; [simpl; lia|exact Hall]|].
      split.
      { cbn [filter]. unfold at_level at 1. cbn [fst].
        rewrite Nat.eqb_refl, Hf. reflexivity. }
      split; [intros Hn; contradiction|].
      intros _. rewrite (Hy2 Hleaf). cbn [yielded do_click].
      rewrite length_app. simpl. lia.
    + destruct (IH groups (level + 1)
                   (do_click page elem click level btn s))
        as (s2 & g2 & d2 & _ & Hrun2 & Hc2 & Hall2 & _); [lia|lia|].
      rewrite Hrun2.
      match goal with
      | |- context [for_each ?f btns ?s1] =>
          destruct (IHb s1) as (s' & delta & Hrun & Hc & Hall & Hf & Hy1 & Hy2)
      end.
      exists s', ((level, btn) :: d2 ++ delta). rewrite Hrun.
      split; [reflexivity|]. cbn [clicks] in Hc. cbn [clicks do_click] in Hc2.
      split.
      { rewrite Hc, Hc2, <- !app_assoc. reflexivity. }
      split.
      { constructor; [simpl; lia|]. apply Forall_app. split; [|exact Hall].
        eapply Forall_impl; [|exact Hall2]. simpl. intros; lia. }
      split.
      { cbn [filter]. unfold at_level at 1. cbn [fst].
        rewrite Nat.eqb_refl, filter_app, (filter_deeper level d2 Hall2), Hf.
        reflexivity. }
      split; [|intros Hl; contradiction].
      intros _. rewrite (Hy1 Hinner). reflexivity.
Qed.

(** A call above the last level returns and yields nothing. *)
Lemma iterate_options_above_leaf
      (groups : list elem) (level : nat) (s : gstate) :
  level + 1 < List.length groups ->
  exists s', iterate groups level s = Ok s' /\ yielded s' = yielded s.
Proof.
  intros Hlen. unfold iterate_options.
  destruct (iterate_options_rec_spec (List.length groups - level) groups level s)
    as (s' & group & delta & _ & Hrun & _ & _ & _ & Hy & _); [lia|lia|].
  exists s'. split; [exact Hrun|]. apply Hy. lia.
Qed.

(** C1 on the code. Started at level 0 on two or more option groups the
    generator returns and yields nothing: the combinations found by the
    inner generators are consumed by a loop whose body is [pass]. *)
Theorem iterate_options_level0_yields_nothing
        (groups : list elem) (s : gstate) :
  2 <= List.length groups ->
  exists s', iterate groups 0 s = Ok s' /\ yielded s' = yielded s.
Proof.
  intros Hlen. unfold iterate_options.
  destruct (iterate_options_rec_spec (List.length groups - 0) groups 0 s)
    as (s' & group & delta & _ & Hrun & _ & _ & _ & Hinner & _); [lia|lia|].
  exists s'. split; [exact Hrun|].
  apply Hinner. lia.
Qed.

(** C10. A call at [level] returns, and the buttons it clicks at that
    level are, in order, the [li] elements of the group whose [style]
    attribute is not exactly ["display: none;"]; at the last level one
    combination is yielded for each of them. *)
Theorem hidden_buttons_excluded
        (groups : list elem) (level : nat) (group : elem) (s : gstate) :
  nth_error groups level = Some group ->
  exists s' delta,
    iterate groups level s = Ok s' /\
    clicks s' = clicks s ++ delta /\
    filter (at_level elem level) delta
    = map (pair level)
          (filter (fun btn =>
                     negb (opt_str_eqb (get_attribute "style" btn (cur s))
                                       (Some "display: none;")))
                  (find_li group (cur s))) /\
    (forall btn,
        In (level, btn) delta <->
        In btn (find_li group (cur s)) /\
        get_attribute "style" btn (cur s) <> Some "display: none;") /\
    (level = List.length groups - 1 ->
     List.length (yielded s')
     = List.length (yielded s)
       + List.length
           (filter (fun btn =>
                      negb (opt_str_eqb (get_attribute "style" btn (cur s))
                                        (Some "display: none;")))
                   (find_li group (cur s)))).
Proof.
  intros Hg. unfold iterate_options.
  assert (Hlt : level < List.length groups).
  { apply nth_error_Some. congruence. }
  destruct (iterate_options_rec_spec (List.length groups - level) groups level s)
    as (s' & group' & delta & Hg' & Hrun & Hc & _ & Hf & _ & Hy); [lia|lia|].
  rewrite Hg in Hg'. inversion Hg'; subst group'.
  exists s', delta. split; [exact Hrun|]. split; [exact Hc|].
  split; [exact Hf|]. split; [|exact Hy].
  intros btn. rewrite <- options_btns_spec.
  split.
  - intros Hin.
    assert (Hin' : In (level, btn) (filter (at_level elem level) delta)).
    { apply filter_In. split; [exact Hin|]. unfold at_level. simpl.
      apply Nat.eqb_refl. }
    rewrite Hf in Hin'. apply in_map_iff in Hin'.
    destruct Hin' as (b & Heq & Hb). inversion Heq; subst. exact Hb.
  - intros Hb.
    assert (Hin' : In (level, btn) (filter (at_level elem level) delta)).
    { rewrite Hf. apply in_map. exact Hb. }
    apply filter_In in Hin'. tauto.
Qed.

End EnumeratorFacts.

Lemma iterate_options_level0_yields_nothing_witness :
  2 <= List.length RadioPage.groups23 /\
  exists s',
    iterate_options RadioPage.page RadioPage.elem RadioPage.find_li
                    RadioPage.get_attribute RadioPage.click
                    RadioPage.groups23 0
                    (gen_start _ _ RadioPage.page23) = Ok s' /\
    yielded s' = [].
Proof.
  split; [simpl; lia|].
  apply (iterate_options_level0_yields_nothing
           RadioPage.page RadioPage.elem RadioPage.find_li
           RadioPage.get_attribute RadioPage.click
           RadioPage.groups23 (gen_start _ _ RadioPage.page23)).
  simpl; lia.
Defined.

(** On the page with groups of sizes 2 and 3 the six leaves are visited
    (six clicks at level 1) and none of them reaches the caller. *)
Example page23_run :
  exists s',
    iterate_options RadioPage.page RadioPage.elem RadioPage.find_li
                    RadioPage.get_attribute RadioPage.click
                    RadioPage.groups23 0
                    (gen_start _ _ RadioPage.page23) = Ok s' /\
    List.length (filter (at_level RadioPage.elem 1) (clicks s')) = 6 /\
    List.length (yielded s') = 0.
Proof. eexists. split; [vm_compute; reflexivity|]. split; reflexivity. Qed.

(** With a single group every visible button yields one combination of
    one label. *)
Example single_group_run :
  exists s',
    iterate_options RadioPage.page RadioPage.elem RadioPage.find_li
                    RadioPage.get_attribute RadioPage.click
                    [RadioPage.Group 1] 0
                    (gen_start _ _ [[]; [RadioPage.plain "red";
                                         RadioPage.plain "green";
                                         RadioPage.plain "blue"]]) = Ok s' /\
    map fst (yielded s') = [[Some "red"]; [Some "green"]; [Some "blue"]].
Proof. eexists. split; [vm_compute; reflexivity|]. reflexivity. Qed.

Lemma hidden_buttons_excluded_witness :
  nth_error [RadioPage.Group 0] 0 = Some (RadioPage.Group 0) /\
  exists s' delta,
    iterate_options RadioPage.page RadioPage.elem RadioPage.find_li
                    RadioPage.get_attribute RadioPage.click
                    [RadioPage.Group 0] 0
                    (gen_start _ _ RadioPage.page_hidden) = Ok s' /\
    clicks s' = delta /\
    filter (at_level RadioPage.elem 0) delta
    = [(0, RadioPage.Button 0 0); (0, RadioPage.Button 0 2);
       (0, RadioPage.Button 0 3)] /\
    List.length (yielded s') = 3.
Proof.
  split; [reflexivity|].
  destruct (hidden_buttons_excluded
              RadioPage.page RadioPage.elem RadioPage.find_li
              RadioPage.get_attribute RadioPage.click
              [RadioPage.Group 0] 0 (RadioPage.Group 0)
              (gen_start _ _ RadioPage.page_hidden) eq_refl)
    as (s' & delta & Hrun & Hc & Hf & _ & Hy).
  exists s', delta. split; [exact Hrun|]. split; [exact Hc|].
  split; [exact Hf|]. exact (Hy eq_refl).
Defined.

(** The consequence for [get_product_page_data]: a product with two or
    more option groups gives an empty list of records. *)
Lemma get_product_page_data_two_groups
      (page elem : Type) (find_li : elem -> page -> list elem)
      (get_attribute : string -> elem -> page -> option string)
      (click : elem -> page -> click_outcome * page)
      (page_source : page -> node)
      (find_options_groups : page -> option (list elem))
      (get_general_data : page -> record)
      (p : page) (groups : list elem) :
  get_general_data p <> [] ->
  find_options_groups p = Some groups ->
  2 <= List.length groups ->
  get_product_page_data page elem find_li get_attribute click page_source
                        find_options_groups get_general_data p = Ok [].
Proof.
  intros Hgen Hgroups Hlen. unfold get_product_page_data.
  destruct (get_general_data p) as [|kv general]; [contradiction|].
  rewrite Hgroups. destruct groups as [|g gs]; [simpl in Hlen; lia|].
  destruct (iterate_options_above_leaf
              page elem find_li get_attribute click (g :: gs) 0
              (gen_start _ _ p)) as (s' & Hrun & Hy); [simpl in *; lia|].
  rewrite Hrun, Hy. reflexivity.
Qed.

(** ** The orchestrator *)

(** *** Lists and logs *)

Lemma snoc_split {A} (tr : list A) (x : A) (pre : list A) (y : A)
      (post : list A) :
  tr ++ [x] = pre ++ y :: post ->
  (post = [] /\ tr = pre /\ x = y) \/
  (exists post', post = post' ++ [x] /\ tr = pre ++ y :: post').
Proof.
  intros H. induction post as [|z post' _] using rev_ind.
  - left. apply app_inj_tail in H. tauto.
  - right. exists post'.
    change (pre ++ y :: post' ++ [z]) with (pre ++ (y :: post') ++ [z]) in H.
    rewrite app_assoc in H. apply app_inj_tail in H.
    destruct H as [H1 H2]. subst z. split; [reflexivity|exact H1].
Qed.

Lemma str_in_app (x : string) (a b : list string) :
  str_in x (a ++ b) = str_in x a || str_in x b.
Proof. unfold str_in. apply existsb_app. Qed.

Lemma str_in_In (x : string) (a : list string) :
  str_in x a = true <-> In x a.
Proof.
  unfold str_in. rewrite existsb_exists. split.
  - intros (y & Hy & He). apply String.eqb_eq in He. now subst.
  - intros H. exists x. split; [exact H|apply String.eqb_refl].
Qed.

Lemma string_app_assoc (a b c : string) :
  ((a ++ b) ++ c)%string = (a ++ b ++ c)%string.
Proof. induction a as [|x a IH]; simpl; [reflexivity|now rewrite IH]. Qed.

Lemma string_app_nil_r (a : string) : (a ++ "")%string = a.
Proof. induction a as [|x a IH]; simpl; [reflexivity|now rewrite IH]. Qed.

Lemma ledger_text_app (a b : list string) :
  ledger_text (a ++ b) = (ledger_text a ++ ledger_text b)%string.
Proof.
  induction a as [|l a IH]; simpl; [reflexivity|].
  now rewrite IH, !string_app_assoc.
Qed.

(** *** The ledger file read back *)

Lemma is_space2_lf (c : ascii) : is_space2 c lf = false.
Proof. unfold is_space2. apply andb_false_r. Qed.

Lemma is_space3_lf (c1 c2 : ascii) : is_space3 c1 c2 lf = false.
Proof.
  unfold is_space3. change (nat_of_ascii lf) with 10.
  cbn [Nat.eqb Nat.leb]. now rewrite !andb_false_r.
Qed.

Lemma all_space_newline_bounded (n : nat) :
  forall s, String.length s <= n ->
            all_space (s ++ String lf "") = all_space s.
Proof.
  induction n as [|n IH]; intros s Hlen.
  - destruct s; [reflexivity|simpl in Hlen; lia].
  - destruct s as [|c1 s1]; [reflexivity|]. simpl in Hlen.
    cbn [append all_space].
    destruct (is_space c1); [apply IH; lia|].
    destruct s1 as [|c2 s2]; cbn [append].
    { now rewrite is_space2_lf. }
    simpl in Hlen.
    destruct (is_space2 c1 c2); [apply IH; lia|].
    destruct s2 as [|c3 s3]; cbn [append].
    { now rewrite is_space3_lf. }
    simpl in Hlen.
    destruct (is_space3 c1 c2 c3); [apply IH; lia|reflexivity].
Qed.

Lemma all_space_newline (s : string) :
  all_space (s ++ String lf "") = all_space s.
Proof. now apply (all_space_newline_bounded (String.length s)). Qed.

Lemma rstrip_unfold (c : ascii) (s : string) :
  rstrip (String c s)
  = if all_space (String c s) then ""%string else String c (rstrip s).
Proof. reflexivity. Qed.

(** The newline that ends a line of the file is removed by [rstrip]. *)
Lemma rstrip_newline (s : string) :
  rstrip s = s -> rstrip (s ++ String lf "") = s.
Proof.
  induction s as [|c s IH]; intros H; [reflexivity|].
  rewrite rstrip_unfold in H.
  change (String c s ++ String lf "")%string
    with (String c (s ++ String lf "")).
  rewrite rstrip_unfold.
  change (String c (s ++ String lf ""))
    with (String c s ++ String lf "")%string at 1.
  rewrite all_space_newline.
  destruct (all_space (String c s)); [discriminate|].
  inversion H as [Hs]. rewrite Hs. now rewrite (IH Hs).
Qed.

Lemma read_lines_nil (s : string) : read_lines s = [] -> s = ""%string.
Proof.
  destruct s as [|c s]; [reflexivity|]. cbn [read_lines].
  destruct (Ascii.eqb c lf); [discriminate|].
  destruct (Ascii.eqb c cr).
  - destruct s as [|c' s']; [discriminate|].
    destruct (Ascii.eqb c' lf); discriminate.
  - destruct (read_lines s); discriminate.
Qed.

Lemma read_lines_app_bounded (b : string) (n : nat) :
  forall t, String.length t <= n ->
    read_lines ((t ++ String lf "") ++ b)
    = read_lines (t ++ String lf "") ++ read_lines b.
Proof.
  induction n as [|n IH]; intros t Hlen.
  - destruct t; [reflexivity|simpl in Hlen; lia].
  - destruct t as [|c t]; [reflexivity|]. simpl in Hlen.
    cbn [append read_lines].
    destruct (Ascii.eqb c lf).
    { rewrite IH by lia. reflexivity. }
    destruct (Ascii.eqb c cr).
    + destruct t as [|c' t'].
      * reflexivity.
      * simpl in Hlen. cbn [append].
        destruct (Ascii.eqb c' lf).
        -- rewrite IH by lia. reflexivity.
        -- change (String c' ((t' ++ String lf "") ++ b))
             with ((String c' t' ++ String lf "") ++ b)%string.
           rewrite IH by (simpl; lia). reflexivity.
    + rewrite IH by lia.
      destruct (read_lines (t ++ String lf "")) as [|line lines] eqn:E.
      * apply read_lines_nil in E. destruct t; discriminate.
      * reflexivity.
Qed.

(** After a text that is empty or ends with a newline, the lines of
    what follows are read on their own. *)
Lemma read_lines_app (a b : string) :
  terminated a -> read_lines (a ++ b) = read_lines a ++ read_lines b.
Proof.
  intros [->|(t & ->)]; [reflexivity|].
  now apply (read_lines_app_bounded b (String.length t)).
Qed.

(** A link without a line break, written with its newline, is read back
    as one line. *)
Lemma read_lines_line (l : string) :
  no_line_break l -> read_lines (l ++ String lf "") = [(l ++ String lf "")%string].
Proof.
  induction l as [|c l IH]; intros Hl; [reflexivity|].
  cbn [append read_lines].
  destruct (Hl c (or_introl eq_refl)) as [Hlf Hcr].
  destruct (Ascii.eqb_spec c lf) as [->|_]; [contradiction|].
  destruct (Ascii.eqb_spec c cr) as [->|_]; [contradiction|].
  rewrite IH; [reflexivity|].
  intros c' Hc'. apply Hl. now right.
Qed.

Lemma terminated_line (l : string) : terminated (l ++ String lf "").
Proof. right. now exists l. Qed.

Lemma ledger_text_cons (l : string) (links : list string) :
  ledger_text (l :: links)
  = ((l ++ String lf "") ++ ledger_text links)%string.
Proof. cbn [ledger_text]. now rewrite string_app_assoc. Qed.

Lemma read_lines_ledger_text (links : list string) :
  (forall l, In l links -> no_line_break l) ->
  read_lines (ledger_text links)
  = map (fun l => (l ++ String lf "")%string) links.
Proof.
  induction links as [|l links IH]; intros H; [reflexivity|].
  rewrite ledger_text_cons, read_lines_app by apply terminated_line.
  rewrite read_lines_line by (apply H; now left).
  rewrite IH by (intros l' Hl'; apply H; now right). reflexivity.
Qed.

(** A link without a line break is read back from the text that holds
    its entry, whatever the other entries are. *)
Lemma read_lines_entry (l : string) (links : list string) :
  no_line_break l -> In l links ->
  In (l ++ String lf "")%string (read_lines (ledger_text links)).
Proof.
  intros Hl. induction links as [|l' links IH]; intros Hin; [contradiction|].
  rewrite ledger_text_cons, read_lines_app by apply terminated_line.
  apply in_or_app. destruct Hin as [->|Hin].
  - left. rewrite read_lines_line by exact Hl. now left.
  - right. now apply IH.
Qed.

Lemma ledger_links_app (a b : list event) :
  ledger_links (a ++ b) = ledger_links a ++ ledger_links b.
Proof. unfold ledger_links. apply flat_map_app. Qed.

Lemma rows_of_log_app (a b : list event) :
  rows_of_log (a ++ b) = rows_of_log a ++ rows_of_log b.
Proof. unfold rows_of_log. apply flat_map_app. Qed.

Lemma opened_app (a b : list event) : opened (a ++ b) = opened a || opened b.
Proof. unfold opened. apply existsb_app. Qed.

Lemma headers_app (a b : list event) : headers (a ++ b) = headers a + headers b.
Proof. unfold headers. now rewrite filter_app, length_app. Qed.

Lemma sink_closed_snoc (a : list event) (ev : event) :
  sink_closed (a ++ [ev])
  = match ev with
    | EvSinkOpen => false
    | EvSinkClose => true
    | _ => sink_closed a
    end.
Proof. unfold sink_closed. rewrite fold_left_app. reflexivity. Qed.

Lemma in_ledger_links (tr : list event) (l : string) :
  In l (ledger_links tr) <-> exists k, In (EvLedger k l) tr.
Proof.
  unfold ledger_links. rewrite in_flat_map. split.
  - intros (ev & Hev & Hl). destruct ev; simpl in Hl; try contradiction.
    destruct Hl as [->|[]]. eauto.
  - intros (k & Hk). exists (EvLedger k l). split; [exact Hk|now left].
Qed.

Section OrchestratorFacts.

Variable fields_order : list string.
Variable page_soup : string -> node.
Variable product_page_data : string -> res (list record).
Variable collected0 : list string.
Variable ledger0 : string.
Variable sink0 : option (list csv_line).

Local Abbreviation Inv :=
  (invariant fields_order page_soup product_page_data collected0 ledger0 sink0).
Local Abbreviation ordered :=
  (ledger_after_sink fields_order page_soup product_page_data collected0).
Local Abbreviation entry_fine :=
  (entry_ok fields_order page_soup product_page_data collected0).
Local Abbreviation shape := (entry_shape page_soup).
Local Abbreviation handled :=
  (product_handled product_page_data collected0).
Local Abbreviation listing := (listing_result page_soup).

(** *** Ledger entries and what precedes them *)

Lemma ordered_snoc_other (tr : list event) (ev : event) :
  is_ledger ev = false -> ordered tr -> ordered (tr ++ [ev]).
Proof.
  intros Hev H pre k l post Heq.
  apply snoc_split in Heq. destruct Heq as [(_ & _ & ->) | (post' & _ & ->)].
  - discriminate.
  - exact (H pre k l post' eq_refl).
Qed.

Lemma ordered_app_other (d tr : list event) :
  forallb (fun ev => negb (is_ledger ev)) d = true ->
  ordered tr -> ordered (tr ++ d).
Proof.
  revert tr. induction d as [|ev d IH]; intros tr Hd H.
  - now rewrite app_nil_r.
  - simpl in Hd. apply andb_true_iff in Hd. destruct Hd as [Hev Hd].
    change (tr ++ ev :: d) with (tr ++ [ev] ++ d). rewrite app_assoc.
    apply IH; [exact Hd|]. apply ordered_snoc_other; [|exact H].
    now apply negb_true_iff.
Qed.

Lemma ordered_snoc_ledger (tr : list event) (k : unit_kind) (l : string) :
  ordered tr -> entry_fine tr k l -> ordered (tr ++ [EvLedger k l]).
Proof.
  intros H Hok pre k' l' post Heq.
  apply snoc_split in Heq.
  destruct Heq as [(_ & <- & Hev) | (post' & _ & ->)].
  - inversion Hev; subst. exact Hok.
  - exact (H pre k' l' post' eq_refl).
Qed.

(** *** The three elementary steps keep the invariant *)

Lemma invariant_emit_load (st : state) (ev : event) :
  is_load ev = true -> Inv st -> Inv (emit [ev] st).
Proof.
  intros Hev [Hc Hl Ho Hcl Hs Hsk Hh Hr].
  assert (Hll : ledger_links (log st ++ [ev]) = ledger_links (log st)).
  { rewrite ledger_links_app. destruct ev; try discriminate;
      simpl; now rewrite app_nil_r. }
  assert (Hrr : rows_of_log (log st ++ [ev]) = rows_of_log (log st)).
  { rewrite rows_of_log_app. destruct ev; try discriminate;
      simpl; now rewrite app_nil_r. }
  assert (Hop : opened (log st ++ [ev]) = opened (log st)).
  { rewrite opened_app. destruct ev; try discriminate;
      simpl; now rewrite orb_false_r. }
  assert (Hhd : headers (log st ++ [ev]) = headers (log st)).
  { rewrite headers_app. destruct ev; try discriminate;
      unfold headers; simpl; lia. }
  constructor; cbn [emit collected_links ledger_file sink_file log].
  - now rewrite Hll.
  - now rewrite Hll.
  - apply ordered_snoc_other; [destruct ev; try discriminate; reflexivity|].
    exact Ho.
  - rewrite sink_closed_snoc. destruct ev; try discriminate; exact Hcl.
  - intros k l Hin. apply in_app_or in Hin. destruct Hin as [Hin|[Hin|[]]].
    + now apply Hs.
    + subst ev. discriminate.
  - rewrite Hsk. unfold sink_view. now rewrite Hrr, Hop.
  - rewrite Hhd, Hh. unfold header_count. now rewrite Hop.
  - rewrite Hop, Hrr. exact Hr.
Qed.

Lemma invariant_add (st : state) (k : unit_kind) (l : string) :
  Inv st -> entry_fine (log st) k l -> shape k l ->
  Inv (add_collected_link k l st).
Proof.
  intros [Hc Hl Ho Hcl Hs Hsk Hh Hr] Hok Hshape.
  assert (Hll : ledger_links (log st ++ [EvLedger k l])
                = ledger_links (log st) ++ [l]).
  { now rewrite ledger_links_app. }
  assert (Hrr : rows_of_log (log st ++ [EvLedger k l]) = rows_of_log (log st)).
  { rewrite rows_of_log_app. simpl. now rewrite app_nil_r. }
  assert (Hop : opened (log st ++ [EvLedger k l]) = opened (log st)).
  { rewrite opened_app. simpl. now rewrite orb_false_r. }
  assert (Hhd : headers (log st ++ [EvLedger k l]) = headers (log st)).
  { rewrite headers_app. unfold headers. simpl. lia. }
  constructor; cbn [add_collected_link collected_links ledger_file sink_file log].
  - now rewrite Hll, Hc, app_assoc.
  - rewrite Hll, Hl, ledger_text_app, string_app_assoc. reflexivity.
  - now apply ordered_snoc_ledger.
  - rewrite sink_closed_snoc. exact Hcl.
  - intros k' l' Hin. apply in_app_or in Hin. destruct Hin as [Hin|[Hin|[]]].
    + now apply Hs.
    + inversion Hin; subst. exact Hshape.
  - rewrite Hsk. unfold sink_view. now rewrite Hrr, Hop.
  - rewrite Hhd, Hh. unfold header_count. now rewrite Hop.
  - rewrite Hop, Hrr. exact Hr.
Qed.

(** The block that writes the rows of a product. *)
Lemma invariant_save (st st' : state) (page_data : list record) (o : outcome) :
  Inv st ->
  save_page_data fields_order page_data st = (o, st') ->
  Inv st' /\
  collected_links st' = collected_links st /\
  exists hdr rows err,
    log st' = log st ++ [EvSinkOpen] ++ hdr ++ [EvSinkRows rows; EvSinkClose] /\
    (hdr = [] \/ hdr = [EvSinkHeader]) /\
    rows_written fields_order page_data = (rows, err) /\
    o = match err with None => Finished | Some e => Failed e end.
Proof.
  intros [Hc Hl Ho Hcl Hs Hsk Hh Hr]. unfold save_page_data.
  destruct (rows_written fields_order page_data) as [rows err] eqn:Hrows.
  intros Hsave. inversion Hsave; subst o st'; clear Hsave.
  set (hdr := if match sink_file st with Some _ => true | None => false end
              then [] else [EvSinkHeader]).
  set (d := [EvSinkOpen] ++ hdr ++ [EvSinkRows rows; EvSinkClose]).
  assert (Hhdr : hdr = [] \/ hdr = [EvSinkHeader]).
  { unfold hdr. destruct (sink_file st); auto. }
  assert (Hll : ledger_links (log st ++ d) = ledger_links (log st)).
  { rewrite ledger_links_app. unfold d.
    destruct Hhdr as [-> | ->]; simpl; now rewrite app_nil_r. }
  assert (Hrr : rows_of_log (log st ++ d) = rows_of_log (log st) ++ rows).
  { rewrite rows_of_log_app. unfold d.
    destruct Hhdr as [-> | ->]; simpl; now rewrite app_nil_r. }
  assert (Hop : opened (log st ++ d) = true).
  { rewrite opened_app. unfold d. simpl. apply orb_true_r. }
  assert (Hhd : headers (log st ++ d)
                = headers (log st) + List.length hdr).
  { rewrite headers_app. unfold d.
    destruct Hhdr as [-> | ->]; unfold headers; simpl; lia. }
  match goal with
  | |- context [mk_state ?a ?b ?c ?e] => set (st' := mk_state a b c e)
  end.
  assert (Hlog : log st' = log st ++ d) by reflexivity.
  assert (Hcoll : collected_links st' = collected_links st) by reflexivity.
  assert (Hled : ledger_file st' = ledger_file st) by reflexivity.
  assert (Hsink : sink_file st'
                  = Some (match sink_file st with Some ls => ls | None => [] end
                          ++ (if match sink_file st with
                                 | Some _ => true | None => false end
                              then [] else [Header fields_order])
                          ++ map Row rows)) by reflexivity.
  clearbody st'.
  split; [|split; [exact Hcoll|]].
  - constructor; rewrite ?Hlog, ?Hcoll, ?Hled.
    + now rewrite Hll.
    + now rewrite Hll.
    + apply ordered_app_other; [|exact Ho]. unfold d.
      destruct Hhdr as [-> | ->]; reflexivity.
    + unfold d.
      replace (log st ++ [EvSinkOpen] ++ hdr ++ [EvSinkRows rows; EvSinkClose])
        with ((log st ++ [EvSinkOpen] ++ hdr ++ [EvSinkRows rows])
                ++ [EvSinkClose]).
      * now rewrite sink_closed_snoc.
      * rewrite <- !app_assoc. reflexivity.
    + intros k l Hin. apply in_app_or in Hin. destruct Hin as [Hin|Hin].
      * now apply Hs.
      * exfalso. unfold d in Hin.
        destruct Hhdr as [-> | ->]; simpl in Hin;
          repeat (destruct Hin as [Hin|Hin]; [discriminate|]); exact Hin.
    + rewrite Hsink. unfold sink_view. rewrite Hrr, Hop, map_app.
      rewrite Hsk. unfold sink_view.
      destruct sink0 as [old|].
      * simpl. now rewrite <- app_assoc.
      * destruct (opened (log st)) eqn:Hopen.
        -- reflexivity.
        -- rewrite (Hr eq_refl). reflexivity.
    + rewrite Hhd, Hh. unfold header_count. rewrite Hop.
      unfold hdr. rewrite Hsk. unfold sink_view.
      destruct sink0 as [old|]; [simpl; lia|].
      destruct (opened (log st)); simpl; lia.
    + rewrite Hop. discriminate.
  - exists hdr, rows, err. rewrite Hlog. auto.
Qed.

(** *** Links *)

Lemma prefix_app (a b : string) : prefix a (a ++ b)%string = true.
Proof.
  induction a as [|c a IH]; simpl.
  - now destruct b.
  - destruct (ascii_dec c c); [exact IH|contradiction].
Qed.

Lemma prefix_app_r (a b c : string) :
  prefix a b = true -> prefix a (b ++ c)%string = true.
Proof.
  revert b. induction a as [|x a IH]; intros b H.
  - simpl. now destruct (b ++ c)%string.
  - destruct b as [|y b]; simpl in H; [discriminate|].
    simpl. destruct (ascii_dec x y); [now apply IH|discriminate].
Qed.

Lemma get_absolute_link_some (rel : option string) (l : string) :
  get_absolute_link rel = Ok l -> exists r, rel = Some r.
Proof.
  assert (Hlast : last_char base_link = Some slash) by reflexivity.
  unfold get_absolute_link, get_absolute_link_from. rewrite Hlast.
  change (Ascii.eqb slash slash) with true. cbv iota.
  destruct rel as [r|]; [eauto|discriminate].
Qed.

Lemma get_absolute_link_prefix (rel : option string) (l : string) :
  get_absolute_link rel = Ok l -> prefix base_link l = true.
Proof.
  assert (Hlast : last_char base_link = Some slash) by reflexivity.
  unfold get_absolute_link, get_absolute_link_from. rewrite Hlast.
  change (Ascii.eqb slash slash) with true. cbv iota.
  destruct rel as [[|c rest]|]; try discriminate.
  destruct (Ascii.eqb c slash); intros H; inversion H;
    [exact (prefix_app base_link rest)
    |exact (prefix_app base_link (String c rest))].
Qed.

Lemma prefix_of_prefix (a b l : string) :
  prefix (a ++ b)%string l = true -> prefix a l = true.
Proof.
  revert l. induction a as [|x a IH]; intros l H.
  - simpl. now destruct l.
  - destruct l as [|y l]; simpl in H; [discriminate|].
    simpl. destruct (ascii_dec x y); [now apply IH|discriminate].
Qed.

Lemma absolute_of_prefix (l : string) :
  prefix base_link l = true -> is_absolute_url l = true.
Proof.
  intros H. unfold is_absolute_url. apply orb_true_iff. right.
  apply prefix_of_prefix with "yacht-parts.ru/". exact H.
Qed.

(** *** What is already handled stays handled *)

Lemma handled_app (pre d : list event) (rel : option string) :
  handled pre rel -> handled (pre ++ d) rel.
Proof.
  intros (l & Hrel & [Hin | Hempty]); exists l; split; try exact Hrel.
  - left. unfold collected_after in *.
    rewrite ledger_links_app, app_assoc, str_in_app, Hin. reflexivity.
  - right. exact Hempty.
Qed.

Lemma listings_ok_app (tr d : list event) :
  (forall cl n, ~ In (EvLoadListing cl n) d) ->
  listings_ok page_soup tr -> listings_ok page_soup (tr ++ d).
Proof.
  intros Hd H cl n Hin. apply in_app_or in Hin.
  destruct Hin as [Hin|Hin]; [now apply H|]. now apply Hd in Hin.
Qed.

Lemma product_level_no_listing (d : list event) :
  forallb product_level d = true -> forall cl n, ~ In (EvLoadListing cl n) d.
Proof.
  intros H cl n Hin. rewrite forallb_forall in H.
  apply H in Hin. discriminate.
Qed.

Lemma product_level_page_level (d : list event) :
  forallb product_level d = true -> forallb page_level d = true.
Proof.
  rewrite !forallb_forall. intros H ev Hin. apply H in Hin.
  destruct ev; try discriminate; try reflexivity.
  destruct kind; try discriminate; reflexivity.
Qed.

Lemma page_level_no_category (d : list event) (l : string) :
  forallb page_level d = true -> ~ In (EvLedger UCategory l) d.
Proof.
  intros H Hin. rewrite forallb_forall in H. apply H in Hin. discriminate.
Qed.

(** *** The loop over the products of a page *)

Lemma process_product_spec (category_name : string) (rel : option string)
      (st st' : state) (o : outcome) :
  Inv st ->
  (forall l, rel = Some l -> shape UProduct l) ->
  process_product fields_order product_page_data category_name rel st
  = (o, st') ->
  Inv st' /\
  (exists d, log st' = log st ++ d /\ forallb product_level d = true) /\
  (o = Finished -> handled (log st') rel).
Proof.
  intros HI Hshape. unfold process_product.
  destruct (opt_in rel (collected_links st)) eqn:Hin.
  { intros H; inversion H; subst. split; [exact HI|]. split.
    - exists []. now rewrite app_nil_r.
    - intros _. destruct rel as [l|]; [|discriminate]. exists l.
      split; [reflexivity|]. left. unfold collected_after.
      rewrite <- (inv_collected _ _ _ _ _ _ _ HI). exact Hin. }
  destruct (get_absolute_link rel) as [product_link|e] eqn:Habs.
  2:{ intros H; inversion H; subst. split; [exact HI|]. split.
      - exists []. now rewrite app_nil_r.
      - discriminate. }
  destruct (get_absolute_link_some _ _ Habs) as [l ->].
  assert (HI1 : Inv (emit [EvLoadProduct (Some l) product_link] st)).
  { now apply invariant_emit_load. }
  destruct (product_page_data product_link) as [page_data|e] eqn:Hdata.
  2:{ intros H; inversion H; subst. split; [exact HI1|]. split.
      - exists [EvLoadProduct (Some l) product_link]. split; reflexivity.
      - discriminate. }
  destruct (forallb is_empty_dict page_data) eqn:Hempty.
  { intros H; inversion H; subst. split; [exact HI1|]. split.
    - exists [EvLoadProduct (Some l) product_link]. split; reflexivity.
    - intros _. exists l. split; [reflexivity|]. right.
      exists product_link, page_data. auto. }
  destruct (save_page_data fields_order
              (set_category category_name page_data)
              (emit [EvLoadProduct (Some l) product_link] st)) as [o2 st2] eqn:Hsave.
  destruct (invariant_save _ _ _ _ HI1 Hsave)
    as (HI2 & Hcoll & hdr & rows & err & Hlog & Hhdr & Hrows & Ho2).
  assert (Hd2 : exists d, log st2 = log st ++ d /\
                          forallb product_level d = true).
  { exists ([EvLoadProduct (Some l) product_link] ++ [EvSinkOpen] ++ hdr
              ++ [EvSinkRows rows; EvSinkClose]).
    split.
    - rewrite Hlog. cbn [emit log]. now rewrite <- app_assoc.
    - destruct Hhdr as [-> | ->]; reflexivity. }
  destruct o2.
  - destruct err; [discriminate|].
    intros H; inversion H; subst o st'; clear H.
    assert (HI3 : Inv (add_collected_link UProduct l st2)).
    { apply invariant_add; [exact HI2| |now apply Hshape].
      exists (log (emit [EvLoadProduct (Some l) product_link] st)), hdr,
        category_name, product_link, page_data, rows.
      repeat split; auto. }
    split; [exact HI3|]. split.
    + destruct Hd2 as (d & Hd & Hpl).
      exists (d ++ [EvLedger UProduct l]). cbn [add_collected_link log].
      rewrite Hd, <- app_assoc. split; [reflexivity|].
      rewrite forallb_app, Hpl. reflexivity.
    + intros _. exists l. split; [reflexivity|]. left.
      unfold collected_after. cbn [add_collected_link log].
      rewrite ledger_links_app, app_assoc, str_in_app.
      apply orb_true_iff. right. simpl. now rewrite String.eqb_refl.
  - intros H; inversion H; subst. split; [exact HI2|].
    split; [exact Hd2|discriminate].
  - intros H; inversion H; subst. split; [exact HI2|].
    split; [exact Hd2|discriminate].
Qed.

Lemma products_loop_spec (category_name : string)
      (links : list (option string)) :
  forall (st st' : state) (o : outcome),
    Inv st ->
    (forall l, In (Some l) links -> shape UProduct l) ->
    products_loop fields_order product_page_data category_name links st
    = (o, st') ->
    Inv st' /\
    (exists d, log st' = log st ++ d /\ forallb product_level d = true) /\
    (o = Finished -> Forall (handled (log st')) links).
Proof.
  induction links as [|rel links IH]; intros st st' o HI Hshape; simpl.
  - intros H; inversion H; subst. split; [exact HI|]. split.
    + exists []. now rewrite app_nil_r.
    + intros _. constructor.
  - destruct (process_product fields_order product_page_data category_name
                              rel st) as [o1 st1] eqn:Hp.
    destruct (process_product_spec _ _ _ _ _ HI
                (fun l Hl => Hshape l (or_introl Hl)) Hp)
      as (HI1 & (d1 & Hd1 & Hpl1) & Hh1).
    destruct o1.
    + intros Hloop.
      destruct (IH st1 st' o HI1 (fun l Hl => Hshape l (or_intror Hl)) Hloop)
        as (HI' & (d2 & Hd2 & Hpl2) & Hh2).
      split; [exact HI'|]. split.
      * exists (d1 ++ d2). rewrite Hd2, Hd1, <- app_assoc.
        split; [reflexivity|]. now rewrite forallb_app, Hpl1, Hpl2.
      * intros Ho. constructor; [|now apply Hh2].
        rewrite Hd2. apply handled_app. now apply Hh1.
    + intros H; inversion H; subst. split; [exact HI1|].
      split; [eauto|discriminate].
    + intros H; inversion H; subst. split; [exact HI1|].
      split; [eauto|discriminate].
Qed.

(** *** The loop over the pages of a category *)

Lemma collected_grows (st st' : state) (d : list event) (x : string) :
  Inv st -> Inv st' -> log st' = log st ++ d ->
  str_in x (collected_links st) = true ->
  str_in x (collected_links st') = true.
Proof.
  intros HI HI' Hlog.
  rewrite (inv_collected _ _ _ _ _ _ _ HI), (inv_collected _ _ _ _ _ _ _ HI').
  rewrite Hlog, ledger_links_app, app_assoc, (str_in_app x (_ ++ _)).
  intros ->. reflexivity.
Qed.

Lemma not_collected_no_entry (st : state) (k : unit_kind) (l : string) :
  Inv st -> str_in l (collected_links st) = false ->
  ~ In (EvLedger k l) (log st).
Proof.
  intros HI Hn Hin.
  rewrite (inv_collected _ _ _ _ _ _ _ HI), str_in_app in Hn.
  apply orb_false_iff in Hn. destruct Hn as [_ Hn].
  assert (Ht : str_in l (ledger_links (log st)) = true).
  { apply str_in_In. apply in_ledger_links. eauto. }
  congruence.
Qed.

Lemma pages_loop_spec (category_name cl : string) (fuel : nat) :
  forall (n : nat) (st st' : state) (o : outcome),
    Inv st ->
    prefix base_link cl = true ->
    1 <= n ->
    (forall k, 1 <= k < n ->
               str_in (get_pagination_page_link cl k) (collected_links st)
               = true) ->
    listings_ok page_soup (log st) ->
    ~ In (EvLedger UCategory cl) (log st) ->
    pages_loop fields_order page_soup product_page_data fuel
               category_name cl n st = (o, st') ->
    Inv st' /\
    (exists d, log st' = log st ++ d /\ forallb page_level d = true) /\
    stop_point page_soup o (log st') /\
    (o = Finished ->
     exists m links,
       1 <= m /\
       (forall k, 1 <= k <= m ->
                  str_in (get_pagination_page_link cl k) (collected_links st')
                  = true) /\
       In (EvLedger UPage (get_pagination_page_link cl m)) (log st') /\
       listing cl m = Ok (links, true)).
Proof.
  induction fuel as [|fuel IH]; intros n st st' o HI Hcl Hn Hbefore Hlist Hcat;
    cbn [pages_loop].
  - intros H; inversion H; subst. split; [exact HI|]. split.
    + exists []. now rewrite app_nil_r.
    + split; [now left|discriminate].
  - destruct (str_in (get_pagination_page_link cl n) (collected_links st))
      eqn:Hin.
    { intros Hloop. apply (IH (S n) st st' o); auto; try lia.
      intros k Hk. destruct (Nat.eq_dec k n) as [->|Hne]; [exact Hin|].
      apply Hbefore. lia. }
    set (st1 := emit [EvLoadListing cl n] st).
    assert (HI1 : Inv st1) by now apply invariant_emit_load.
    fold (listing cl n).
    destruct (listing cl n) as [[links is_last]|e] eqn:Hres.
    2:{ intros H; inversion H; subst o st'. split; [exact HI1|]. split.
        - exists [EvLoadListing cl n]. split; reflexivity.
        - split; [|discriminate]. right.
          exists e, (log st), cl, n. repeat split; auto.
          now apply not_collected_no_entry. }
    assert (Hlist1 : listings_ok page_soup (log st1)).
    { intros cl' n' Hin'. apply in_app_or in Hin'.
      destruct Hin' as [Hin'|[Hin'|[]]]; [now apply Hlist|].
      inversion Hin'; subst. eauto. }
    destruct (products_loop fields_order product_page_data category_name
                            links st1) as [o2 st2] eqn:Hprod.
    destruct (products_loop_spec category_name links st1 st2 o2 HI1)
      as (HI2 & (d2 & Hd2 & Hpl2) & Hh2); [|exact Hprod|].
    { intros l Hl. exists cl, n, links, is_last. auto. }
    assert (Hlist2 : listings_ok page_soup (log st2)).
    { rewrite Hd2. apply listings_ok_app; [|exact Hlist1].
      now apply product_level_no_listing. }
    assert (Hlog2 : log st2 = log st ++ [EvLoadListing cl n] ++ d2).
    { rewrite Hd2. unfold st1. cbn [emit log]. now rewrite <- app_assoc. }
    assert (Hpage2 : forallb page_level ([EvLoadListing cl n] ++ d2) = true).
    { rewrite forallb_app. simpl. now apply product_level_page_level. }
    destruct o2.
    + set (page_link := get_pagination_page_link cl n) in *.
      set (st3 := add_collected_link UPage page_link st2).
      assert (HI3 : Inv st3).
      { apply invariant_add; [exact HI2| |].
        - split; [exact (inv_closed _ _ _ _ _ _ _ HI2)|].
          exists cl, n, links, is_last. auto.
        - simpl. unfold page_link, get_pagination_page_link.
          now apply prefix_app_r. }
      assert (Hlog3 : log st3
                      = log st ++ ([EvLoadListing cl n] ++ d2)
                          ++ [EvLedger UPage page_link]).
      { unfold st3. cbn [add_collected_link log]. rewrite Hlog2.
        now rewrite <- !app_assoc. }
      assert (Hpage3 : forallb page_level
                         (([EvLoadListing cl n] ++ d2)
                            ++ [EvLedger UPage page_link]) = true).
      { rewrite forallb_app, Hpage2. reflexivity. }
      assert (Hlist3 : listings_ok page_soup (log st3)).
      { unfold st3. cbn [add_collected_link log].
        apply listings_ok_app; [|exact Hlist2].
        intros cl' n' [Hc|[]]. discriminate. }
      assert (Hnew : str_in page_link (collected_links st3) = true).
      { unfold st3. cbn [add_collected_link collected_links].
        rewrite str_in_app. apply orb_true_iff. right. simpl.
        now rewrite String.eqb_refl. }
      assert (Hbefore3 : forall k, 1 <= k < S n ->
                str_in (get_pagination_page_link cl k) (collected_links st3)
                = true).
      { intros k Hk. destruct (Nat.eq_dec k n) as [->|Hne]; [exact Hnew|].
        apply (collected_grows st st3 _ _ HI HI3 Hlog3).
        apply Hbefore. lia. }
      destruct is_last.
      * intros H; inversion H; subst o st'. split; [exact HI3|]. split.
        { eauto. }
        split; [now left|]. intros _. exists n, links.
        split; [exact Hn|]. split; [intros k Hk; apply Hbefore3; lia|].
        split; [|exact Hres].
        rewrite Hlog3. apply in_or_app. right. apply in_or_app. right.
        now left.
      * intros Hloop.
        destruct (IH (S n) st3 st' o HI3 Hcl) as
          (HI' & (d' & Hd' & Hpl') & Hstop & Hfin); auto; try lia.
        { rewrite Hlog3. intros Hin'. apply in_app_or in Hin'.
          destruct Hin' as [Hin'|Hin']; [now apply Hcat|].
          revert Hin'. now apply page_level_no_category. }
        split; [exact HI'|]. split.
        { exists ((([EvLoadListing cl n] ++ d2)
                     ++ [EvLedger UPage page_link]) ++ d').
          split; [rewrite Hd', Hlog3, <- !app_assoc; reflexivity|].
          rewrite forallb_app, Hpage3, Hpl'. reflexivity. }
        split; [exact Hstop|exact Hfin].
    + intros H; inversion H; subst o st'. split; [exact HI2|].
      split; [eauto|]. split; [now left|discriminate].
    + intros H; inversion H; subst o st'. split; [exact HI2|].
      split; [eauto|]. split; [now left|discriminate].
Qed.

(** *** The loop over the categories *)

Lemma stop_point_finished (tr : list event) :
  stop_point page_soup Finished tr -> listings_ok page_soup tr.
Proof.
  intros [H | (e & tr0 & cl & n & Ho & _)]; [exact H|discriminate].
Qed.

Lemma process_category_spec (fuel : nat) (category : string * option string)
      (st st' : state) (o : outcome) :
  Inv st -> listings_ok page_soup (log st) ->
  process_category fields_order page_soup product_page_data fuel category st
  = (o, st') ->
  Inv st' /\ stop_point page_soup o (log st').
Proof.
  intros HI Hlist. destruct category as [category_name rel].
  unfold process_category.
  destruct (get_absolute_link rel) as [cl|e] eqn:Habs.
  2:{ intros H; inversion H; subst. split; [exact HI|now left]. }
  pose proof (get_absolute_link_prefix _ _ Habs) as Hcl.
  destruct (str_in cl (collected_links st)) eqn:Hin.
  { intros H; inversion H; subst. split; [exact HI|now left]. }
  destruct (pages_loop fields_order page_soup product_page_data fuel
                       category_name cl 1 st) as [o2 st2] eqn:Hloop.
  destruct (pages_loop_spec category_name cl fuel 1 st st2 o2 HI Hcl)
    as (HI2 & _ & Hstop & Hfin); auto.
  { intros k Hk. lia. }
  { now apply not_collected_no_entry. }
  destruct o2.
  - intros H; inversion H; subst o st'.
    destruct (Hfin eq_refl) as (m & links & Hm & Hpages & Hlast & Hres).
    split.
    + apply invariant_add; [exact HI2| |exact Hcl].
      split; [exact (inv_closed _ _ _ _ _ _ _ HI2)|].
      exists m, links. split; [exact Hm|]. split; [|split; assumption].
      intros k Hk. unfold collected_after.
      rewrite <- (inv_collected _ _ _ _ _ _ _ HI2). now apply Hpages.
    + left. cbn [add_collected_link log].
      apply listings_ok_app; [|now apply stop_point_finished].
      intros cl' n' [Hc|[]]. discriminate.
  - intros H; inversion H; subst. split; assumption.
  - intros H; inversion H; subst. split; assumption.
Qed.

Lemma categories_loop_spec (fuel : nat)
      (categories : list (string * option string)) :
  forall (st st' : state) (o : outcome),
    Inv st -> listings_ok page_soup (log st) ->
    categories_loop fields_order page_soup product_page_data fuel
                    categories st = (o, st') ->
    Inv st' /\ stop_point page_soup o (log st').
Proof.
  induction categories as [|category rest IH]; intros st st' o HI Hlist; simpl.
  - intros H; inversion H; subst. split; [exact HI|now left].
  - destruct (process_category fields_order page_soup product_page_data fuel
                               category st) as [o1 st1] eqn:Hp.
    destruct (process_category_spec _ _ _ _ _ HI Hlist Hp) as [HI1 Hstop1].
    destruct o1.
    + apply IH; [exact HI1|now apply stop_point_finished].
    + intros H; inversion H; subst. split; assumption.
    + intros H; inversion H; subst. split; assumption.
Qed.

Lemma invariant_initial :
  collected0 = load_collected_links ledger0 ->
  Inv (initial_state ledger0 sink0).
Proof.
  intros Hc. constructor; cbn [initial_state collected_links ledger_file
                                sink_file log].
  - now rewrite Hc, app_nil_r.
  - simpl. now rewrite string_app_nil_r.
  - intros pre k l post H. destruct pre; discriminate.
  - reflexivity.
  - intros k l [].
  - unfold sink_view. simpl. destruct sink0; [now rewrite app_nil_r|reflexivity].
  - unfold header_count. simpl. now destruct sink0.
  - reflexivity.
Qed.

(** The run as a whole. *)
Lemma get_all_data_spec (fuel : nat) :
  collected0 = load_collected_links ledger0 ->
  Inv (snd (get_all_data fields_order page_soup product_page_data
                         fuel ledger0 sink0)) /\
  stop_point page_soup
             (fst (get_all_data fields_order page_soup product_page_data
                                fuel ledger0 sink0))
             (log (snd (get_all_data fields_order page_soup product_page_data
                                     fuel ledger0 sink0))).
Proof.
  intros Hc. unfold get_all_data.
  change (get_absolute_link (Some "catalog/"))
    with (@Ok string "https://yacht-parts.ru/catalog/").
  cbv iota beta.
  set (st1 := emit [EvLoadCatalog "https://yacht-parts.ru/catalog/"]
                   (initial_state ledger0 sink0)).
  assert (HI1 : Inv st1).
  { apply invariant_emit_load; [reflexivity|now apply invariant_initial]. }
  assert (Hlist1 : listings_ok page_soup (log st1)).
  { intros cl n [Hin|[]]. discriminate. }
  destruct (categories_loop fields_order page_soup product_page_data fuel
              (get_categories (page_soup "https://yacht-parts.ru/catalog/"))
              st1) as [o st'] eqn:Hloop.
  exact (categories_loop_spec _ _ _ _ _ HI1 Hlist1 Hloop).
Qed.

End OrchestratorFacts.

(** *** The run of [get_all_data] *)

Section Run.

Variable fields_order : list string.
Variable page_soup : string -> node.
Variable product_page_data : string -> res (list record).

Local Abbreviation run := (get_all_data fields_order page_soup product_page_data).



(** C7. The CSV file after a run, whatever its outcome: when the file
    existed, its old contents followed by the rows of the run and no
    header; when it did not exist, either still absent (nothing was
    appended) or one header with the given column order followed by the
    rows of the run.  The number of headers written is 0 or 1
    accordingly. *)
Theorem header_written_once
        (fuel : nat) (ledger : string) (sink : option (list csv_line)) :
  sink_file (snd (run fuel ledger sink))
  = match sink with
    | Some old =>
        Some (old ++ map Row (rows_of_log (log (snd (run fuel ledger sink)))))
    | None =>
        if opened (log (snd (run fuel ledger sink)))
        then Some (Header fields_order
                   :: map Row (rows_of_log (log (snd (run fuel ledger sink)))))
        else None
    end
  /\ headers (log (snd (run fuel ledger sink)))
     = match sink with
       | Some _ => 0
       | None => if opened (log (snd (run fuel ledger sink))) then 1 else 0
       end.
Proof.
  destruct (get_all_data_spec fields_order page_soup product_page_data
              (load_collected_links ledger) ledger sink fuel eq_refl)
    as [HI _].
  split.
  - exact (inv_sink _ _ _ _ _ _ _ HI).
  - exact (inv_headers _ _ _ _ _ _ _ HI).
Qed.

(** C4, amended. The ledger file after a run is the old text followed,
    for every entry of the run in order, by the link and a newline;
    every category entry and every page entry is an absolute link; a
    product entry is a link of a listing page exactly as
    [get_product_links] returned it.  When the old text is empty or ends
    with a newline and no entry holds a line break, every entry is one
    line of the file. *)
Theorem ledger_entries_shape
        (fuel : nat) (ledger : string) (sink : option (list csv_line)) :
  ledger_file (snd (run fuel ledger sink))
  = (ledger ++ ledger_text (ledger_links (log (snd (run fuel ledger sink)))))%string
  /\ (forall kind l,
        In (EvLedger kind l) (log (snd (run fuel ledger sink))) ->
        match kind with
        | UProduct =>
            exists category_link n product_links is_last_page,
              listing_result page_soup category_link n
              = Ok (product_links, is_last_page) /\
              In (Some l) product_links
        | UPage | UCategory => is_absolute_url l = true
        end)
  /\ (terminated ledger ->
      (forall kind l,
         In (EvLedger kind l) (log (snd (run fuel ledger sink))) ->
         no_line_break l) ->
      read_lines (ledger_file (snd (run fuel ledger sink)))
      = read_lines ledger
        ++ map (fun l => (l ++ String lf "")%string)
               (ledger_links (log (snd (run fuel ledger sink))))).
Proof.
  destruct (get_all_data_spec fields_order page_soup product_page_data
              (load_collected_links ledger) ledger sink fuel eq_refl)
    as [HI _].
  split; [exact (inv_ledger _ _ _ _ _ _ _ HI)|]. split.
  - intros kind l Hin.
    pose proof (inv_shape _ _ _ _ _ _ _ HI kind l Hin) as Hs.
    destruct kind; simpl in Hs.
    + exact Hs.
    + now apply absolute_of_prefix.
    + now apply absolute_of_prefix.
  - intros Hterm Hclean.
    rewrite (inv_ledger _ _ _ _ _ _ _ HI), read_lines_app by exact Hterm.
    rewrite read_lines_ledger_text; [reflexivity|].
    intros l Hl. apply in_ledger_links in Hl. destruct Hl as [k Hl].
    exact (Hclean k l Hl).
Qed.

(** C2, amended. When the run loads a listing page on which
    [get_product_links] raises, the run ends with that error and the load
    is its last event: neither the page nor its category has an entry,
    and nothing is crawled afterwards. *)
Theorem listing_failure_ends_run
        (fuel : nat) (ledger : string) (sink : option (list csv_line))
        (category_link : string) (n : nat) (e : exn) :
  In (EvLoadListing category_link n) (log (snd (run fuel ledger sink))) ->
  listing_result page_soup category_link n = Raise e ->
  fst (run fuel ledger sink) = Failed e /\
  exists tr,
    log (snd (run fuel ledger sink)) = tr ++ [EvLoadListing category_link n] /\
    ~ In (EvLedger UCategory category_link) (log (snd (run fuel ledger sink))) /\
    ~ In (EvLedger UPage (get_pagination_page_link category_link n))
         (log (snd (run fuel ledger sink))).
Proof.
  intros Hin Hres.
  destruct (get_all_data_spec fields_order page_soup product_page_data
              (load_collected_links ledger) ledger sink fuel eq_refl)
    as [_ Hstop].
  destruct Hstop as [Hok | (e' & tr0 & cl & m & Ho & Hlog & Hok & Hres' & Hc & Hp)].
  - destruct (Hok _ _ Hin) as [r Hr]. congruence.
  - rewrite Hlog in Hin. apply in_app_or in Hin.
    destruct Hin as [Hin|[Hin|[]]].
    + destruct (Hok _ _ Hin) as [r Hr]. congruence.
    + inversion Hin; subst cl m. rewrite Hres in Hres'. inversion Hres'; subst e'.
      split; [exact Ho|]. exists tr0. split; [exact Hlog|].
      rewrite Hlog. split.
      * intros H. apply in_app_or in H. destruct H as [H|[H|[]]];
          [now apply Hc|discriminate].
      * intros H. apply in_app_or in H. destruct H as [H|[H|[]]];
          [now apply Hp|discriminate].
Qed.

End Run.

(** *** Runs of the small shop *)

(** A complete run on one category with one page and one product. *)
Example one_category_run :
  get_all_data default_fields_order Shop.one_category Shop.product_page_data
               5 "" None
  = (Finished,
     {| collected_links :=
          ["/catalog/a/a1/p1/";
           "https://yacht-parts.ru/catalog/a/a1/?PAGEN_1=1";
           "https://yacht-parts.ru/catalog/a/a1/"];
        ledger_file :=
          ledger_text
            ["/catalog/a/a1/p1/";
             "https://yacht-parts.ru/catalog/a/a1/?PAGEN_1=1";
             "https://yacht-parts.ru/catalog/a/a1/"];
        sink_file :=
          Some [Header default_fields_order;
                Row ["A-1"; "Anchor"; "Acme"; ""; "100"; "A; a1"; ""; ""; "";
                     "https://yacht-parts.ru/catalog/a/a1/p1/"]];
        log :=
          [EvLoadCatalog "https://yacht-parts.ru/catalog/";
           EvLoadListing "https://yacht-parts.ru/catalog/a/a1/" 1;
           EvLoadProduct (Some "/catalog/a/a1/p1/")
                         "https://yacht-parts.ru/catalog/a/a1/p1/";
           EvSinkOpen; EvSinkHeader;
           EvSinkRows [["A-1"; "Anchor"; "Acme"; ""; "100"; "A; a1"; ""; "";
                        ""; "https://yacht-parts.ru/catalog/a/a1/p1/"]];
           EvSinkClose;
           EvLedger UProduct "/catalog/a/a1/p1/";
           EvLedger UPage "https://yacht-parts.ru/catalog/a/a1/?PAGEN_1=1";
           EvLedger UCategory "https://yacht-parts.ru/catalog/a/a1/"] |}).
Proof. vm_compute. reflexivity. Qed.


Lemma header_written_once_witness :
  sink_file (snd (get_all_data default_fields_order Shop.one_category
                               Shop.product_page_data 5 "" None))
  = Some [Header default_fields_order;
          Row ["A-1"; "Anchor"; "Acme"; ""; "100"; "A; a1"; ""; ""; "";
               "https://yacht-parts.ru/catalog/a/a1/p1/"]]
  /\ headers (log (snd (get_all_data default_fields_order Shop.one_category
                                     Shop.product_page_data 5 "" None))) = 1.
Proof.
  exact (header_written_once default_fields_order Shop.one_category
                             Shop.product_page_data 5 "" None).
Defined.

(** A run that finds the CSV file in place, as after a restart: the old
    lines stay, the row is appended, no header is written. *)
Example restart_run :
  sink_file (snd (get_all_data default_fields_order Shop.one_category
                               Shop.product_page_data 5 ""
                               (Some [Header default_fields_order;
                                      Row ["old"]])))
  = Some [Header default_fields_order; Row ["old"];
          Row ["A-1"; "Anchor"; "Acme"; ""; "100"; "A; a1"; ""; ""; "";
               "https://yacht-parts.ru/catalog/a/a1/p1/"]]
  /\ headers (log (snd (get_all_data default_fields_order Shop.one_category
                                     Shop.product_page_data 5 ""
                                     (Some [Header default_fields_order;
                                            Row ["old"]])))) = 0.
Proof. split; vm_compute; reflexivity. Qed.

Lemma ledger_entries_shape_witness :
  In (EvLedger UCategory "https://yacht-parts.ru/catalog/a/a1/")
     (log (snd (get_all_data default_fields_order Shop.one_category
                             Shop.product_page_data 5 "" None)))
  /\ is_absolute_url "https://yacht-parts.ru/catalog/a/a1/" = true.
Proof.
  assert (H : In (EvLedger UCategory "https://yacht-parts.ru/catalog/a/a1/")
                 (log (snd (get_all_data default_fields_order Shop.one_category
                                         Shop.product_page_data 5 "" None)))).
  { vm_compute. tauto. }
  split; [exact H|].
  exact (proj1 (proj2 (ledger_entries_shape
                         default_fields_order Shop.one_category
                         Shop.product_page_data 5 "" None))
               UCategory _ H).
Defined.

(** C4 as stated fails: the entry written for a product is the link as
    the listing page has it, here a relative one. *)
Lemma product_entry_not_absolute :
  fst (get_all_data default_fields_order Shop.one_category
                    Shop.product_page_data 5 "" None) = Finished
  /\ ledger_file (snd (get_all_data default_fields_order Shop.one_category
                                    Shop.product_page_data 5 "" None))
     = ledger_text ["/catalog/a/a1/p1/";
                    "https://yacht-parts.ru/catalog/a/a1/?PAGEN_1=1";
                    "https://yacht-parts.ru/catalog/a/a1/"]
  /\ In (EvLedger UProduct "/catalog/a/a1/p1/")
        (log (snd (get_all_data default_fields_order Shop.one_category
                                Shop.product_page_data 5 "" None)))
  /\ is_absolute_url "/catalog/a/a1/p1/" = false.
Proof.
  split; [vm_compute; reflexivity|].
  split; [vm_compute; reflexivity|].
  split; [vm_compute; tauto|reflexivity].
Qed.


Lemma listing_failure_ends_run_witness :
  In (EvLoadListing "https://yacht-parts.ru/catalog/b/b1/" 1)
     (log (snd (get_all_data default_fields_order Shop.broken_first
                             Shop.product_page_data 5 "" None)))
  /\ listing_result Shop.broken_first "https://yacht-parts.ru/catalog/b/b1/" 1
     = Raise (ProductLinksNotFound
                "https://yacht-parts.ru/catalog/b/b1/?PAGEN_1=1")
  /\ fst (get_all_data default_fields_order Shop.broken_first
                       Shop.product_page_data 5 "" None)
     = Failed (ProductLinksNotFound
                 "https://yacht-parts.ru/catalog/b/b1/?PAGEN_1=1").
Proof.
  assert (H1 : In (EvLoadListing "https://yacht-parts.ru/catalog/b/b1/" 1)
                  (log (snd (get_all_data default_fields_order
                               Shop.broken_first Shop.product_page_data
                               5 "" None)))).
  { vm_compute. tauto. }
  assert (H2 : listing_result Shop.broken_first
                              "https://yacht-parts.ru/catalog/b/b1/" 1
               = Raise (ProductLinksNotFound
                          "https://yacht-parts.ru/catalog/b/b1/?PAGEN_1=1")).
  { reflexivity. }
  split; [exact H1|]. split; [exact H2|].
  exact (proj1 (listing_failure_ends_run
                  default_fields_order Shop.broken_first
                  Shop.product_page_data 5 "" None _ _ _ H1 H2)).
Defined.

(** C2 as stated fails: the catalog has the categories B and A; the
    first listing page of B has no product list, that of A is in order.
    The run ends with the error of B, A is never loaded, and the ledger
    stays empty. *)
Lemma sibling_category_not_crawled :
  get_categories (Shop.broken_first "https://yacht-parts.ru/catalog/")
  = [("B; b1", Some "/catalog/b/b1/"); ("A; a1", Some "/catalog/a/a1/")]
  /\ listing_result Shop.broken_first "https://yacht-parts.ru/catalog/a/a1/" 1
     = Ok ([Some "/catalog/a/a1/p1/"], true)
  /\ get_all_data default_fields_order Shop.broken_first
                  Shop.product_page_data 5 "" None
     = (Failed (ProductLinksNotFound
                  "https://yacht-parts.ru/catalog/b/b1/?PAGEN_1=1"),
        {| collected_links := [];
           ledger_file := "";
           sink_file := None;
           log := [EvLoadCatalog "https://yacht-parts.ru/catalog/";
                   EvLoadListing "https://yacht-parts.ru/catalog/b/b1/" 1] |})
  /\ ~ In (EvLoadListing "https://yacht-parts.ru/catalog/a/a1/" 1)
          (log (snd (get_all_data default_fields_order Shop.broken_first
                                  Shop.product_page_data 5 "" None))).
Proof.
  split; [reflexivity|]. split; [reflexivity|].
  split; [vm_compute; reflexivity|].
  vm_compute. intros [H|[H|[]]]; discriminate.
Qed.

(** The product with two option groups gives no record, so the run
    writes no row and no entry for it, yet records its page and its
    category as done. *)
Example two_group_product_is_lost :
  OptionShop.product_page_data "https://yacht-parts.ru/catalog/a/a1/p1/"
  = Ok []
  /\ get_all_data default_fields_order Shop.one_category
                  OptionShop.product_page_data 5 "" None
     = (Finished,
        {| collected_links :=
             ["https://yacht-parts.ru/catalog/a/a1/?PAGEN_1=1";
              "https://yacht-parts.ru/catalog/a/a1/"];
           ledger_file :=
             ledger_text
               ["https://yacht-parts.ru/catalog/a/a1/?PAGEN_1=1";
                "https://yacht-parts.ru/catalog/a/a1/"];
           sink_file := None;
           log :=
             [EvLoadCatalog "https://yacht-parts.ru/catalog/";
              EvLoadListing "https://yacht-parts.ru/catalog/a/a1/" 1;
              EvLoadProduct (Some "/catalog/a/a1/p1/")
                         "https://yacht-parts.ru/catalog/a/a1/p1/";
              EvLedger UPage "https://yacht-parts.ru/catalog/a/a1/?PAGEN_1=1";
              EvLedger UCategory "https://yacht-parts.ru/catalog/a/a1/"] |}).
Proof. split; vm_compute; reflexivity. Qed.

(** ** [set_max_csv_size] *)

Section SizeLimit.

Local Open Scope Z_scope.

Lemma round_half_even_bounds (a b : Z) :
  0 <= a -> 0 < b ->
  0 <= Csv.round_half_even a b <= a / b + 1.
Proof.
  intros Ha Hb. unfold Csv.round_half_even.
  assert (Hq : 0 <= a / b) by (apply Z.div_pos; lia).
  destruct (2 * (a mod b) <? b); [lia|].
  destruct (b <? 2 * (a mod b)); [lia|].
  destruct (Z.even (a / b)); lia.
Qed.

Lemma ratio_log2_ten (n : Z) :
  1 <= n -> 0 <= Csv.ratio_log2 n 10 -> 10 * 2 ^ Csv.ratio_log2 n 10 <= n.
Proof.
  intros Hn. unfold Csv.ratio_log2.
  change (Z.log2 10) with 3.
  destruct (Z.leb_spec 0 (Z.log2 n - 3)) as [Hl|Hl].
  - destruct (Z.leb_spec (10 * 2 ^ (Z.log2 n - 3)) n) as [H|H]; [lia|].
    intros Hpos.
    assert (Hlog : 2 ^ Z.log2 n <= n) by (apply Z.log2_spec; lia).
    replace (Z.log2 n) with ((Z.log2 n - 3 - 1) + 4) in Hlog at 1 by lia.
    rewrite Z.pow_add_r in Hlog by lia.
    change (2 ^ 4) with 16 in Hlog.
    assert (0 < 2 ^ (Z.log2 n - 3 - 1)) by (apply Z.pow_pos_nonneg; lia).
    lia.
  - destruct (10 <=? n * 2 ^ (- (Z.log2 n - 3))); lia.
Qed.

Lemma int_div10_decreases (n : Z) :
  2 <= n < 2 ^ 1024 ->
  exists m, Csv.int_div10 n = Ok m /\ 0 <= m < n.
Proof.
  intros [Hn Hbig]. unfold Csv.int_div10.
  destruct (Z.eqb_spec n 0) as [->|_]; [lia|].
  rewrite Z.abs_eq by lia. rewrite Z.sgn_pos by lia.
  unfold Csv.float_of_ratio.
  set (L := Csv.ratio_log2 n 10).
  set (e := Z.max (L - 52) (-1074)).
  destruct (Z.leb_spec 0 e) as [He|He].
  - assert (HL : 52 <= L) by (unfold e in He; lia).
    assert (Hee : e = L - 52) by (unfold e; lia).
    pose proof (ratio_log2_ten n ltac:(lia) ltac:(fold L; lia)) as H10.
    fold L in H10.
    assert (Hpe : 0 < 2 ^ e) by (apply Z.pow_pos_nonneg; lia).
    assert (HpL : 2 ^ e <= 2 ^ L) by (apply Z.pow_le_mono_r; lia).
    pose proof (round_half_even_bounds n (10 * 2 ^ e) ltac:(lia) ltac:(lia))
      as [Hm0 Hm1].
    set (m := Csv.round_half_even n (10 * 2 ^ e)) in *.
    assert (Hdiv : n / (10 * 2 ^ e) * 2 ^ e <= n / 10).
    { rewrite <- Z.div_div by lia. rewrite Z.mul_comm.
      apply Z.mul_div_le. lia. }
    assert (Hq : 10 * (n / 10) <= n) by (apply Z.mul_div_le; lia).
    assert (Hval : m * 2 ^ e <= n / 10 + 2 ^ e) by nia.
    assert (Hlt : m * 2 ^ e < n).
    { assert (2 ^ L <= n / 10) by (apply Z.div_le_lower_bound; lia). lia. }
    destruct (Z.leb_spec (2 ^ 1024) (m * 2 ^ e)) as [Hov|Hov]; [lia|].
    cbn [andb]. exists (1 * Csv.int_of_float (m, e)).
    split; [reflexivity|].
    unfold Csv.int_of_float.
    destruct (Z.leb_spec 0 e); [|lia]. nia.
  - cbn [andb].
    set (m := Csv.round_half_even (n * 2 ^ (- e)) 10).
    exists (1 * Csv.int_of_float (m, e)). split; [reflexivity|].
    unfold Csv.int_of_float. destruct (Z.leb_spec 0 e); [lia|].
    assert (Hp : 0 < 2 ^ (- e)) by (apply Z.pow_pos_nonneg; lia).
    pose proof (round_half_even_bounds (n * 2 ^ (- e)) 10 ltac:(nia) ltac:(lia))
      as [Hm0 Hm1]. fold m in Hm0, Hm1.
    assert (H0 : 0 <= m / 2 ^ (- e)) by (apply Z.div_pos; lia).
    assert (Hp2 : 2 <= 2 ^ (- e)).
    { change 2 with (2 ^ 1) at 1. apply Z.pow_le_mono_r; lia. }
    assert (H1 : m / 2 ^ (- e) < n / 10 + 2).
    { apply Z.div_lt_upper_bound; [lia|].
      assert (n * 2 ^ (- e) / 10 <= 2 ^ (- e) * (n / 10) + 2 ^ (- e)).
      { apply Z.div_le_upper_bound; [lia|].
        assert (n <= 10 * (n / 10) + 9).
        { pose proof (Z.div_mod n 10 ltac:(lia)).
          pose proof (Z.mod_pos_bound n 10 ltac:(lia)). lia. }
        nia. }
      nia. }
    assert (Hq : 10 * (n / 10) <= n) by (apply Z.mul_div_le; lia).
    lia.
Qed.

Lemma set_max_csv_size_fuel (long_bits : Z) (fuel : nat) :
  2 <= long_bits ->
  forall size,
    0 <= size < 2 ^ 1024 -> (Z.to_nat size < fuel)%nat ->
    exists v, Csv.set_max_csv_size fuel long_bits size = Csv.Done v /\
              0 <= v <= size /\ v <= 2 ^ (long_bits - 1) - 1.
Proof.
  intros Hbits. induction fuel as [|fuel IH]; intros size Hsize Hfuel; [lia|].
  cbn [Csv.set_max_csv_size]. unfold Csv.field_size_limit.
  assert (Hmax : 2 <= 2 ^ (long_bits - 1)).
  { change 2 with (2 ^ 1) at 1. apply Z.pow_le_mono_r; lia. }
  destruct (Z.leb_spec (- 2 ^ (long_bits - 1)) size) as [_|Hneg]; [|lia].
  destruct (Z.leb_spec size (2 ^ (long_bits - 1) - 1)) as [Hfit|Hover].
  - cbn [andb]. exists size. split; [reflexivity|lia].
  - cbn [andb].
    destruct (int_div10_decreases size ltac:(lia)) as (m & Hm & Hlt).
    rewrite Hm.
    destruct (IH m ltac:(lia) ltac:(lia)) as (v & Hv & Hb).
    exists v. split; [exact Hv|lia].
Qed.

(** For every size from 0 to below 2^1024 the loop ends with a size that
    [csv.field_size_limit] accepts: each division makes the size strictly
    smaller. *)
Lemma set_max_csv_size_terminates (long_bits size : Z) :
  2 <= long_bits -> 0 <= size < 2 ^ 1024 ->
  exists fuel v,
    Csv.set_max_csv_size fuel long_bits size = Csv.Done v /\
    0 <= v <= size /\ v <= 2 ^ (long_bits - 1) - 1.
Proof.
  intros Hbits Hsize. exists (S (Z.to_nat size)).
  apply set_max_csv_size_fuel; [exact Hbits|exact Hsize|lia].
Qed.

End SizeLimit.

(** C9 on the code. For the size 10^310 the first call of
    [csv.field_size_limit] raises [OverflowError], and so does the
    division in the handler, [10^309] being too large for a float: the
    function ends with that error and no size is set, with a [long] of
    64 bits and with one of 32 bits. *)
Theorem set_max_csv_size_overflow (fuel : nat) :
  Csv.set_max_csv_size (S fuel) 64 (10 ^ 310) = Csv.Threw OverflowError
  /\ Csv.set_max_csv_size (S fuel) 32 (10 ^ 310) = Csv.Threw OverflowError.
Proof. split; vm_compute; reflexivity. Qed.

(** The call made by [get_all_data] returns at once where [long] has 64
    bits and after ten divisions where it has 32. *)
Example set_max_csv_size_maxsize :
  Csv.set_max_csv_size 1 64 Csv.sys_maxsize = Csv.Done (2 ^ 63 - 1)%Z
  /\ Csv.set_max_csv_size 11 32 Csv.sys_maxsize = Csv.Done 922337203%Z.
Proof. split; vm_compute; reflexivity. Qed.

(** * Further properties of the code *)

(** ** Links *)

(** X1. A relative link that is not empty and does not start with a
    slash gives the same absolute link with and without a leading slash:
    the base link followed by it. *)
Theorem get_absolute_link_leading_slash (c : ascii) (s : string) :
  c <> slash ->
  get_absolute_link (Some (String slash (String c s)))
  = Ok (base_link ++ String c s)%string
  /\ get_absolute_link (Some (String c s))
     = Ok (base_link ++ String c s)%string.
Proof.
  intros Hc.
  assert (Hlast : last_char base_link = Some slash) by reflexivity.
  unfold get_absolute_link, get_absolute_link_from. rewrite Hlast.
  change (Ascii.eqb slash slash) with true. cbv iota.
  destruct (Ascii.eqb_spec c slash) as [->|_]; [contradiction|].
  split; reflexivity.
Qed.

Lemma get_absolute_link_leading_slash_witness :
  "c"%char <> slash
  /\ get_absolute_link (Some "/catalog/") = Ok "https://yacht-parts.ru/catalog/"
  /\ get_absolute_link (Some "catalog/") = Ok "https://yacht-parts.ru/catalog/".
Proof.
  split; [discriminate|].
  exact (get_absolute_link_leading_slash "c"%char "atalog/"
           ltac:(discriminate)).
Defined.

Lemma string_app_cancel (s a b : string) :
  (s ++ a)%string = (s ++ b)%string -> a = b.
Proof.
  induction s as [|c s IH]; simpl; intros H; [exact H|].
  inversion H. now apply IH.
Qed.

Lemma string_length_app (a b : string) :
  String.length (a ++ b)%string = String.length a + String.length b.
Proof. induction a as [|c a IH]; simpl; [reflexivity|now rewrite IH]. Qed.

Lemma to_uint_not_nil (n : nat) : Nat.to_uint n <> Nil.
Proof.
  intros H. pose proof (DecimalNat.Unsigned.of_to n) as Hn.
  rewrite H in Hn. simpl in Hn. subst n. discriminate.
Qed.

Lemma str_of_nat_inj (n m : nat) : str_of_nat n = str_of_nat m -> n = m.
Proof.
  unfold str_of_nat. intros H.
  apply DecimalNat.Unsigned.to_uint_inj.
  pose proof (NilZero.usu _ (to_uint_not_nil n)) as Hn.
  pose proof (NilZero.usu _ (to_uint_not_nil m)) as Hm.
  rewrite H in Hn. rewrite Hn in Hm. now inversion Hm.
Qed.

(** X2. The pages of a category have pairwise distinct links, and none
    of them is the link of the category: the ledger keys of a category
    and of its pages never coincide. *)
Theorem get_pagination_page_link_distinct (link : string) (n m : nat) :
  (get_pagination_page_link link n = get_pagination_page_link link m -> n = m)
  /\ get_pagination_page_link link n <> link.
Proof.
  unfold get_pagination_page_link. split.
  - intros H. apply string_app_cancel in H. apply string_app_cancel in H.
    now apply str_of_nat_inj.
  - intros H. apply (f_equal String.length) in H.
    rewrite !string_length_app in H. simpl in H. lia.
Qed.

(** ** [get_product_links] *)

(** X3. [get_product_links] raises [ProductLinksNotFound] exactly when
    neither layout of the product list is found or the list found has no
    product title in either form, and the error then carries the link of
    the page. *)
Theorem product_links_not_found (link l : string) (soup : node) :
  get_product_links link soup = Raise (ProductLinksNotFound l) <->
  l = link /\
  (first_found (find "div" "display_list" soup)
               (find "table" "module_products_list" soup) = None
   \/ exists product_list,
       first_found (find "div" "display_list" soup)
                   (find "table" "module_products_list" soup)
       = Some product_list /\
       find_all "div" "item-title" product_list = [] /\
       find_all "td" "item-name-cell" product_list = []).
Proof.
  unfold get_product_links.
  destruct (first_found _ _) as [product_list|].
  - destruct (find_all "div" "item-title" product_list) as [|t ts] eqn:Ht;
      cbn [first_nonempty].
    + destruct (find_all "td" "item-name-cell" product_list) as [|t ts] eqn:Hc.
      * split.
        -- intros H. inversion H. split; [reflexivity|]. right.
           exists product_list. auto.
        -- intros [-> _]. reflexivity.
      * split.
        -- destruct (find "div" "module-pagination" soup) as [pg|];
             [|discriminate].
           destruct (find "li" "flex-nav-next" pg) as [nb|]; [|discriminate].
           destruct (classes nb); discriminate.
        -- intros [_ [H|(pl & Hpl & _ & H)]]; [discriminate|].
           inversion Hpl; subst pl. rewrite Hc in H. discriminate.
    + split.
      * destruct (find "div" "module-pagination" soup) as [pg|];
          [|discriminate].
        destruct (find "li" "flex-nav-next" pg) as [nb|]; [|discriminate].
        destruct (classes nb); discriminate.
      * intros [_ [H|(pl & Hpl & H & _)]]; [discriminate|].
        inversion Hpl; subst pl. rewrite Ht in H. discriminate.
  - split.
    + intros H. inversion H. auto.
    + intros [-> _]. reflexivity.
Qed.

(** X4. [get_product_links] ends with an [AttributeError], which
    nothing catches, exactly when the product list and its titles are
    found and the pagination control is there without its "next"
    element. *)
Theorem pagination_without_next_raises (link : string) (soup : node) :
  get_product_links link soup = Raise AttributeError <->
  exists product_list paginator,
    first_found (find "div" "display_list" soup)
                (find "table" "module_products_list" soup)
    = Some product_list /\
    first_nonempty (find_all "div" "item-title" product_list)
                   (find_all "td" "item-name-cell" product_list) <> [] /\
    find "div" "module-pagination" soup = Some paginator /\
    find "li" "flex-nav-next" paginator = None.
Proof.
  unfold get_product_links. split.
  - destruct (first_found _ _) as [product_list|]; [|discriminate].
    destruct (first_nonempty _ _) as [|t ts] eqn:Ht; [discriminate|].
    destruct (find "div" "module-pagination" soup) as [pg|]; [|discriminate].
    destruct (find "li" "flex-nav-next" pg) as [nb|] eqn:Hnb.
    + destruct (classes nb); discriminate.
    + intros _. exists product_list, pg.
      split; [reflexivity|]. split; [rewrite Ht; discriminate|].
      split; [reflexivity|exact Hnb].
  - intros (product_list & pg & Hl & Ht & Hpg & Hnb). rewrite Hl.
    destruct (first_nonempty _ _); [contradiction|].
    rewrite Hpg, Hnb. reflexivity.
Qed.

Lemma pagination_without_next_raises_witness :
  get_product_links "l" (Shop.listing ["/p1"]
                           [Shop.div "module-pagination" []])
  = Raise AttributeError.
Proof.
  apply (proj2 (pagination_without_next_raises
                  "l" (Shop.listing ["/p1"]
                         [Shop.div "module-pagination" []]))).
  exists (Shop.div "display_list"
                   [Shop.div "item-title" [Shop.a "/p1" "product"]]),
         (Shop.div "module-pagination" []).
  split; [reflexivity|]. split; [discriminate|]. split; reflexivity.
Defined.

(** ** [get_categories] *)

Lemma collect_categories_without_subs (cats : list node) (c : node) :
  In c cats -> has_sub_categories c = false ->
  forall d, collect_categories cats d = [].
Proof.
  induction cats as [|c0 cats IH]; intros Hin Hc d; [contradiction|].
  cbn [collect_categories].
  destruct (find_all "li" "sect" c0) as [|s subs] eqn:Hsubs; [reflexivity|].
  destruct Hin as [->|Hin].
  - unfold has_sub_categories in Hc. rewrite Hsubs in Hc. discriminate.
  - now apply IH.
Qed.

Lemma sorted_categories (soup : node) (c : node) :
  In c (main_categories_of soup) ->
  is_normal c || is_deferred c = true ->
  In c (filter is_normal (main_categories_of soup)
        ++ filter is_deferred (main_categories_of soup)).
Proof.
  intros Hin Hb. apply in_or_app. apply orb_true_iff in Hb.
  destruct Hb as [Hb|Hb]; [left|right]; apply filter_In; auto.
Qed.

Lemma get_categories_unfold (soup : node) :
  get_categories soup
  = collect_categories
      (filter is_normal (main_categories_of soup)
       ++ filter is_deferred (main_categories_of soup)) [].
Proof.
  unfold get_categories, main_categories_of.
  destruct (find "div" "catalog_section_list" soup) as [section|];
    [|reflexivity].
  destruct (find_all "div" "section_item" section) as [|m ms] eqn:Hm;
    [reflexivity|].
  now rewrite sort_main_categories_filter.
Qed.

(** X5. When one main category whose link is read has no sub-category,
    the whole mapping is empty, whatever the other categories hold. *)
Theorem get_categories_all_or_nothing (soup c : node) :
  In c (main_categories_of soup) ->
  is_normal c || is_deferred c = true ->
  has_sub_categories c = false ->
  get_categories soup = [].
Proof.
  intros Hin Hb Hc. rewrite get_categories_unfold.
  apply collect_categories_without_subs with c; [|exact Hc].
  now apply sorted_categories.
Qed.

Lemma get_categories_all_or_nothing_witness :
  In (Shop.section_item "/catalog/b/" "B" [])
     (main_categories_of
        (Shop.catalog
           [Shop.section_item "/catalog/a/" "A" [("/catalog/a/x/", "x")];
            Shop.section_item "/catalog/b/" "B" []]))
  /\ get_categories
       (Shop.catalog
          [Shop.section_item "/catalog/a/" "A" [("/catalog/a/x/", "x")];
           Shop.section_item "/catalog/b/" "B" []]) = [].
Proof.
  assert (H : In (Shop.section_item "/catalog/b/" "B" [])
                 (main_categories_of
                    (Shop.catalog
                       [Shop.section_item "/catalog/a/" "A"
                                          [("/catalog/a/x/", "x")];
                        Shop.section_item "/catalog/b/" "B" []]))).
  { vm_compute. tauto. }
  split; [exact H|].
  apply (get_categories_all_or_nothing _ _ H); reflexivity.
Defined.

Lemma dict_set_keys {V} (k : string) (v : V) (d : dict V) :
  map fst (dict_set k v d)
  = if str_in k (map fst d) then map fst d else map fst d ++ [k].
Proof.
  induction d as [|[k' v'] d IH]; simpl; [reflexivity|].
  destruct (String.eqb_spec k k') as [->|Hne]; simpl; [reflexivity|].
  rewrite IH. unfold str_in. now destruct (existsb (String.eqb k) (map fst d)).
Qed.

Lemma dict_set_NoDup {V} (k : string) (v : V) (d : dict V) :
  NoDup (map fst d) -> NoDup (map fst (dict_set k v d)).
Proof.
  intros H. rewrite dict_set_keys.
  destruct (str_in k (map fst d)) eqn:Hin; [exact H|].
  apply NoDup_app; [exact H|repeat constructor; simpl; tauto|].
  intros x Hx [<-|[]]. apply str_in_In in Hx. congruence.
Qed.

Lemma dict_set_In {V} (k : string) (v : V) (d : dict V) (e : string * V) :
  In e (dict_set k v d) -> e = (k, v) \/ In e d.
Proof.
  induction d as [|[k' v'] d IH]; simpl.
  - intros [<-|[]]. now left.
  - destruct (String.eqb k k').
    + intros [<-|H]; auto.
    + intros [<-|H]; auto. destruct (IH H); auto.
Qed.

Lemma fold_add_sub_category_inv
      (P : dict (option string) -> Prop) (main_name : string) :
  (forall k v d, P d -> P (dict_set k v d)) ->
  forall subs d, P d -> P (fold_left (add_sub_category main_name) subs d).
Proof.
  intros Hset subs. induction subs as [|s subs IH]; intros d Hd; simpl.
  - exact Hd.
  - apply IH. unfold add_sub_category. destruct (find_tag "a" s); auto.
Qed.

(** X6. The mapping returned by [get_categories] never holds a key
    twice. *)
Theorem get_categories_keys_distinct (soup : node) :
  NoDup (map fst (get_categories soup)).
Proof.
  rewrite get_categories_unfold.
  generalize (filter is_normal (main_categories_of soup)
              ++ filter is_deferred (main_categories_of soup)).
  intros cats.
  assert (H : forall d, NoDup (map fst d) ->
                        NoDup (map fst (collect_categories cats d))).
  { induction cats as [|c cats IH]; intros d Hd; cbn [collect_categories].
    - exact Hd.
    - destruct (find_all "li" "sect" c) as [|s subs]; [constructor|].
      apply IH.
      apply (fold_add_sub_category_inv (fun d => NoDup (map fst d)));
        [|exact Hd].
      intros k v d0. apply dict_set_NoDup. }
  apply H. constructor.
Qed.

Lemma fold_add_sub_category_In (c : node) (subs : list node) :
  forall d e,
    In e (fold_left (add_sub_category (main_name_of c)) subs d) ->
    In e d \/
    In e (flat_map (fun sub_category =>
                      match find_tag "a" sub_category with
                      | None => []
                      | Some category_data =>
                          [(join "; " [main_name_of c;
                                       get_text_strip category_data],
                            attr_get "href" category_data)]
                      end) subs).
Proof.
  induction subs as [|s subs IH]; intros d e He; simpl in *; [now left|].
  apply IH in He. destruct He as [He|He].
  - unfold add_sub_category in He. destruct (find_tag "a" s) as [a|].
    + apply dict_set_In in He. destruct He as [->|He]; [|now left].
      right. simpl. now left.
    + now left.
  - right. apply in_or_app. now right.
Qed.

(** X7. Every entry of the mapping was assigned for a sub-category of a
    main category whose link could be read: a main category without a
    readable link contributes nothing. *)
Theorem get_categories_entries_from_sorted
        (soup : node) (e : string * option string) :
  In e (get_categories soup) ->
  exists c,
    In c (main_categories_of soup) /\
    is_normal c || is_deferred c = true /\
    In e (category_writes c).
Proof.
  rewrite get_categories_unfold.
  assert (Hsub : forall c,
             In c (filter is_normal (main_categories_of soup)
                   ++ filter is_deferred (main_categories_of soup)) ->
             In c (main_categories_of soup) /\
             is_normal c || is_deferred c = true).
  { intros c Hc. apply in_app_or in Hc.
    destruct Hc as [Hc|Hc]; apply filter_In in Hc; destruct Hc as [Hc Hb];
      rewrite Hb; split; auto using orb_true_r. }
  revert Hsub.
  generalize (filter is_normal (main_categories_of soup)
              ++ filter is_deferred (main_categories_of soup)).
  intros cats Hsub.
  assert (H : forall d,
             In e (collect_categories cats d) ->
             In e d \/ exists c, In c cats /\ In e (category_writes c)).
  { clear Hsub. induction cats as [|c cats IH]; intros d He;
      cbn [collect_categories] in He.
    - now left.
    - destruct (find_all "li" "sect" c) as [|s subs] eqn:Hsubs;
        [contradiction|].
      apply IH in He. destruct He as [He|(c' & Hc' & He)].
      + apply fold_add_sub_category_In in He. destruct He as [He|He].
        * now left.
        * right. exists c. split; [now left|].
          unfold category_writes. rewrite Hsubs. exact He.
      + right. exists c'. split; [now right|exact He]. }
  intros He. apply H in He. destruct He as [[]|(c & Hc & He)].
  exists c. destruct (Hsub c Hc) as [H1 H2]. auto.
Qed.

Lemma get_categories_entries_from_sorted_witness :
  In ("B; w", Some "/catalog/b/w/") (get_categories Shop.distinct_names)
  /\ exists c,
      In c (main_categories_of Shop.distinct_names) /\
      is_normal c || is_deferred c = true /\
      In ("B; w", Some "/catalog/b/w/") (category_writes c).
Proof.
  assert (H : In ("B; w", Some "/catalog/b/w/")
                 (get_categories Shop.distinct_names)).
  { vm_compute. tauto. }
  split; [exact H|].
  exact (get_categories_entries_from_sorted Shop.distinct_names _ H).
Defined.

(** ** [get_specific_data] *)

Lemma in_list_ascii_app (c : ascii) (a b : string) :
  In c (list_ascii_of_string (a ++ b)%string) <->
  In c (list_ascii_of_string a) \/ In c (list_ascii_of_string b).
Proof.
  induction a as [|x a IH]; simpl; [tauto|]. rewrite IH. tauto.
Qed.

(** A replacement by the empty string brings in no character. *)
Lemma replace_from_chars (old : string) (c : ascii) (s : string) :
  forall skip,
    In c (list_ascii_of_string (replace_from old "" skip s)) ->
    In c (list_ascii_of_string s).
Proof.
  induction s as [|x s IH]; intros skip; cbn [replace_from]; [tauto|].
  destruct skip as [|k].
  - destruct (prefix old (String x s)).
    + simpl. intros H. right. eapply IH. exact H.
    + simpl. intros [H|H]; [now left|]. right. eapply IH. exact H.
  - simpl. intros H. right. eapply IH. exact H.
Qed.

Lemma replace_chars (old : string) (c : ascii) (s : string) :
  old <> "" ->
  In c (list_ascii_of_string (replace old "" s)) ->
  In c (list_ascii_of_string s).
Proof.
  intros Hold. unfold replace. destruct old; [contradiction|].
  apply replace_from_chars.
Qed.

(** X8. The price returned by [get_specific_data] holds no space and no
    dot. *)
Theorem price_without_space_and_dot (soup : node) (data : record) (p : string) :
  get_specific_data soup = Ok data ->
  dict_get "price" data = Some (Some p) ->
  ~ In " "%char (list_ascii_of_string p) /\
  ~ In "."%char (list_ascii_of_string p).
Proof.
  unfold get_specific_data.
  destruct (find "div" "item_main_info" soup) as [main_info|]; [|discriminate].
  destruct (find "div" "top_info" main_info) as [top_info|]; [|discriminate].
  destruct (find "div" "middle_info wrap_md" main_info) as [middle_info|];
    [|discriminate].
  intros H. inversion H; subst data; clear H.
  change (dict_get "price"
            [("article", article_of top_info); ("price", price_of middle_info);
             ("image_links", Some (join "," (image_links_of main_info)))])
    with (Some (price_of middle_info)).
  unfold price_of.
  destruct (find "div" "price" middle_info) as [price_tag|]; [|discriminate].
  intros H. inversion H; subst p; clear H. unfold normalise_price.
  split; intros Hin.
  - apply replace_chars in Hin; [|discriminate].
    apply replace_chars in Hin; [|discriminate].
    now apply (replace_char_removes " "%char) in Hin.
  - apply replace_chars in Hin; [|discriminate].
    now apply (replace_char_removes "."%char) in Hin.
Qed.

Lemma price_without_space_and_dot_witness :
  get_specific_data (Shop.priced "от 1 234.56 руб.")
  = Ok [("article", Some "A-1"); ("price", Some "от123456");
        ("image_links", Some "")]
  /\ ~ In " "%char (list_ascii_of_string "от123456")
  /\ ~ In "."%char (list_ascii_of_string "от123456").
Proof.
  split; [reflexivity|].
  exact (price_without_space_and_dot
           (Shop.priced "от 1 234.56 руб.") _ "от123456" eq_refl eq_refl).
Defined.

(** X9. Every image link collected by [get_specific_data] is an absolute
    link, and the field [image_links] is these links joined by commas. *)
Theorem image_links_absolute (soup main_info : node) (data : record) :
  find "div" "item_main_info" soup = Some main_info ->
  get_specific_data soup = Ok data ->
  dict_get "image_links" data
  = Some (Some (join "," (image_links_of main_info)))
  /\ Forall (fun l => is_absolute_url l = true) (image_links_of main_info).
Proof.
  intros Hmain. unfold get_specific_data. rewrite Hmain.
  destruct (find "div" "top_info" main_info) as [top_info|]; [|discriminate].
  destruct (find "div" "middle_info wrap_md" main_info) as [middle_info|];
    [|discriminate].
  intros H. inversion H; subst data; clear H. split; [reflexivity|].
  unfold image_links_of.
  destruct (find "div" "img_wrapper" main_info) as [w|]; [|constructor].
  destruct (find "div" "slides" w) as [t|]; [|constructor].
  apply Forall_forall. intros l Hl. apply in_flat_map in Hl.
  destruct Hl as (image & _ & Hl).
  destruct (attr_get "href" image) as [[|c rel]|]; try contradiction.
  destruct (get_absolute_link (Some (String c rel))) as [l'|e] eqn:Habs;
    [|contradiction].
  destruct Hl as [<-|[]].
  apply absolute_of_prefix. eapply get_absolute_link_prefix. exact Habs.
Qed.

(** X10. [get_specific_data] fails, with [AttributeError], exactly when
    the main block of the product, its top block or its middle block is
    missing; a missing article, price or gallery is no failure. *)
Theorem get_specific_data_failure (soup : node) (e : exn) :
  get_specific_data soup = Raise e <->
  e = AttributeError /\
  (find "div" "item_main_info" soup = None \/
   exists main_info,
     find "div" "item_main_info" soup = Some main_info /\
     (find "div" "top_info" main_info = None \/
      find "div" "middle_info wrap_md" main_info = None)).
Proof.
  unfold get_specific_data.
  destruct (find "div" "item_main_info" soup) as [main_info|].
  - destruct (find "div" "top_info" main_info) as [top_info|] eqn:Htop.
    + destruct (find "div" "middle_info wrap_md" main_info)
        as [middle_info|] eqn:Hmid.
      * split; [discriminate|].
        intros [_ [H|(m & Hm & [H|H])]]; try discriminate;
          inversion Hm; subst m; congruence.
      * split.
        -- intros H. inversion H. split; [reflexivity|]. right. eauto.
        -- intros [-> _]. reflexivity.
    + split.
      * intros H. inversion H. split; [reflexivity|]. right. eauto.
      * intros [-> _]. reflexivity.
  - split.
    + intros H. inversion H. auto.
    + intros [-> _]. reflexivity.
Qed.

Lemma image_links_absolute_witness :
  get_specific_data product_with_gallery
  = Ok [("article", None); ("price", None);
        ("image_links",
         Some "https://yacht-parts.ru/upload/1.jpg,https://yacht-parts.ru/upload/2.jpg")]
  /\ Forall (fun l => is_absolute_url l = true)
            ["https://yacht-parts.ru/upload/1.jpg";
             "https://yacht-parts.ru/upload/2.jpg"].
Proof.
  split; [reflexivity|].
  exact (proj2 (image_links_absolute
                  product_with_gallery
                  (Shop.div "item_main_info"
                     [Shop.div "top_info" [];
                      Tag "div" (Some ["middle_info"; "wrap_md"]) [] [];
                      Shop.div "img_wrapper"
                        [Shop.div "slides"
                           [Shop.a "/upload/1.jpg" "";
                            Shop.a "" "";
                            Tag "a" None [] [];
                            Shop.a "upload/2.jpg" ""]]])
                  _ eq_refl eq_refl)).
Defined.

(** ** [get_general_data] *)

Lemma split_on_nonempty (sep : ascii) (s : string) : split_on sep s <> [].
Proof.
  destruct s as [|c s]; simpl; [discriminate|].
  destruct (Ascii.eqb c sep); [discriminate|].
  destruct (split_on sep s); discriminate.
Qed.

Lemma split_on_app (sep : ascii) (a b : string) :
  split_on sep (a ++ String sep b)%string = split_on sep a ++ split_on sep b.
Proof.
  induction a as [|c a IH]; simpl.
  - now rewrite Ascii.eqb_refl.
  - destruct (Ascii.eqb c sep); [now rewrite IH|].
    rewrite IH. pose proof (split_on_nonempty sep a) as Hne.
    destruct (split_on sep a); [contradiction|reflexivity].
Qed.

Lemma index_of_app_fresh (x : string) (l1 l2 : list string) :
  ~ In x l1 ->
  index_of x (l1 ++ l2)
  = match index_of x l2 with
    | Some i => Some (List.length l1 + i)
    | None => None
    end.
Proof.
  induction l1 as [|y l1 IH]; intros Hn; simpl.
  - now destruct (index_of x l2).
  - destruct (String.eqb_spec x y) as [->|_]; [exfalso; apply Hn; now left|].
    rewrite IH by (intros H; apply Hn; now right).
    now destruct (index_of x l2).
Qed.

(** X11. Without a brand image the brand is read from the address: it is
    the part that follows the first part [other_brands], and may be the
    empty string. *)
Theorem brand_from_url_next_part (a t brand : string) (more : list string) :
  ~ In "other_brands" (split_on slash a) ->
  split_on slash t = brand :: more ->
  brand_from_url (a ++ "/other_brands/" ++ t) = Ok (Some brand).
Proof.
  intros Hfresh Ht. unfold brand_from_url.
  change (a ++ "/other_brands/" ++ t)%string
    with (a ++ String slash ("other_brands" ++ String slash t))%string.
  rewrite split_on_app, split_on_app.
  change (split_on slash "other_brands") with ["other_brands"].
  rewrite index_of_app_fresh by exact Hfresh.
  change (index_of "other_brands" (["other_brands"] ++ split_on slash t))
    with (Some 0).
  cbv iota beta.
  rewrite nth_error_app2 by lia.
  replace (List.length (split_on slash a) + 0 + 1
           - List.length (split_on slash a)) with 1 by lia.
  rewrite Ht. reflexivity.
Qed.

Lemma brand_from_url_next_part_witness :
  ~ In "other_brands" (split_on slash "https://yacht-parts.ru/catalog")
  /\ split_on slash "acme/p1/" = ["acme"; "p1"; ""]
  /\ brand_from_url "https://yacht-parts.ru/catalog/other_brands/acme/p1/"
     = Ok (Some "acme").
Proof.
  assert (H : ~ In "other_brands"
                   (split_on slash "https://yacht-parts.ru/catalog")).
  { vm_compute. intros [H|[H|[H|[H|[]]]]]; discriminate. }
  split; [exact H|]. split; [reflexivity|].
  exact (brand_from_url_next_part "https://yacht-parts.ru/catalog"
                                  "acme/p1/" "acme" ["p1"; ""] H eq_refl).
Defined.

(** X12. When [other_brands] is the last part of the address, and the
    first of that name, reading the brand from the address ends with an
    [IndexError]; only [ValueError] is caught there. *)
Theorem brand_from_url_last_part (a : string) :
  ~ In "other_brands" (split_on slash a) ->
  brand_from_url (a ++ "/other_brands") = Raise IndexError.
Proof.
  intros Hfresh. unfold brand_from_url.
  change (a ++ "/other_brands")%string
    with (a ++ String slash "other_brands")%string.
  rewrite split_on_app.
  change (split_on slash "other_brands") with ["other_brands"].
  rewrite index_of_app_fresh by exact Hfresh.
  change (index_of "other_brands" ["other_brands"]) with (Some 0).
  cbv iota beta.
  assert (Hnth : nth_error (split_on slash a ++ ["other_brands"])
                           (List.length (split_on slash a) + 0 + 1) = None).
  { apply nth_error_None. rewrite length_app. simpl. lia. }
  rewrite Hnth. reflexivity.
Qed.

Lemma brand_from_url_last_part_witness :
  ~ In "other_brands" (split_on slash "https://yacht-parts.ru/catalog")
  /\ brand_from_url "https://yacht-parts.ru/catalog/other_brands"
     = Raise IndexError.
Proof.
  assert (H : ~ In "other_brands"
                   (split_on slash "https://yacht-parts.ru/catalog")).
  { vm_compute. intros [H|[H|[H|[H|[]]]]]; discriminate. }
  split; [exact H|].
  exact (brand_from_url_last_part "https://yacht-parts.ru/catalog" H).
Defined.

Section GeneralDataFacts.

Variable format_table : node -> option string.

(** X13. What [get_general_data] returns is the empty dictionary, exactly
    when the main block of the product is missing, or a record with the
    five general fields in which [product_link] is the current address. *)
Theorem get_general_data_record (current_url : string) (soup : node)
        (data : record) :
  get_general_data format_table current_url soup = Ok data ->
  (find "div" "item_main_info" soup = None /\ data = []) \/
  (find "div" "item_main_info" soup <> None /\
   dict_keys data = ["brand"; "name"; "main_description";
                     "preview_description"; "product_link"] /\
   dict_get "product_link" data = Some (Some current_url)).
Proof.
  unfold get_general_data.
  destruct (find "div" "item_main_info" soup) as [main_info|].
  - destruct (find "div" "top_info" main_info) as [top_info|]; [|discriminate].
    destruct (brand_of current_url top_info) as [brand|e]; [|discriminate].
    destruct (find "div" "middle_info wrap_md" main_info) as [middle_info|];
      [|discriminate].
    intros H. inversion H; subst data. right.
    split; [discriminate|]. split; reflexivity.
  - intros H. inversion H. now left.
Qed.

(** X14. When the main block is there but its top block or its middle
    block is missing, [get_general_data] does not return the empty
    dictionary: it ends with an error, the look-ups that fail standing
    after the [try] block. *)
Theorem get_general_data_unprotected (current_url : string)
        (soup main_info : node) :
  find "div" "item_main_info" soup = Some main_info ->
  find "div" "top_info" main_info = None \/
  find "div" "middle_info wrap_md" main_info = None ->
  exists e,
    get_general_data format_table current_url soup = Raise e /\
    (e = AttributeError \/ e = IndexError).
Proof.
  intros Hmain Hmissing. unfold get_general_data. rewrite Hmain.
  destruct (find "div" "top_info" main_info) as [top_info|].
  - destruct Hmissing as [H|Hmid]; [discriminate|]. rewrite Hmid.
    unfold brand_of, brand_from_url.
    destruct (find_tag "img" top_info); [eauto|].
    destruct (index_of "other_brands" (split_on slash current_url));
      [|eauto].
    destruct (nth_error _ _); eauto.
  - eauto.
Qed.

End GeneralDataFacts.

Lemma get_general_data_record_witness :
  get_general_data (fun _ => Some "a  b") "https://yacht-parts.ru/p/"
                   product_with_description
  = Ok [("brand", Some "Acme"); ("name", Some "Anchor");
        ("main_description",
         Some (join newline ["first"; "a  b"; "last"]));
        ("preview_description", Some "short");
        ("product_link", Some "https://yacht-parts.ru/p/")]
  /\ dict_keys [("brand", Some "Acme"); ("name", Some "Anchor");
                ("main_description",
                 Some (join newline ["first"; "a  b"; "last"]));
                ("preview_description", Some "short");
                ("product_link", Some "https://yacht-parts.ru/p/")]
     = ["brand"; "name"; "main_description"; "preview_description";
        "product_link"].
Proof.
  split; [reflexivity|].
  destruct (get_general_data_record
              (fun _ => Some "a  b") "https://yacht-parts.ru/p/"
              product_with_description _ eq_refl)
    as [[H _]|(_ & H & _)]; [discriminate H|exact H].
Defined.

Lemma get_general_data_unprotected_witness :
  find "div" "top_info"
       (Shop.div "item_main_info"
          [Tag "div" (Some ["middle_info"; "wrap_md"]) [] []]) = None
  /\ exists e,
      get_general_data (fun _ => None) "https://yacht-parts.ru/p/"
                       product_without_top = Raise e /\
      (e = AttributeError \/ e = IndexError).
Proof.
  split; [reflexivity|].
  apply (get_general_data_unprotected
           (fun _ => None) "https://yacht-parts.ru/p/" product_without_top
           (Shop.div "item_main_info"
              [Tag "div" (Some ["middle_info"; "wrap_md"]) [] []])).
  - reflexivity.
  - left. reflexivity.
Defined.

(** ** [iterate_options] and [get_product_page_data] *)

Section EnumeratorMore.

Variable page : Type.
Variable elem : Type.
Variable find_li : elem -> page -> list elem.
Variable get_attribute : string -> elem -> page -> option string.
Variable click : elem -> page -> click_outcome * page.
Variable page_source : page -> node.
Variable find_options_groups : page -> option (list elem).
Variable general_data_of : page -> record.

Local Abbreviation iterate :=
  (iterate_options page elem find_li get_attribute click).
Local Abbreviation btns_of := (options_btns page elem find_li get_attribute).
Local Abbreviation selected :=
  (selected_options page elem find_li get_attribute).
Local Abbreviation page_data_of :=
  (get_product_page_data page elem find_li get_attribute click page_source
                         find_options_groups general_data_of).

(** X15. A call of [iterate_options] ends with [IndexError] when [level]
    is not the index of a group, in particular on an empty list of groups,
    and returns otherwise. *)
Theorem iterate_options_index (groups : list elem) (level : nat)
        (s : gen_state page elem) :
  (List.length groups <= level -> iterate groups level s = Raise IndexError)
  /\ (level < List.length groups -> exists s', iterate groups level s = Ok s').
Proof.
  split; intros Hl; unfold iterate_options.
  - replace (List.length groups - level) with 0 by lia. reflexivity.
  - destruct (iterate_options_rec_spec
                page elem find_li get_attribute click
                (List.length groups - level) groups level s)
      as (s' & _ & _ & _ & Hrun & _); [lia|lia|].
    eauto.
Qed.

(** X16. A click that fails does not keep its button from yielding: on a
    driver whose clicks leave the page as it is, a call at the last level
    yields, for every visited button, the same combination, the one that
    was selected before the call. *)
Theorem failed_clicks_repeat_selection
        (groups : list elem) (level : nat) (group : elem)
        (s : gen_state page elem) :
  (forall btn p, snd (click btn p) = p) ->
  nth_error groups level = Some group ->
  level = List.length groups - 1 ->
  exists s',
    iterate groups level s = Ok s' /\
    cur s' = cur s /\
    yielded s'
    = yielded s
      ++ repeat (selected groups (cur s), cur s)
                (List.length (btns_of group (cur s))).
Proof.
  intros Hstuck Hg Hleaf.
  assert (Hlt : level < List.length groups).
  { apply nth_error_Some. congruence. }
  unfold iterate_options.
  replace (List.length groups - level) with 1 by lia.
  cbn [iterate_options_rec]. rewrite Hg.
  rewrite <- Hleaf, Nat.eqb_refl.
  generalize (btns_of group (cur s)). intros btns.
  assert (H : forall p ys cs,
             exists s',
               for_each
                 (fun s0 btn =>
                    Ok {| cur := cur (do_click page elem click level btn s0);
                          yielded :=
                            yielded (do_click page elem click level btn s0)
                            ++ [(selected groups
                                   (cur (do_click page elem click level btn s0)),
                                 cur (do_click page elem click level btn s0))];
                          clicks :=
                            clicks (do_click page elem click level btn s0) |})
                 btns {| cur := p; yielded := ys; clicks := cs |} = Ok s' /\
               cur s' = p /\
               yielded s'
               = ys ++ repeat (selected groups p, p) (List.length btns)).
  { induction btns as [|btn btns IH]; intros p ys cs.
    - eexists. split; [reflexivity|]. split; [reflexivity|].
      simpl. now rewrite app_nil_r.
    - cbn [for_each do_click cur yielded clicks]. rewrite Hstuck.
      destruct (IH p (ys ++ [(selected groups p, p)])
                   (cs ++ [(level, btn)])) as (s' & Hrun & Hc & Hy).
      exists s'. split; [exact Hrun|]. split; [exact Hc|].
      rewrite Hy, <- app_assoc. reflexivity. }
  destruct s as [p ys cs]. exact (H p ys cs).
Qed.

Lemma dict_get_set {V} (k : string) (v : V) (d : dict V) :
  dict_get k (dict_set k v d) = Some v.
Proof.
  induction d as [|[k' v'] d IH]; simpl.
  - now rewrite String.eqb_refl.
  - destruct (String.eqb k k') eqn:E; simpl.
    + now rewrite String.eqb_refl.
    + now rewrite E.
Qed.

Lemma variant_record_options (general : record) (p : page)
      (o : res (option string)) (d : record) :
  variant_record page page_source general p o = Ok d ->
  exists v, o = Ok v /\ dict_get "options" d = Some v.
Proof.
  unfold variant_record.
  destruct (get_specific_data (page_source p)); [|discriminate].
  destruct o as [v|e]; [|discriminate].
  intros H. inversion H. exists v. split; [reflexivity|apply dict_get_set].
Qed.

Lemma variant_records_spec (general : record)
      (ys : list (list (option string) * page)) :
  forall pd,
    variant_records page page_source general ys = Ok pd ->
    List.length pd = List.length ys /\
    Forall (fun d => exists v, dict_get "options" d = Some (Some v)) pd.
Proof.
  induction ys as [|[sel p] ys IH]; intros pd; cbn [variant_records].
  - intros H. inversion H. split; [reflexivity|constructor].
  - destruct (variant_record page page_source general p (joined_options sel))
      as [d|e] eqn:Hd; [|discriminate].
    destruct (variant_records page page_source general ys) as [pd'|e];
      [|discriminate].
    intros H. inversion H; subst pd. destruct (IH pd' eq_refl) as [Hl Hf].
    split; [simpl; now rewrite Hl|]. constructor; [|exact Hf].
    apply variant_record_options in Hd. destruct Hd as (v & Hv & Hget).
    unfold joined_options in Hv. destruct (all_some sel); [|discriminate].
    inversion Hv; subst v. eauto.
Qed.

(** X17. The list returned by [get_product_page_data] is never mixed: it
    is the single empty dictionary, or every record in it has the field
    [options]. *)
Theorem get_product_page_data_not_mixed (p : page) (page_data : list record) :
  page_data_of p = Ok page_data ->
  page_data = [[]] \/
  Forall (fun d => exists o, dict_get "options" d = Some o) page_data.
Proof.
  unfold get_product_page_data.
  destruct (general_data_of p) as [|kv general] eqn:Hgen.
  { intros H. inversion H. now left. }
  assert (Hone : forall d,
             match variant_record page page_source (kv :: general) p (Ok None)
             with
             | Ok data => Ok [data]
             | Raise e => Raise e
             end = Ok d ->
             Forall (fun d => exists o, dict_get "options" d = Some o) d).
  { intros d. destruct (variant_record _ _ _ _ _) as [data|e] eqn:Hd;
      [|discriminate].
    intros H. inversion H. constructor; [|constructor].
    apply variant_record_options in Hd. destruct Hd as (v & _ & Hget). eauto. }
  destruct (find_options_groups p) as [[|g gs]|].
  - intros H. right. now apply Hone.
  - destruct (iterate (g :: gs) 0 (gen_start page elem p)) as [s'|e];
      [|discriminate].
    intros H. right. apply variant_records_spec in H. destruct H as [_ H].
    eapply Forall_impl; [|exact H]. intros d (v & Hv). eauto.
  - intros H. right. now apply Hone.
Qed.

(** X18. For a product with one option group, [get_product_page_data]
    returns one record for each button of the group that is not hidden;
    the field [options] of each is a string. *)
Theorem get_product_page_data_one_group
        (p : page) (group : elem) (page_data : list record) :
  general_data_of p <> [] ->
  find_options_groups p = Some [group] ->
  page_data_of p = Ok page_data ->
  List.length page_data = List.length (btns_of group p) /\
  Forall (fun d => exists v, dict_get "options" d = Some (Some v)) page_data.
Proof.
  intros Hgen Hgroups. unfold get_product_page_data. rewrite Hgroups.
  destruct (general_data_of p) as [|kv general]; [contradiction|].
  unfold iterate_options.
  destruct (iterate_options_rec_spec
              page elem find_li get_attribute click
              (List.length [group] - 0) [group] 0 (gen_start page elem p))
    as (s' & g' & delta & Hg & Hrun & _ & _ & _ & _ & Hy);
    [simpl; lia|simpl; lia|].
  inversion Hg; subst g'. rewrite Hrun.
  intros H. apply variant_records_spec in H. destruct H as [Hl Hf].
  split; [|exact Hf]. rewrite Hl, (Hy eq_refl). reflexivity.
Qed.

End EnumeratorMore.

Lemma failed_clicks_repeat_selection_witness :
  nth_error [RadioPage.Group 0] 0 = Some (RadioPage.Group 0)
  /\ exists s',
      iterate_options RadioPage.page RadioPage.elem RadioPage.find_li
                      RadioPage.get_attribute stuck_click
                      [RadioPage.Group 0] 0
                      (gen_start _ _ OneGroup.page1) = Ok s' /\
      map fst (yielded s') = [[]; []].
Proof.
  split; [reflexivity|].
  destruct (failed_clicks_repeat_selection
              RadioPage.page RadioPage.elem RadioPage.find_li
              RadioPage.get_attribute stuck_click
              [RadioPage.Group 0] 0 (RadioPage.Group 0)
              (gen_start _ _ OneGroup.page1)
              (fun _ _ => eq_refl) eq_refl eq_refl)
    as (s' & Hrun & _ & Hy).
  exists s'. split; [exact Hrun|]. rewrite Hy. reflexivity.
Defined.

Lemma get_product_page_data_not_mixed_witness :
  OneGroup.product_page_data
  = Ok [OptionShop.general_data
          ++ [("article", Some "A-1"); ("price", Some "100");
              ("image_links", Some ""); ("options", Some "Colour: red")];
        OptionShop.general_data
          ++ [("article", Some "A-1"); ("price", Some "100");
              ("image_links", Some ""); ("options", Some "Colour: green")]]
  /\ Forall (fun d => exists o, dict_get "options" d = Some o)
            [OptionShop.general_data
               ++ [("article", Some "A-1"); ("price", Some "100");
                   ("image_links", Some ""); ("options", Some "Colour: red")];
             OptionShop.general_data
               ++ [("article", Some "A-1"); ("price", Some "100");
                   ("image_links", Some "");
                   ("options", Some "Colour: green")]].
Proof.
  split; [vm_compute; reflexivity|].
  destruct (get_product_page_data_not_mixed
              RadioPage.page RadioPage.elem RadioPage.find_li
              RadioPage.get_attribute RadioPage.click
              (fun _ => Shop.priced "100 руб")
              (fun _ => Some [RadioPage.Group 0])
              (fun _ => OptionShop.general_data)
              OneGroup.page1 _ eq_refl) as [H|H]; [discriminate H|exact H].
Defined.

Lemma get_product_page_data_one_group_witness :
  exists page_data,
    OneGroup.product_page_data = Ok page_data /\
    List.length page_data = 2.
Proof.
  eexists. split; [vm_compute; reflexivity|].
  exact (proj1 (get_product_page_data_one_group
                  RadioPage.page RadioPage.elem RadioPage.find_li
                  RadioPage.get_attribute RadioPage.click
                  (fun _ => Shop.priced "100 руб")
                  (fun _ => Some [RadioPage.Group 0])
                  (fun _ => OptionShop.general_data)
                  OneGroup.page1 (RadioPage.Group 0) _
                  ltac:(discriminate) eq_refl eq_refl)).
Defined.

(** ** The run: what is loaded, what is recorded *)

Lemma ledger_links_cons (ev : event) (tr : list event) :
  ledger_links (ev :: tr) = ledger_links [ev] ++ ledger_links tr.
Proof. exact (ledger_links_app [ev] tr). Qed.

Lemma fresh_from_app (d1 d2 : list event) :
  forall seen,
    fresh_from seen d1 ->
    fresh_from (seen ++ ledger_links d1) d2 ->
    fresh_from seen (d1 ++ d2).
Proof.
  induction d1 as [|ev d1 IH]; intros seen H1 H2.
  - simpl in H2. now rewrite app_nil_r in H2.
  - destruct H1 as [He H1]. split; [exact He|].
    apply IH; [exact H1|].
    rewrite ledger_links_cons, app_assoc in H2. exact H2.
Qed.

Lemma fresh_from_split (pre : list event) :
  forall seen tr ev post,
    fresh_from seen tr -> tr = pre ++ ev :: post ->
    fresh_event (seen ++ ledger_links pre) ev.
Proof.
  induction pre as [|x pre IH]; intros seen tr ev post H ->.
  - destruct H as [He _]. simpl. now rewrite app_nil_r.
  - destruct H as [_ H].
    rewrite ledger_links_cons, app_assoc.
    eapply IH; [exact H|reflexivity].
Qed.

Lemma extends_refl (P : event -> Prop) (st : state) : extends P st st.
Proof.
  exists []. cbn [ledger_links flat_map ledger_text].
  rewrite !app_nil_r, string_app_nil_r.
  split; [reflexivity|]. split; [reflexivity|]. split; [reflexivity|].
  split; [exact I|]. intros ? [].
Qed.

Lemma extends_trans (P : event -> Prop) (st1 st2 st3 : state) :
  extends P st1 st2 -> extends P st2 st3 -> extends P st1 st3.
Proof.
  intros (d1 & Hl1 & Hc1 & Hf1 & Hfr1 & Hev1)
         (d2 & Hl2 & Hc2 & Hf2 & Hfr2 & Hev2).
  exists (d1 ++ d2).
  rewrite Hl2, Hl1, Hc2, Hc1, Hf2, Hf1, ledger_links_app, ledger_text_app,
    !app_assoc, string_app_assoc.
  split; [reflexivity|]. split; [reflexivity|]. split; [reflexivity|].
  split.
  - apply fresh_from_app; [exact Hfr1|]. now rewrite <- Hc1.
  - intros ev Hin. apply in_app_or in Hin. destruct Hin as [Hin|Hin]; eauto.
Qed.

Lemma extends_weaken (P Q : event -> Prop) (st st' : state) :
  (forall ev, P ev -> Q ev) -> extends P st st' -> extends Q st st'.
Proof.
  intros HPQ (d & Hl & Hc & Hf & Hfr & Hev).
  exists d. repeat split; try assumption. eauto.
Qed.

Lemma extends_add (P : event -> Prop) (kind : unit_kind) (l : string)
      (st : state) :
  (kind = UProduct -> str_in l (collected_links st) = false) ->
  P (EvLedger kind l) ->
  extends P st (add_collected_link kind l st).
Proof.
  intros Hk HP. exists [EvLedger kind l].
  split; [reflexivity|]. split; [reflexivity|]. split; [reflexivity|].
  split.
  - split; [|exact I]. destruct kind; [now apply Hk|exact I|exact I].
  - intros ev [<-|[]]. exact HP.
Qed.

Lemma extends_emit (P : event -> Prop) (ev : event) (st : state) :
  fresh_event (collected_links st) ev -> is_load ev = true -> P ev ->
  extends P st (emit [ev] st).
Proof.
  intros Hfresh Hload HP. exists [ev].
  assert (Hl : ledger_links [ev] = [])
    by (destruct ev; try discriminate; reflexivity).
  cbn [emit log collected_links ledger_file]. rewrite Hl.
  cbn [ledger_text]. rewrite !app_nil_r, string_app_nil_r.
  split; [reflexivity|]. split; [reflexivity|]. split; [reflexivity|].
  split.
  - cbn [fresh_from]. split; [exact Hfresh|exact I].
  - intros ev' [<-|[]]. exact HP.
Qed.

Section RunFacts.

Variable fields_order : list string.
Variable page_soup : string -> node.
Variable product_page_data : string -> res (list record).

Lemma save_page_data_extends (links : list (option string))
      (page_data : list record) (st st' : state) (o : outcome) :
  save_page_data fields_order page_data st = (o, st') ->
  extends (product_event links) st st' /\
  collected_links st' = collected_links st.
Proof.
  unfold save_page_data.
  destruct (rows_written fields_order page_data) as [rows err].
  intros H. inversion H; subst; clear H.
  split; [|reflexivity].
  eexists. cbn [log collected_links ledger_file].
  split; [reflexivity|].
  assert (Hev : forall hdr ev,
             hdr = [] \/ hdr = [EvSinkHeader] ->
             In ev ([EvSinkOpen] ++ hdr ++ [EvSinkRows rows; EvSinkClose]) ->
             product_event links ev).
  { intros hdr ev [-> | ->] Hin; simpl in Hin;
      repeat (destruct Hin as [<-|Hin];
              [split; [reflexivity|discriminate]|]);
      contradiction. }
  destruct (sink_file st); simpl; rewrite !app_nil_r, string_app_nil_r;
    (split; [reflexivity|]); (split; [reflexivity|]);
    (split; [repeat split|]); intros ev Hin.
  - apply (Hev [] ev); [now left|exact Hin].
  - apply (Hev [EvSinkHeader] ev); [now right|exact Hin].
Qed.

Lemma process_product_extends (links : list (option string))
      (category_name : string)
      (rel : option string) (st st' : state) (o : outcome) :
  In rel links ->
  process_product fields_order product_page_data category_name rel st
  = (o, st') ->
  extends (product_event links) st st'.
Proof.
  intros Hrel. unfold process_product.
  destruct (opt_in rel (collected_links st)) eqn:Hin.
  { intros H; inversion H; subst. apply extends_refl. }
  destruct (get_absolute_link rel) as [product_link|e] eqn:Hab.
  2:{ intros H; inversion H; subst. apply extends_refl. }
  assert (Hload : extends (product_event links) st
                          (emit [EvLoadProduct rel product_link] st)).
  { apply extends_emit; [|reflexivity|].
    - destruct rel as [l|]; [|discriminate]. exists l. auto.
    - split; [reflexivity|]. intros r p H. now inversion H; subst. }
  destruct (product_page_data product_link) as [page_data|e].
  2:{ intros H; inversion H; subst. exact Hload. }
  destruct (forallb is_empty_dict page_data).
  { intros H; inversion H; subst. exact Hload. }
  destruct (save_page_data fields_order (set_category category_name page_data)
                           (emit [EvLoadProduct rel product_link] st))
    as [o2 st2] eqn:Hsave.
  destruct (save_page_data_extends links _ _ _ _ Hsave) as [Hext Hsame].
  assert (H2 : extends (product_event links) st st2)
    by (eapply extends_trans; eassumption).
  destruct o2.
  - destruct rel as [l|].
    + intros H; inversion H; subst.
      eapply extends_trans; [exact H2|].
      apply extends_add; [|split; [reflexivity|discriminate]]. intros _.
      rewrite Hsame. exact Hin.
    + intros H; inversion H; subst. exact H2.
  - intros H; inversion H; subst. exact H2.
  - intros H; inversion H; subst. exact H2.
Qed.

Lemma products_loop_extends_in (all : list (option string))
      (category_name : string) (links : list (option string)) :
  (forall rel, In rel links -> In rel all) ->
  forall (st st' : state) (o : outcome),
    products_loop fields_order product_page_data category_name links st
    = (o, st') ->
    extends (product_event all) st st'.
Proof.
  induction links as [|rel links IH]; intros Hsub st st' o; simpl.
  - intros H; inversion H; subst. apply extends_refl.
  - destruct (process_product fields_order product_page_data category_name
                              rel st) as [o1 st1] eqn:Hp.
    apply (process_product_extends all) in Hp; [|apply Hsub; now left].
    destruct o1.
    + intros H. eapply extends_trans; [exact Hp|].
      eapply IH; [|exact H]. intros r Hr. apply Hsub. now right.
    + intros H; inversion H; subst. exact Hp.
    + intros H; inversion H; subst. exact Hp.
Qed.

Lemma products_loop_extends (category_name : string)
      (links : list (option string)) (st st' : state) (o : outcome) :
  products_loop fields_order product_page_data category_name links st
  = (o, st') ->
  extends (product_event links) st st'.
Proof. apply products_loop_extends_in. auto. Qed.

(** A link that is [None] ends the loop over the products with an
    error. *)
Lemma products_loop_none (category_name : string)
      (links : list (option string)) :
  In None links ->
  forall st, exists e st',
    products_loop fields_order product_page_data category_name links st
    = (Failed e, st').
Proof.
  assert (Hn : get_absolute_link None = Raise TypeError) by reflexivity.
  induction links as [|rel links IH]; intros Hin st; [contradiction|].
  cbn [products_loop].
  destruct Hin as [->|Hin].
  - unfold process_product. cbn [opt_in]. rewrite Hn. eauto.
  - destruct (process_product fields_order product_page_data category_name
                              rel st) as [o1 st1] eqn:Hp.
    destruct o1; eauto.
    exfalso. revert Hp. unfold process_product.
    destruct (opt_in rel (collected_links st)); [discriminate|].
    destruct (get_absolute_link rel) as [pl|]; [|discriminate].
    destruct (product_page_data pl) as [pd|]; [|discriminate].
    destruct (forallb is_empty_dict pd); [discriminate|].
    destruct (save_page_data fields_order (set_category category_name pd)
                             (emit [EvLoadProduct rel pl] st))
      as [o2 st2] eqn:Hs.
    unfold save_page_data in Hs.
    destruct (rows_written fields_order (set_category category_name pd))
      as [rows [err|]]; inversion Hs; subst.
    + discriminate.
    + destruct rel; discriminate.
Qed.

(** The pages loaded by the loop over the pages of a category belong to
    that category, and the products loaded are products of its pages. *)
Lemma pages_loop_extends (category_name cl : string) (fuel : nat) :
  forall (n : nat) (st st' : state) (o : outcome),
    pages_loop fields_order page_soup product_page_data fuel
               category_name cl n st = (o, st') ->
    extends (page_event page_soup cl) st st'.
Proof.
  induction fuel as [|fuel IH]; intros n st st' o; cbn [pages_loop].
  - intros H; inversion H; subst. apply extends_refl.
  - destruct (str_in (get_pagination_page_link cl n) (collected_links st))
      eqn:Hin.
    { apply IH. }
    set (st1 := emit [EvLoadListing cl n] st).
    assert (Hload : extends (page_event page_soup cl) st st1).
    { apply extends_emit; [exact Hin|reflexivity|].
      split; [discriminate|]. right. eauto. }
    destruct (get_product_links (get_pagination_page_link cl n)
                                (page_soup (get_pagination_page_link cl n)))
      as [[product_links is_last_page]|e] eqn:Hlinks.
    2:{ intros H; inversion H; subst. exact Hload. }
    destruct (products_loop fields_order product_page_data category_name
                            product_links st1) as [o2 st2] eqn:Hp.
    apply products_loop_extends in Hp.
    assert (Hw : forall ev, product_event product_links ev ->
                            page_event page_soup cl ev).
    { intros ev [Hlevel Hfrom]. split; [|now left].
      intros rel pl Hev. exists cl, n, product_links, is_last_page.
      split; [exact Hlinks|]. exact (Hfrom rel pl Hev). }
    apply (extends_weaken _ _ _ _ Hw) in Hp.
    assert (H2 : extends (page_event page_soup cl) st st2)
      by (eapply extends_trans; eassumption).
    destruct o2.
    + assert (H3 : extends (page_event page_soup cl) st
                           (add_collected_link
                              UPage (get_pagination_page_link cl n) st2)).
      { eapply extends_trans; [exact H2|].
        apply extends_add; [discriminate|].
        split; [discriminate|]. right. eauto. }
      destruct is_last_page.
      * intros H; inversion H; subst. exact H3.
      * intros H. eapply extends_trans; [exact H3|]. eapply IH; exact H.
    + intros H; inversion H; subst. exact H2.
    + intros H; inversion H; subst. exact H2.
Qed.

Lemma process_category_extends (fuel : nat)
      (category : string * option string) (st st' : state) (o : outcome) :
  process_category fields_order page_soup product_page_data fuel category st
  = (o, st') ->
  extends (crawl_event page_soup (collected_links st)) st st' /\
  (o = Finished ->
   exists category_link,
     get_absolute_link (snd category) = Ok category_link /\
     str_in category_link (collected_links st') = true).
Proof.
  destruct category as [category_name rel]. cbn [process_category snd].
  destruct (get_absolute_link rel) as [category_link|e].
  2:{ intros H; inversion H; subst. split; [apply extends_refl|discriminate]. }
  destruct (str_in category_link (collected_links st)) eqn:Hin.
  { intros H; inversion H; subst. split; [apply extends_refl|]. eauto. }
  destruct (pages_loop fields_order page_soup product_page_data fuel
                       category_name category_link 1 st) as [o1 st1] eqn:Hp.
  apply pages_loop_extends in Hp.
  assert (H1 : extends (crawl_event page_soup (collected_links st)) st st1).
  { eapply extends_weaken; [|exact Hp].
    intros ev [Hfrom Hkind]. split; [|exact Hfrom].
    intros cl' n' Heq. subst ev.
    destruct Hkind as [Hpl|(n & [Hev|Hev])].
    - discriminate.
    - inversion Hev; subst. exact Hin.
    - discriminate. }
  destruct o1.
  - intros H; inversion H; subst. split.
    + eapply extends_trans; [exact H1|].
      apply extends_add; [discriminate|].
      split; intros ? ? ?; discriminate.
    + intros _. exists category_link. split; [reflexivity|].
      cbn [add_collected_link collected_links]. rewrite str_in_app.
      simpl. rewrite String.eqb_refl. apply orb_true_r.
  - intros H; inversion H; subst. split; [exact H1|discriminate].
  - intros H; inversion H; subst. split; [exact H1|discriminate].
Qed.

Lemma crawl_event_mono (P : event -> Prop) (st st' : state) (ev : event) :
  extends P st st' ->
  crawl_event page_soup (collected_links st') ev ->
  crawl_event page_soup (collected_links st) ev.
Proof.
  intros (d & _ & Hc & _) [H Hfrom]. split; [|exact Hfrom].
  intros cl n Heq. specialize (H cl n Heq).
  rewrite Hc, str_in_app in H. now apply orb_false_iff in H.
Qed.

Lemma collected_mono (P : event -> Prop) (st st' : state) (l : string) :
  extends P st st' ->
  str_in l (collected_links st) = true ->
  str_in l (collected_links st') = true.
Proof.
  intros (d & _ & Hc & _) H. rewrite Hc, str_in_app, H. reflexivity.
Qed.

Lemma categories_loop_extends (fuel : nat)
      (categories : list (string * option string)) :
  forall (st st' : state) (o : outcome),
    categories_loop fields_order page_soup product_page_data fuel
                    categories st = (o, st') ->
    extends (crawl_event page_soup (collected_links st)) st st' /\
    (o = Finished ->
     forall category, In category categories ->
       exists category_link,
         get_absolute_link (snd category) = Ok category_link /\
         str_in category_link (collected_links st') = true).
Proof.
  induction categories as [|category rest IH]; intros st st' o;
    cbn [categories_loop].
  - intros H; inversion H; subst. split; [apply extends_refl|].
    intros _ ? [].
  - destruct (process_category fields_order page_soup product_page_data fuel
                               category st) as [o1 st1] eqn:Hp.
    apply process_category_extends in Hp. destruct Hp as [H1 Hdone1].
    destruct o1.
    + intros H. apply IH in H. destruct H as [H2 Hdone2].
      assert (H2' : extends (crawl_event page_soup (collected_links st))
                            st1 st').
      { eapply extends_weaken; [|exact H2].
        intros ev. apply (crawl_event_mono _ _ _ _ H1). }
      split; [eapply extends_trans; eassumption|].
      intros Ho c [<-|Hin].
      * destruct (Hdone1 eq_refl) as (cl & Hab & Hcl).
        exists cl. split; [exact Hab|].
        exact (collected_mono _ _ _ _ H2 Hcl).
      * exact (Hdone2 Ho c Hin).
    + intros H; inversion H; subst. split; [exact H1|discriminate].
    + intros H; inversion H; subst. split; [exact H1|discriminate].
Qed.

(** A list of categories whose links are all in the set is passed over. *)
Lemma categories_loop_skip (fuel : nat)
      (categories : list (string * option string)) (st : state) :
  (forall category, In category categories ->
     exists category_link,
       get_absolute_link (snd category) = Ok category_link /\
       str_in category_link (collected_links st) = true) ->
  categories_loop fields_order page_soup product_page_data fuel categories st
  = (Finished, st).
Proof.
  induction categories as [|[name rel] rest IH]; intros Hall;
    cbn [categories_loop]; [reflexivity|].
  destruct (Hall (name, rel) (or_introl eq_refl)) as (cl & Hab & Hcl).
  cbn [snd] in Hab. cbn [process_category]. rewrite Hab, Hcl.
  apply IH. intros c Hc. apply Hall. now right.
Qed.

Local Abbreviation run :=
  (get_all_data fields_order page_soup product_page_data).
Local Abbreviation catalog_link := "https://yacht-parts.ru/catalog/"%string.

Lemma get_all_data_unfold (fuel : nat) (ledger : string)
      (sink : option (list csv_line)) :
  run fuel ledger sink
  = categories_loop fields_order page_soup product_page_data fuel
                    (get_categories (page_soup catalog_link))
                    (emit [EvLoadCatalog catalog_link]
                          (initial_state ledger sink)).
Proof. reflexivity. Qed.

Lemma get_all_data_extends (fuel : nat) (ledger : string)
      (sink : option (list csv_line)) :
  extends (crawl_event page_soup (load_collected_links ledger))
          (initial_state ledger sink) (snd (run fuel ledger sink)).
Proof.
  rewrite get_all_data_unfold.
  destruct (categories_loop fields_order page_soup product_page_data fuel
                            (get_categories (page_soup catalog_link))
                            (emit [EvLoadCatalog catalog_link]
                                  (initial_state ledger sink)))
    as [o st'] eqn:Hloop.
  apply categories_loop_extends in Hloop. destruct Hloop as [Hext _].
  eapply extends_trans; [|exact Hext].
  apply extends_emit; [exact I|reflexivity|].
  split; intros ? ? ?; discriminate.
Qed.

(** X19. A run, whatever its outcome, loads a listing page only when
    neither the link of the page nor the link of its category is among
    the links handled so far: the lines of the ledger at the start, with
    trailing white space removed, and, for the page, also the entries
    written earlier in the run. *)
Theorem handled_pages_not_loaded
        (fuel : nat) (ledger : string) (sink : option (list csv_line))
        (pre post : list event) (category_link : string) (page_num : nat) :
  log (snd (run fuel ledger sink))
  = pre ++ EvLoadListing category_link page_num :: post ->
  str_in (get_pagination_page_link category_link page_num)
         (load_collected_links ledger ++ ledger_links pre) = false /\
  str_in category_link (load_collected_links ledger) = false.
Proof.
  intros Hsplit.
  destruct (get_all_data_extends fuel ledger sink)
    as (d & Hlog & _ & _ & Hfresh & Hcat).
  change (log (snd (run fuel ledger sink)) = d) in Hlog.
  change (fresh_from (load_collected_links ledger) d) in Hfresh.
  split.
  - exact (fresh_from_split _ _ _ _ _ Hfresh (eq_trans (eq_sym Hlog) Hsplit)).
  - refine (proj1 (Hcat (EvLoadListing category_link page_num) _)
                  category_link page_num eq_refl).
    rewrite <- Hlog, Hsplit. apply in_or_app. right. now left.
Qed.

(** X20. A run, whatever its outcome, loads a product only for a link
    that [get_product_links] returned for a listing page and that is not
    among the links handled so far: the lines of the ledger at the
    start, with trailing white space removed, and the entries written
    earlier in the run.  The address loaded is the absolute link of that
    link. *)
Theorem handled_products_not_loaded
        (fuel : nat) (ledger : string) (sink : option (list csv_line))
        (pre post : list event) (rel_link : option string)
        (product_link : string) :
  log (snd (run fuel ledger sink))
  = pre ++ EvLoadProduct rel_link product_link :: post ->
  exists l,
    rel_link = Some l /\
    str_in l (load_collected_links ledger ++ ledger_links pre) = false /\
    get_absolute_link (Some l) = Ok product_link /\
    exists category_link page_num links is_last_page,
      listing_result page_soup category_link page_num
      = Ok (links, is_last_page) /\
      In (Some l) links.
Proof.
  intros Hsplit.
  destruct (get_all_data_extends fuel ledger sink)
    as (d & Hlog & _ & _ & Hfresh & Hev).
  change (log (snd (run fuel ledger sink)) = d) in Hlog.
  change (fresh_from (load_collected_links ledger) d) in Hfresh.
  destruct (fresh_from_split _ _ _ _ _ Hfresh
                             (eq_trans (eq_sym Hlog) Hsplit))
    as (l & -> & Hnew & Habs).
  exists l. split; [reflexivity|]. split; [exact Hnew|].
  split; [exact Habs|].
  refine (proj2 (Hev (EvLoadProduct (Some l) product_link) _)
                (Some l) product_link eq_refl).
  rewrite <- Hlog, Hsplit. apply in_or_app. right. now left.
Qed.

(** X21. No product is recorded twice: when a run writes the entry of a
    product to the ledger, the link is neither a line of the ledger at
    the start (trailing white space removed) nor an entry written earlier
    in the run. *)
Theorem product_recorded_once
        (fuel : nat) (ledger : string) (sink : option (list csv_line))
        (pre post : list event) (l : string) :
  log (snd (run fuel ledger sink)) = pre ++ EvLedger UProduct l :: post ->
  ~ In l (load_collected_links ledger) /\
  forall kind, ~ In (EvLedger kind l) pre.
Proof.
  intros Hsplit.
  destruct (get_all_data_extends fuel ledger sink)
    as (d & Hlog & _ & _ & Hfresh & _).
  change (log (snd (run fuel ledger sink)) = d) in Hlog.
  change (fresh_from (load_collected_links ledger) d) in Hfresh.
  pose proof (fresh_from_split _ _ _ _ _ Hfresh
                               (eq_trans (eq_sym Hlog) Hsplit)) as H.
  cbn [fresh_event] in H. rewrite str_in_app in H.
  apply orb_false_iff in H. destruct H as [H0 H1].
  split.
  - intros Hin. apply str_in_In in Hin. congruence.
  - intros kind Hin.
    assert (Ht : str_in l (ledger_links pre) = true).
    { apply str_in_In. apply in_ledger_links. eauto. }
    congruence.
Qed.

(** X22. A finished run is a fixed point.  When a run has finished, the
    ledger file it started from was empty or ended with a newline, and
    no category link of the catalog holds a line break or ends in white
    space, a second run started on the two files as the first one left
    them, with the site unchanged, reads every category link back from
    the ledger, loads the catalog page and nothing else, and leaves both
    files as they are, whatever the bound on the number of pages. *)
Theorem finished_run_fixed_point
        (fuel fuel' : nat) (ledger : string)
        (sink : option (list csv_line)) (st : state) :
  run fuel ledger sink = (Finished, st) ->
  terminated ledger ->
  (forall category category_link,
     In category (get_categories (page_soup catalog_link)) ->
     get_absolute_link (snd category) = Ok category_link ->
     rstrip category_link = category_link /\
     no_line_break category_link) ->
  run fuel' (ledger_file st) (sink_file st)
  = (Finished,
     emit [EvLoadCatalog catalog_link]
          (initial_state (ledger_file st) (sink_file st))).
Proof.
  intros Hrun Hterm Hclean.
  pose proof (get_all_data_extends fuel ledger sink) as Hext.
  rewrite Hrun in Hext. cbn [snd] in Hext.
  destruct Hext as (d & _ & Hc & Hf & _).
  cbn [initial_state collected_links ledger_file] in Hc, Hf.
  rewrite get_all_data_unfold in Hrun.
  apply categories_loop_extends in Hrun. destruct Hrun as [_ Hdone].
  rewrite get_all_data_unfold. apply categories_loop_skip.
  intros c Hin. destruct (Hdone eq_refl c Hin) as (cl & Hab & Hcl).
  exists cl. split; [exact Hab|].
  destruct (Hclean c cl Hin Hab) as [Hstrip Hline].
  cbn [emit initial_state collected_links].
  rewrite Hf. unfold load_collected_links.
  rewrite read_lines_app by exact Hterm. rewrite map_app, str_in_app.
  rewrite Hc, str_in_app in Hcl. apply orb_true_iff in Hcl.
  apply orb_true_iff. destruct Hcl as [Hcl|Hcl]; [now left|right].
  apply str_in_In. apply str_in_In in Hcl.
  rewrite <- (rstrip_newline cl Hstrip). apply in_map.
  now apply read_lines_entry.
Qed.

(** X23. A listing page on which some product title has a link without
    [href] stops the run: the loop over its products ends with an error,
    whatever the bound on the number of pages, and no entry is written
    for the page or its category; the only entries added are those of
    products of the page. *)
Theorem listing_without_href_fails
        (fuel : nat) (category_name cl : string) (n : nat) (st : state)
        (links : list (option string)) (is_last_page : bool) :
  str_in (get_pagination_page_link cl n) (collected_links st) = false ->
  get_product_links (get_pagination_page_link cl n)
                    (page_soup (get_pagination_page_link cl n))
  = Ok (links, is_last_page) ->
  In None links ->
  exists e st',
    pages_loop fields_order page_soup product_page_data (S fuel)
               category_name cl n st = (Failed e, st') /\
    forall kind l,
      In (EvLedger kind l) (log st') ->
      In (EvLedger kind l) (log st) \/ kind = UProduct.
Proof.
  intros Hin Hlinks Hnone. cbn [pages_loop]. rewrite Hin, Hlinks.
  destruct (products_loop_none category_name links Hnone
                               (emit [EvLoadListing cl n] st))
    as (e & st' & Hp).
  rewrite Hp. exists e, st'. split; [reflexivity|].
  apply products_loop_extends in Hp.
  destruct Hp as (d & Hlog & _ & _ & _ & Hev).
  intros kind l Hl. rewrite Hlog in Hl. cbn [emit log] in Hl.
  apply in_app_or in Hl. destruct Hl as [Hl|Hl].
  - apply in_app_or in Hl. destruct Hl as [Hl|[Hl|[]]];
      [now left|discriminate].
  - right. destruct (Hev _ Hl) as [Hlevel _].
    destruct kind; [reflexivity|discriminate|discriminate].
Qed.

Lemma dict_set_has_key {V} (k : string) (v : V) (d : dict V) :
  In k (dict_keys (dict_set k v d)).
Proof.
  unfold dict_keys. rewrite dict_set_keys.
  destruct (str_in k (map fst d)) eqn:E.
  - now apply str_in_In.
  - apply in_or_app. right. now left.
Qed.

(** X24. The column [category] is required.  When [fields_order] lacks
    it, the first product that has data ends the run with [ValueError]:
    the CSV file is left with its old lines, or with the header alone
    when it did not exist, and the product is not recorded. *)
Theorem category_field_required
        (category_name rel_link product_link : string)
        (page_data : list record) (st : state) :
  str_in "category" fields_order = false ->
  str_in rel_link (collected_links st) = false ->
  get_absolute_link (Some rel_link) = Ok product_link ->
  product_page_data product_link = Ok page_data ->
  forallb is_empty_dict page_data = false ->
  exists st',
    process_product fields_order product_page_data category_name
                    (Some rel_link) st = (Failed ValueError, st') /\
    sink_file st' = Some (match sink_file st with
                          | Some old => old
                          | None => [Header fields_order]
                          end) /\
    ledger_file st' = ledger_file st /\
    collected_links st' = collected_links st.
Proof.
  intros Hcat Hin Hab Hdata Hne.
  unfold process_product. cbn [opt_in]. rewrite Hin, Hab, Hdata, Hne.
  destruct page_data as [|d ds]; [discriminate|].
  assert (Hrows : rows_written fields_order
                               (set_category category_name (d :: ds))
                  = ([], Some ValueError)).
  { cbn [set_category map rows_written]. unfold dict_to_list.
    destruct (forallb (fun k => str_in k fields_order)
                      (dict_keys (dict_set "category" (Some category_name) d)))
      eqn:E; [|reflexivity].
    rewrite forallb_forall in E.
    specialize (E "category"%string (dict_set_has_key _ _ _)). congruence. }
  unfold save_page_data. rewrite Hrows.
  eexists. split; [reflexivity|].
  cbn [sink_file ledger_file collected_links emit].
  split; [|split; reflexivity].
  destruct (sink_file st); simpl; now rewrite ?app_nil_r.
Qed.

(** X25. One main category without sub-categories on the catalog page
    makes the run do nothing: [get_categories] gives the empty mapping,
    so the run loads the catalog page, finishes without an error and
    leaves both files as they are. *)
Theorem category_without_subs_ends_run
        (fuel : nat) (ledger : string) (sink : option (list csv_line))
        (c : node) :
  In c (main_categories_of (page_soup catalog_link)) ->
  is_normal c || is_deferred c = true ->
  has_sub_categories c = false ->
  run fuel ledger sink
  = (Finished,
     emit [EvLoadCatalog catalog_link] (initial_state ledger sink)).
Proof.
  intros Hin Hb Hc. rewrite get_all_data_unfold, get_categories_unfold.
  rewrite (collect_categories_without_subs _ c);
    [reflexivity|now apply sorted_categories|exact Hc].
Qed.

End RunFacts.

Lemma listing_without_href_fails_witness :
  get_product_links
    (get_pagination_page_link "https://yacht-parts.ru/catalog/a/a1/" 1)
    listing_without_href
  = Ok ([Some "/catalog/a/a1/p1/"; None], true)
  /\ exists e st',
      pages_loop default_fields_order (fun _ => listing_without_href)
                 Shop.product_page_data 1 "A; a1"
                 "https://yacht-parts.ru/catalog/a/a1/" 1
                 (initial_state "" None) = (Failed e, st') /\
      forall kind l,
        In (EvLedger kind l) (log st') ->
        In (EvLedger kind l) (log (initial_state "" None)) \/ kind = UProduct.
Proof.
  split; [reflexivity|].
  apply (listing_without_href_fails
           default_fields_order (fun _ => listing_without_href)
           Shop.product_page_data 0 "A; a1"
           "https://yacht-parts.ru/catalog/a/a1/" 1 (initial_state "" None)
           [Some "/catalog/a/a1/p1/"; None] true).
  - reflexivity.
  - reflexivity.
  - right. now left.
Defined.

Lemma category_field_required_witness :
  exists st',
    process_product ["article"; "name"] Shop.product_page_data "A; a1"
                    (Some "/catalog/a/a1/p1/") (initial_state "" None)
    = (Failed ValueError, st') /\
    sink_file st' = Some [Header ["article"; "name"]].
Proof.
  destruct (category_field_required
              ["article"; "name"] Shop.product_page_data "A; a1"
              "/catalog/a/a1/p1/" "https://yacht-parts.ru/catalog/a/a1/p1/"
              [Shop.a_record] (initial_state "" None)
              eq_refl eq_refl eq_refl eq_refl eq_refl)
    as (st' & Hrun & Hsink & _).
  exists st'. split; [exact Hrun|exact Hsink].
Defined.

Lemma category_without_subs_ends_run_witness :
  get_all_data default_fields_order catalog_without_subs
               Shop.product_page_data 5 "" None
  = (Finished,
     emit [EvLoadCatalog "https://yacht-parts.ru/catalog/"]
          (initial_state "" None)).
Proof.
  apply (category_without_subs_ends_run
           default_fields_order catalog_without_subs Shop.product_page_data
           5 "" None (Shop.section_item "/catalog/b/" "B" [])).
  - right. now left.
  - reflexivity.
  - reflexivity.
Defined.

(** ** The fields of the records and the columns of the file *)

Lemma known_keys_set (fields : list string) (k : string) (v : option string)
      (d : record) :
  str_in k fields = true -> known_keys fields d = true ->
  known_keys fields (dict_set k v d) = true.
Proof.
  intros Hk Hd. unfold known_keys, dict_keys in *. rewrite dict_set_keys.
  destruct (str_in k (map fst d)); [exact Hd|].
  rewrite forallb_app, Hd. simpl. now rewrite Hk.
Qed.

Lemma known_keys_update (fields : list string) (b : record) :
  known_keys fields b = true ->
  forall a, known_keys fields a = true ->
            known_keys fields (dict_update a b) = true.
Proof.
  unfold dict_update.
  induction b as [|[k v] b IH]; intros Hb a Ha; [exact Ha|].
  cbn [fold_left fst snd].
  unfold known_keys, dict_keys in Hb. cbn [map fst forallb] in Hb.
  apply andb_true_iff in Hb. destruct Hb as [Hk Hb].
  apply IH; [exact Hb|]. now apply known_keys_set.
Qed.

Lemma get_specific_data_keys (soup : node) (data : record) :
  get_specific_data soup = Ok data ->
  known_keys default_fields_order data = true.
Proof.
  unfold get_specific_data.
  destruct (find "div" "item_main_info" soup) as [main_info|]; [|discriminate].
  destruct (find "div" "top_info" main_info); [|discriminate].
  destruct (find "div" "middle_info wrap_md" main_info); [|discriminate].
  intros H. inversion H. reflexivity.
Qed.

Lemma get_general_data_keys (format_table : node -> option string)
      (current_url : string) (soup : node) (data : record) :
  get_general_data format_table current_url soup = Ok data ->
  known_keys default_fields_order data = true.
Proof.
  unfold get_general_data.
  destruct (find "div" "item_main_info" soup) as [main_info|].
  - destruct (find "div" "top_info" main_info) as [top_info|]; [|discriminate].
    destruct (brand_of current_url top_info); [|discriminate].
    destruct (find "div" "middle_info wrap_md" main_info); [|discriminate].
    intros H. inversion H. reflexivity.
  - intros H. inversion H. reflexivity.
Qed.

(** [writerows] on records whose keys are all columns: one row of
    [len(fields_order)] cells for each record, and no error. *)
Lemma rows_written_known (fields : list string) (page_data : list record) :
  forallb (known_keys fields) page_data = true ->
  exists rows,
    rows_written fields page_data = (rows, None) /\
    List.length rows = List.length page_data /\
    Forall (fun r => List.length r = List.length fields) rows.
Proof.
  induction page_data as [|d ds IH]; cbn [forallb rows_written]; intros H.
  - exists []. split; [reflexivity|]. split; [reflexivity|constructor].
  - apply andb_true_iff in H. destruct H as [Hd Hds].
    destruct (IH Hds) as (rows & Hrows & Hlen & Hall).
    unfold dict_to_list. unfold known_keys in Hd. rewrite Hd, Hrows.
    eexists. split; [reflexivity|]. split; [simpl; now rewrite Hlen|].
    constructor; [now rewrite length_map|exact Hall].
Qed.

Section RecordFields.

Variable page : Type.
Variable elem : Type.
Variable find_li : elem -> page -> list elem.
Variable get_attribute : string -> elem -> page -> option string.
Variable click : elem -> page -> click_outcome * page.
Variable page_source : page -> node.
Variable find_options_groups : page -> option (list elem).
Variable general_data_of : page -> record.
Variable format_table : node -> option string.

Lemma variant_record_keys (general : record) (p : page)
      (o : res (option string)) (d : record) :
  known_keys default_fields_order general = true ->
  variant_record page page_source general p o = Ok d ->
  known_keys default_fields_order d = true.
Proof.
  intros Hg. unfold variant_record.
  destruct (get_specific_data (page_source p)) as [specific|] eqn:Hs;
    [|discriminate].
  destruct o as [v|]; [|discriminate].
  intros H. inversion H.
  apply known_keys_set; [reflexivity|].
  apply known_keys_update; [|exact Hg].
  exact (get_specific_data_keys _ _ Hs).
Qed.

Lemma variant_records_keys (general : record)
      (ys : list (list (option string) * page)) :
  known_keys default_fields_order general = true ->
  forall pd,
    variant_records page page_source general ys = Ok pd ->
    forallb (known_keys default_fields_order) pd = true.
Proof.
  intros Hg.
  induction ys as [|[sel p] ys IH]; intros pd; cbn [variant_records].
  - intros H. inversion H. reflexivity.
  - destruct (variant_record page page_source general p (joined_options sel))
      as [d|] eqn:Hd; [|discriminate].
    destruct (variant_records page page_source general ys) as [pd'|];
      [|discriminate].
    intros H. inversion H. cbn [forallb].
    rewrite (variant_record_keys _ _ _ _ Hg Hd), (IH pd' eq_refl).
    reflexivity.
Qed.

(** X26. The default columns take every record the parser builds.  When
    the general data of the page are what [get_general_data] returns,
    every list of records that [get_product_page_data] returns is
    written, after the category has been set, without [ValueError]: one
    row of ten cells for each record. *)
Theorem default_fields_take_all_records
        (current_url category_name : string) (soup : node) (p : page)
        (page_data : list record) :
  get_general_data format_table current_url soup = Ok (general_data_of p) ->
  get_product_page_data page elem find_li get_attribute click page_source
                        find_options_groups general_data_of p
  = Ok page_data ->
  exists rows,
    rows_written default_fields_order (set_category category_name page_data)
    = (rows, None) /\
    List.length rows = List.length page_data /\
    Forall (fun r => List.length r = 10) rows.
Proof.
  intros Hgen Hdata. apply get_general_data_keys in Hgen.
  assert (Hkeys : forallb (known_keys default_fields_order) page_data = true).
  { revert Hdata. unfold get_product_page_data.
    destruct (general_data_of p) as [|kv general] eqn:Hg.
    { intros H. inversion H. reflexivity. }
    assert (Hone : forall pd,
               match variant_record page page_source (kv :: general) p
                                    (Ok None) with
               | Ok data => Ok [data]
               | Raise e => Raise e
               end = Ok pd ->
               forallb (known_keys default_fields_order) pd = true).
    { intros pd. destruct (variant_record _ _ _ _ _) as [data|] eqn:Hd;
        [|discriminate].
      intros H. inversion H. cbn [forallb].
      now rewrite (variant_record_keys _ _ _ _ Hgen Hd). }
    destruct (find_options_groups p) as [[|g gs]|].
    - apply Hone.
    - destruct (iterate_options page elem find_li get_attribute click
                                (g :: gs) 0 (gen_start page elem p));
        [|discriminate].
      apply variant_records_keys. exact Hgen.
    - apply Hone. }
  destruct (rows_written_known
              default_fields_order (set_category category_name page_data))
    as (rows & Hrows & Hlen & Hall).
  { unfold set_category. rewrite forallb_forall in *.
    intros d Hd. apply in_map_iff in Hd. destruct Hd as (d0 & <- & Hd0).
    apply known_keys_set; [reflexivity|]. now apply Hkeys. }
  exists rows. split; [exact Hrows|].
  split; [|exact Hall].
  rewrite Hlen. unfold set_category. apply length_map.
Qed.

End RecordFields.

Lemma default_fields_take_all_records_witness :
  exists rows,
    rows_written
      default_fields_order
      (set_category
         "A; a1"
         [Described.general_data
            ++ [("article", None); ("price", None); ("image_links", Some "");
                ("options", Some "Colour: red")];
          Described.general_data
            ++ [("article", None); ("price", None); ("image_links", Some "");
                ("options", Some "Colour: green")]])
    = (rows, None) /\
    List.length rows = 2.
Proof.
  destruct (default_fields_take_all_records
              RadioPage.page RadioPage.elem RadioPage.find_li
              RadioPage.get_attribute RadioPage.click
              (fun _ => product_with_description)
              (fun _ => Some [RadioPage.Group 0])
              (fun _ => Described.general_data)
              (fun _ => None)
              Described.current_url "A; a1" product_with_description
              OneGroup.page1
              [Described.general_data
                 ++ [("article", None); ("price", None);
                     ("image_links", Some "");
                     ("options", Some "Colour: red")];
               Described.general_data
                 ++ [("article", None); ("price", None);
                     ("image_links", Some "");
                     ("options", Some "Colour: green")]]
              eq_refl eq_refl)
    as (rows & Hrows & Hlen & _).
  exists rows. split; [exact Hrows|exact Hlen].
Defined.

Lemma handled_pages_not_loaded_witness :
  log (snd (get_all_data default_fields_order Shop.one_category
                         Shop.product_page_data 5
                         (ledger_text ["/catalog/a/a1/p0/"]) None))
  = [EvLoadCatalog "https://yacht-parts.ru/catalog/"]
      ++ EvLoadListing "https://yacht-parts.ru/catalog/a/a1/" 1
      :: EvLoadProduct (Some "/catalog/a/a1/p1/")
                        "https://yacht-parts.ru/catalog/a/a1/p1/"
      :: [EvSinkOpen; EvSinkHeader;
          EvSinkRows [["A-1"; "Anchor"; "Acme"; ""; "100"; "A; a1"; ""; "";
                       ""; "https://yacht-parts.ru/catalog/a/a1/p1/"]];
          EvSinkClose;
          EvLedger UProduct "/catalog/a/a1/p1/";
          EvLedger UPage "https://yacht-parts.ru/catalog/a/a1/?PAGEN_1=1";
          EvLedger UCategory "https://yacht-parts.ru/catalog/a/a1/"]
  /\ str_in "https://yacht-parts.ru/catalog/a/a1/"
            (load_collected_links (ledger_text ["/catalog/a/a1/p0/"]))
     = false.
Proof.
  assert (H : log (snd (get_all_data default_fields_order Shop.one_category
                                     Shop.product_page_data 5
                                     (ledger_text ["/catalog/a/a1/p0/"])
                                     None))
              = [EvLoadCatalog "https://yacht-parts.ru/catalog/"]
      ++ EvLoadListing "https://yacht-parts.ru/catalog/a/a1/" 1
      :: EvLoadProduct (Some "/catalog/a/a1/p1/")
                        "https://yacht-parts.ru/catalog/a/a1/p1/"
      :: [EvSinkOpen; EvSinkHeader;
          EvSinkRows [["A-1"; "Anchor"; "Acme"; ""; "100"; "A; a1"; ""; "";
                       ""; "https://yacht-parts.ru/catalog/a/a1/p1/"]];
          EvSinkClose;
          EvLedger UProduct "/catalog/a/a1/p1/";
          EvLedger UPage "https://yacht-parts.ru/catalog/a/a1/?PAGEN_1=1";
          EvLedger UCategory "https://yacht-parts.ru/catalog/a/a1/"]).
  { vm_compute. reflexivity. }
  split; [exact H|].
  exact (proj2 (handled_pages_not_loaded
                  default_fields_order Shop.one_category
                  Shop.product_page_data 5
                  (ledger_text ["/catalog/a/a1/p0/"]) None
                  _ _ _ _ H)).
Defined.

Lemma handled_products_not_loaded_witness :
  log (snd (get_all_data default_fields_order Shop.one_category
                         Shop.product_page_data 5 "" None))
  = [EvLoadCatalog "https://yacht-parts.ru/catalog/";
     EvLoadListing "https://yacht-parts.ru/catalog/a/a1/" 1]
      ++ EvLoadProduct (Some "/catalog/a/a1/p1/")
                        "https://yacht-parts.ru/catalog/a/a1/p1/"
      :: [EvSinkOpen; EvSinkHeader;
          EvSinkRows [["A-1"; "Anchor"; "Acme"; ""; "100"; "A; a1"; ""; "";
                       ""; "https://yacht-parts.ru/catalog/a/a1/p1/"]];
          EvSinkClose;
          EvLedger UProduct "/catalog/a/a1/p1/";
          EvLedger UPage "https://yacht-parts.ru/catalog/a/a1/?PAGEN_1=1";
          EvLedger UCategory "https://yacht-parts.ru/catalog/a/a1/"]
  /\ exists l,
      Some "/catalog/a/a1/p1/"%string = Some l /\
      str_in l
             (load_collected_links ""
              ++ ledger_links
                   [EvLoadCatalog "https://yacht-parts.ru/catalog/";
                    EvLoadListing "https://yacht-parts.ru/catalog/a/a1/" 1])
      = false /\
      get_absolute_link (Some l)
      = Ok "https://yacht-parts.ru/catalog/a/a1/p1/"%string /\
      exists category_link page_num links is_last_page,
        listing_result Shop.one_category category_link page_num
        = Ok (links, is_last_page) /\
        In (Some l) links.
Proof.
  assert (H : log (snd (get_all_data default_fields_order Shop.one_category
                                     Shop.product_page_data 5 "" None))
              = [EvLoadCatalog "https://yacht-parts.ru/catalog/";
     EvLoadListing "https://yacht-parts.ru/catalog/a/a1/" 1]
      ++ EvLoadProduct (Some "/catalog/a/a1/p1/")
                        "https://yacht-parts.ru/catalog/a/a1/p1/"
      :: [EvSinkOpen; EvSinkHeader;
          EvSinkRows [["A-1"; "Anchor"; "Acme"; ""; "100"; "A; a1"; ""; "";
                       ""; "https://yacht-parts.ru/catalog/a/a1/p1/"]];
          EvSinkClose;
          EvLedger UProduct "/catalog/a/a1/p1/";
          EvLedger UPage "https://yacht-parts.ru/catalog/a/a1/?PAGEN_1=1";
          EvLedger UCategory "https://yacht-parts.ru/catalog/a/a1/"]).
  { vm_compute. reflexivity. }
  split; [exact H|].
  exact (handled_products_not_loaded
           default_fields_order Shop.one_category
           Shop.product_page_data 5 "" None _ _ _ _ H).
Defined.

Lemma product_recorded_once_witness :
  log (snd (get_all_data default_fields_order Shop.one_category
                         Shop.product_page_data 5 "" None))
  = [EvLoadCatalog "https://yacht-parts.ru/catalog/";
     EvLoadListing "https://yacht-parts.ru/catalog/a/a1/" 1;
     EvLoadProduct (Some "/catalog/a/a1/p1/")
                        "https://yacht-parts.ru/catalog/a/a1/p1/";
     EvSinkOpen; EvSinkHeader;
     EvSinkRows [["A-1"; "Anchor"; "Acme"; ""; "100"; "A; a1"; ""; "";
                  ""; "https://yacht-parts.ru/catalog/a/a1/p1/"]];
     EvSinkClose]
      ++ EvLedger UProduct "/catalog/a/a1/p1/"
      :: [EvLedger UPage "https://yacht-parts.ru/catalog/a/a1/?PAGEN_1=1";
          EvLedger UCategory "https://yacht-parts.ru/catalog/a/a1/"]
  /\ ~ In "/catalog/a/a1/p1/" (load_collected_links "").
Proof.
  assert (H : log (snd (get_all_data default_fields_order Shop.one_category
                                     Shop.product_page_data 5 "" None))
              = [EvLoadCatalog "https://yacht-parts.ru/catalog/";
     EvLoadListing "https://yacht-parts.ru/catalog/a/a1/" 1;
     EvLoadProduct (Some "/catalog/a/a1/p1/")
                        "https://yacht-parts.ru/catalog/a/a1/p1/";
     EvSinkOpen; EvSinkHeader;
     EvSinkRows [["A-1"; "Anchor"; "Acme"; ""; "100"; "A; a1"; ""; "";
                  ""; "https://yacht-parts.ru/catalog/a/a1/p1/"]];
     EvSinkClose]
      ++ EvLedger UProduct "/catalog/a/a1/p1/"
      :: [EvLedger UPage "https://yacht-parts.ru/catalog/a/a1/?PAGEN_1=1";
          EvLedger UCategory "https://yacht-parts.ru/catalog/a/a1/"]).
  { vm_compute. reflexivity. }
  split; [exact H|].
  exact (proj1 (product_recorded_once
                  default_fields_order Shop.one_category
                  Shop.product_page_data 5 "" None _ _ _ H)).
Defined.

Lemma finished_run_fixed_point_witness :
  get_all_data default_fields_order Shop.one_category Shop.product_page_data
               0
               (ledger_text ["/catalog/a/a1/p1/";
                "https://yacht-parts.ru/catalog/a/a1/?PAGEN_1=1";
                "https://yacht-parts.ru/catalog/a/a1/"])
               (Some [Header default_fields_order;
          Row ["A-1"; "Anchor"; "Acme"; ""; "100"; "A; a1"; ""; ""; "";
               "https://yacht-parts.ru/catalog/a/a1/p1/"]])
  = (Finished,
     emit [EvLoadCatalog "https://yacht-parts.ru/catalog/"]
          (initial_state
             (ledger_text ["/catalog/a/a1/p1/";
                "https://yacht-parts.ru/catalog/a/a1/?PAGEN_1=1";
                "https://yacht-parts.ru/catalog/a/a1/"])
             (Some [Header default_fields_order;
          Row ["A-1"; "Anchor"; "Acme"; ""; "100"; "A; a1"; ""; ""; "";
               "https://yacht-parts.ru/catalog/a/a1/p1/"]]))).
Proof.
  refine (finished_run_fixed_point
            default_fields_order Shop.one_category Shop.product_page_data
            5 0 "" None
            {| collected_links :=
                 ["/catalog/a/a1/p1/";
                  "https://yacht-parts.ru/catalog/a/a1/?PAGEN_1=1";
                  "https://yacht-parts.ru/catalog/a/a1/"];
               ledger_file :=
                 ledger_text ["/catalog/a/a1/p1/";
                "https://yacht-parts.ru/catalog/a/a1/?PAGEN_1=1";
                "https://yacht-parts.ru/catalog/a/a1/"];
               sink_file :=
                 (Some [Header default_fields_order;
          Row ["A-1"; "Anchor"; "Acme"; ""; "100"; "A; a1"; ""; ""; "";
               "https://yacht-parts.ru/catalog/a/a1/p1/"]]);
               log :=
                 [EvLoadCatalog "https://yacht-parts.ru/catalog/";
                  EvLoadListing "https://yacht-parts.ru/catalog/a/a1/" 1;
                  EvLoadProduct (Some "/catalog/a/a1/p1/")
                        "https://yacht-parts.ru/catalog/a/a1/p1/";
                  EvSinkOpen; EvSinkHeader;
                  EvSinkRows [["A-1"; "Anchor"; "Acme"; ""; "100"; "A; a1";
                               ""; ""; "";
                               "https://yacht-parts.ru/catalog/a/a1/p1/"]];
                  EvSinkClose;
                  EvLedger UProduct "/catalog/a/a1/p1/";
                  EvLedger UPage
                    "https://yacht-parts.ru/catalog/a/a1/?PAGEN_1=1";
                  EvLedger UCategory
                    "https://yacht-parts.ru/catalog/a/a1/"] |}
            _ _ _).
  - vm_compute. reflexivity.
  - now left.
  - intros category category_link Hin Hab.
    assert (Hc : category = ("A; a1", Some "/catalog/a/a1/")).
    { vm_compute in Hin. destruct Hin as [Hin|[]]. now symmetry. }
    subst category.
    assert (Hl : Ok category_link
                 = @Ok string "https://yacht-parts.ru/catalog/a/a1/").
    { rewrite <- Hab. reflexivity. }
    inversion Hl. split; [reflexivity|].
    intros c Hc. split; intros ->; vm_compute in Hc;
      repeat (destruct Hc as [Hc|Hc]; [discriminate Hc|]); exact Hc.
Defined.

(** ** The field size limit *)

Section SizeLimitMore.

Local Open Scope Z_scope.

(** X27. For every size from 0 to below 2^1024, [set_max_csv_size] ends
    with a size set that [csv.field_size_limit] accepts and that is not
    above the size asked for; a size that is accepted from the start is
    set as it is. *)
Theorem set_max_csv_size_sets_size (long_bits size : Z) :
  2 <= long_bits -> 0 <= size < 2 ^ 1024 ->
  exists fuel v,
    Csv.set_max_csv_size fuel long_bits size = Csv.Done v /\
    Csv.field_size_limit long_bits v = Ok tt /\
    0 <= v <= size /\
    (Csv.field_size_limit long_bits size = Ok tt -> v = size).
Proof.
  intros Hbits Hsize.
  destruct (set_max_csv_size_fuel long_bits (S (Z.to_nat size)) Hbits size
                                  Hsize ltac:(lia))
    as (v & Hv & Hle & Hfit).
  exists (S (Z.to_nat size)), v.
  assert (Hmax : 2 <= 2 ^ (long_bits - 1)).
  { change 2 with (2 ^ 1) at 1. apply Z.pow_le_mono_r; lia. }
  split; [exact Hv|]. split; [|split; [exact Hle|]].
  - unfold Csv.field_size_limit.
    destruct (Z.leb_spec (- 2 ^ (long_bits - 1)) v); [|lia].
    destruct (Z.leb_spec v (2 ^ (long_bits - 1) - 1)); [reflexivity|lia].
  - intros Hok. cbn [Csv.set_max_csv_size] in Hv. rewrite Hok in Hv.
    now inversion Hv.
Qed.

End SizeLimitMore.

Lemma set_max_csv_size_sets_size_witness :
  exists fuel v,
    Csv.set_max_csv_size fuel 32 Csv.sys_maxsize = Csv.Done v /\
    Csv.field_size_limit 32 v = Ok tt /\
    (0 <= v <= Csv.sys_maxsize)%Z /\
    (Csv.field_size_limit 32 Csv.sys_maxsize = Ok tt -> v = Csv.sys_maxsize).
Proof.
  apply (set_max_csv_size_sets_size 32 Csv.sys_maxsize).
  - discriminate.
  - split; [discriminate|reflexivity].
Defined.

(** ** The category column *)

(** X28. Every row that [get_all_data] writes for a product carries, in
    the column [category], the name under which the category being
    crawled stands in the mapping of [get_categories], whatever the
    record of the product held under that key. *)
Theorem category_column
        (fields_order : list string) (category_name : string)
        (page_data : list record) (i : nat) :
  nth_error fields_order i = Some "category"%string ->
  forall rows err r,
    rows_written fields_order (set_category category_name page_data)
    = (rows, err) ->
    In r rows ->
    nth_error r i = Some category_name.
Proof.
  intros Hi.
  induction page_data as [|d ds IH]; intros rows err r;
    cbn [set_category map rows_written].
  - intros H. inversion H. contradiction.
  - unfold dict_to_list at 1.
    destruct (forallb _ _).
    + fold (set_category category_name ds).
      destruct (rows_written fields_order (set_category category_name ds))
        as [rs e] eqn:Hrs.
      intros H. inversion H; subst rows err. intros [<-|Hin].
      * rewrite nth_error_map, Hi. cbn [option_map].
        now rewrite dict_get_set.
      * exact (IH rs e r eq_refl Hin).
    + intros H. inversion H. contradiction.
Qed.

Lemma category_column_witness :
  rows_written default_fields_order (set_category "A; a1" [Shop.a_record])
  = ([["A-1"; "Anchor"; "Acme"; ""; "100"; "A; a1"; ""; ""; "";
       "https://yacht-parts.ru/catalog/a/a1/p1/"]], None)
  /\ nth_error ["A-1"; "Anchor"; "Acme"; ""; "100"; "A; a1"; ""; ""; "";
                "https://yacht-parts.ru/catalog/a/a1/p1/"] 5
     = Some "A; a1"%string.
Proof.
  split; [reflexivity|].
  apply (category_column default_fields_order "A; a1" [Shop.a_record] 5
                         eq_refl _ None _ eq_refl).
  now left.
Defined.
